(** * Google Docs tool server: credential resolution, dispatch and rendering

    A shallow embedding of [src/auth-cloudrun.ts], [src/server-http.ts] and
    [src/rest-api-wrapper.ts].

    Conventions of the embedding.
    - A JavaScript string is a [string]: a sequence of code units, here the
      8-bit ones.  [length], [substring] and [trim] count code units as the
      JavaScript methods do.
    - A JavaScript number that is an integer is a [Z]: the exact value of
      the number the code holds or, where the code rounds to a double (the
      result of [parseInt]), of the digits read; [Number_toString] prints
      the double.
    - [undefined] and [null] fields of the Docs API objects are [None].
    - A thrown value is a [JsError]; a computation that may throw returns a
      [Res].  Asynchronous code is sequential ([await] on every call), so it
      is embedded as sequential code.
    - Console output is not modelled. *)

From Stdlib Require Import List ZArith Lia Bool DecimalString Ascii String.
Import ListNotations.
Open Scope string_scope.
#[global] Set Warnings "-register-all".

(* ================================================================== *)
(** ** JavaScript string primitives used by the sources *)

Module JsString.

Definition LF : ascii := ascii_of_nat 10.
Definition SPACE : ascii := ascii_of_nat 32.

(** White space and line terminators of ECMAScript that fit a byte:
    TAB, LF, VT, FF, CR, SP and NBSP. *)
Definition is_whitespace (c : ascii) : bool :=
  let n := nat_of_ascii c in
  (n =? 9)%nat || (n =? 10)%nat || (n =? 11)%nat || (n =? 12)%nat
  || (n =? 13)%nat || (n =? 32)%nat || (n =? 160)%nat.

Fixpoint trimStart (s : string) : string :=
  match s with
  | EmptyString => EmptyString
  | String c s' => if is_whitespace c then trimStart s' else s
  end.

Fixpoint trimEnd (s : string) : string :=
  match s with
  | EmptyString => EmptyString
  | String c s' =>
      match trimEnd s' with
      | EmptyString => if is_whitespace c then EmptyString else String c EmptyString
      | t => String c t
      end
  end.

(** [s.trim()] *)
Definition trim (s : string) : string := trimEnd (trimStart s).

(** [s.replace(/\n/g, ' ')] *)
Fixpoint replace_newlines (s : string) : string :=
  match s with
  | EmptyString => EmptyString
  | String c s' =>
      String (if Ascii.eqb c LF then SPACE else c) (replace_newlines s')
  end.

(** [s.startsWith(p)] *)
Definition startsWith (p s : string) : bool := prefix p s.

Fixpoint drop (n : nat) (s : string) : string :=
  match n, s with
  | O, _ => s
  | S n', String _ s' => drop n' s'
  | S _, EmptyString => EmptyString
  end.

Fixpoint take (n : nat) (s : string) : string :=
  match n, s with
  | S n', String c s' => String c (take n' s')
  | _, _ => EmptyString
  end.

(** [s.replace(pat, rep)] with a string pattern: the first occurrence. *)
Fixpoint replace_first (pat rep s : string) {struct s} : string :=
  if prefix pat s then rep ++ drop (String.length pat) s
  else match s with
       | EmptyString => EmptyString
       | String c s' => String c (replace_first pat rep s')
       end.

(** [s.repeat(n)] for a count that is already a natural number. *)
Fixpoint repeat (s : string) (n : nat) : string :=
  match n with
  | O => EmptyString
  | S n' => s ++ repeat s n'
  end.

(** [s.substring(0, e)] for an integral [e]: a negative end is 0, an end
    beyond the length is the length. *)
Definition substring0 (e : Z) (s : string) : string := take (Z.to_nat e) s.

(** [s.includes(p)] *)
Fixpoint includes (p s : string) {struct s} : bool :=
  prefix p s ||
  match s with
  | EmptyString => false
  | String _ s' => includes p s'
  end.

(** Number to string, for an integral number. *)
Definition string_of_Z (z : Z) : string := NilZero.string_of_int (Z.to_int z).

Definition string_of_nat (n : nat) : string := string_of_Z (Z.of_nat n).

(** The double nearest to the integer [a], for [0 <= a], ties to the even
    significand; [None] is [Infinity]. *)
Definition nearest_double (a : Z) : option Z :=
  if (a <? 2 ^ 53)%Z then Some a
  else
    let sh := (Z.log2 a - 52)%Z in
    let q := Z.shiftr a sh in
    let r := (a - Z.shiftl q sh)%Z in
    let half := Z.shiftl 1 (sh - 1) in
    let q' := if (half <? r)%Z || ((r =? half)%Z && Z.odd q) then (q + 1)%Z else q in
    let v := Z.shiftl q' sh in
    if (v <? 2 ^ 1024)%Z then Some v else None.

(** Whether the decimal [v] reads back as the double [x]. *)
Definition reads_as (x v : Z) : bool :=
  match nearest_double v with
  | Some y => (y =? x)%Z
  | None => false
  end.

(** The shortest digits [s] that, followed by some number [p] of zeros,
    read back as the double [x]: the most zeros first, and of two
    candidates the nearer to [x], the even one when they are as near. *)
Fixpoint shortest_digits (x : Z) (p : nat) : Z * nat :=
  let unit := (10 ^ Z.of_nat p)%Z in
  let lo := (x / unit)%Z in
  let hi := (lo + 1)%Z in
  let lo_ok := (0 <? lo)%Z && reads_as x (lo * unit) in
  let hi_ok := reads_as x (hi * unit) in
  let pick :=
    if lo_ok && hi_ok then
      Some (if (x - lo * unit <? hi * unit - x)%Z then lo
            else if (hi * unit - x <? x - lo * unit)%Z then hi
            else if Z.even lo then lo else hi)
    else if lo_ok then Some lo
    else if hi_ok then Some hi
    else None in
  match pick, p with
  | Some s, _ => (s, p)
  | None, S p' => shortest_digits x p'
  | None, O => (x, O)
  end.

(** Number to string (a template literal, an error message) of the number
    the code holds for the integer [z]: the double nearest to it.  Below
    [2^53] that is [z] itself, in decimal digits; from there on the
    shortest digits that read back as the double, with an exponent from
    [1e21] and [Infinity] past the largest double. *)
Definition Number_toString (z : Z) : string :=
  if (Z.abs z <? 2 ^ 53)%Z then string_of_Z z
  else
    let sign := if (z <? 0)%Z then "-" else EmptyString in
    match nearest_double (Z.abs z) with
    | None => sign ++ "Infinity"
    | Some x =>
        let '(s, p) := shortest_digits x (String.length (string_of_Z x)) in
        let digits := string_of_Z s in
        let n := (String.length digits + p)%nat in
        if (n <=? 21)%nat then sign ++ digits ++ repeat "0" p
        else
          match digits with
          | String d rest =>
              sign ++ String d (match rest with
                                | EmptyString => EmptyString
                                | _ => "." ++ rest
                                end)
                ++ "e+" ++ string_of_Z (Z.of_nat n - 1)
          | EmptyString => sign
          end
    end.

Definition digit_val (c : ascii) : option Z :=
  let n := Z.of_nat (nat_of_ascii c) in
  if (48 <=? n)%Z && (n <=? 57)%Z then Some (n - 48)%Z else None.

Definition hex_val (c : ascii) : option Z :=
  let n := Z.of_nat (nat_of_ascii c) in
  if (48 <=? n)%Z && (n <=? 57)%Z then Some (n - 48)%Z
  else if (97 <=? n)%Z && (n <=? 102)%Z then Some (n - 87)%Z
  else if (65 <=? n)%Z && (n <=? 70)%Z then Some (n - 55)%Z
  else None.

(** The longest prefix of digits, as a number; [None] when there is none. *)
Fixpoint parse_digits (radix : Z) (val : ascii -> option Z)
         (s : string) (acc : option Z) : option Z :=
  match s with
  | EmptyString => acc
  | String c s' =>
      match val c with
      | Some d =>
          parse_digits radix val s'
            (Some (match acc with Some a => a * radix + d | None => d end)%Z)
      | None => acc
      end
  end.

(** [parseInt(s)] without a radix; [None] is NaN.  The value is the exact
    integer of the digits; the number the code holds is the double nearest
    to it, which has the same sign and the same minimum with 6, and which
    [Number_toString] prints. *)
Definition parseInt (s : string) : option Z :=
  let s1 := trimStart s in
  let '(neg, s2) :=
    match s1 with
    | String "-"%char r => (true, r)
    | String "+"%char r => (false, r)
    | _ => (false, s1)
    end in
  let '(radix, val, s3) :=
    match s2 with
    | String "0"%char (String "x"%char r) => (16%Z, hex_val, r)
    | String "0"%char (String "X"%char r) => (16%Z, hex_val, r)
    | _ => (10%Z, digit_val, s2)
    end in
  match parse_digits radix val s3 None with
  | Some v => Some (if neg then (- v)%Z else v)
  | None => None
  end.

(** [a.join(sep)] on strings. *)
Fixpoint join (sep : string) (l : list string) : string :=
  match l with
  | [] => EmptyString
  | [x] => x
  | x :: rest => x ++ sep ++ join sep rest
  end.

(** [s.split("\n")] *)
Fixpoint split_lines (s : string) : list string :=
  match s with
  | EmptyString => [EmptyString]
  | String c s' =>
      if Ascii.eqb c LF then EmptyString :: split_lines s'
      else match split_lines s' with
           | l :: ls => String c l :: ls
           | [] => [String c EmptyString]
           end
  end.

(** No line feed inside. *)
Fixpoint no_newline (s : string) : bool :=
  match s with
  | EmptyString => true
  | String c s' => negb (Ascii.eqb c LF) && no_newline s'
  end.

End JsString.

(* ================================================================== *)
(** ** Thrown values and results *)

Inductive ErrCode : Type :=
| CodeNum (n : Z)
| CodeStr (s : string).

(** What the sources read of a thrown value: whether it is a [UserError]
    of fastmcp, its [code] and its [message]. *)
Record JsError : Type := mkJsError {
  isUserError : bool;
  code : option ErrCode;
  message : option string
}.

Definition Error (msg : string) : JsError := mkJsError false None (Some msg).
Definition UserError (msg : string) : JsError := mkJsError true None (Some msg).
Definition TypeError (msg : string) : JsError := mkJsError false None (Some msg).
Definition RangeError (msg : string) : JsError := mkJsError false None (Some msg).

Inductive Res (A : Type) : Type :=
| Ok (a : A)
| Throw (e : JsError).
Arguments Ok {A} a.
Arguments Throw {A} e.

Definition bindR {A B} (m : Res A) (k : A -> Res B) : Res B :=
  match m with
  | Ok a => k a
  | Throw e => Throw e
  end.

Declare Scope res_scope.
Delimit Scope res_scope with res.
Notation "x <- m ;; k" := (bindR m (fun x => k))
  (at level 61, m at next level, right associativity) : res_scope.

(** [l.forEach(x => acc = f(acc, x))] where the callback may throw. *)
Fixpoint forEachR {A S} (f : S -> A -> Res S) (l : list A) (acc : S) : Res S :=
  match l with
  | [] => Ok acc
  | x :: rest => bindR (f acc x) (forEachR f rest)
  end.

(** The value of [e.message] inside a template literal. *)
Definition message_text (e : JsError) : string :=
  match message e with
  | Some m => m
  | None => "undefined"
  end.

(** [e.message || dflt] *)
Definition message_or (e : JsError) (dflt : string) : string :=
  match message e with
  | Some EmptyString | None => dflt
  | Some m => m
  end.

(** JavaScript truthiness of the optional fields the sources test. *)
Definition truthy_bool (b : option bool) : bool :=
  match b with Some true => true | _ => false end.

Definition truthy_string (s : option string) : bool :=
  match s with Some (String _ _) => true | _ => false end.

Definition is_some {A} (o : option A) : bool :=
  match o with Some _ => true | None => false end.

Definition nonempty (s : string) : bool :=
  match s with EmptyString => false | String _ _ => true end.

(** The one-character string of a line feed (the escape [\n]). *)
Definition nl : string := String JsString.LF EmptyString.

(** The double quote, as a character and as a string. *)
Definition DQUOTE : ascii := ascii_of_nat 34.
Definition dq : string := String DQUOTE EmptyString.

(* ================================================================== *)
(** ** The document snapshot and its renderers ([src/server-http.ts]) *)

Module Docs.
Import JsString.

(** The part of the Docs API document tree the sources read.  A
    structural element is an object with optional [paragraph], [table]
    and [sectionBreak] members, as the code tests them. *)
Record Link : Type := mkLink { url : option string }.

Record TextStyle : Type := mkTextStyle {
  bold : option bool;
  italic : option bool;
  underline : option bool;
  strikethrough : option bool;
  link : option Link
}.

Record TextRun : Type := mkTextRun {
  content : option string;
  textStyle : option TextStyle
}.

Record ParagraphElement : Type := mkParagraphElement {
  textRun : option TextRun
}.

Record ParagraphStyle : Type := mkParagraphStyle {
  namedStyleType : option string
}.

Record Bullet : Type := mkBullet { listId : option string }.

Record Paragraph : Type := mkParagraph {
  elements : option (list ParagraphElement);
  paragraphStyle : option ParagraphStyle;
  bullet : option Bullet
}.

Record SectionBreak : Type := mkSectionBreak { }.

Inductive StructuralElement : Type :=
  mkStructuralElement (paragraph : option Paragraph)
                      (table : option Table)
                      (sectionBreak : option SectionBreak)
with Table : Type :=
  mkTable (tableRows : option (list TableRow))
with TableRow : Type :=
  mkTableRow (tableCells : option (list TableCell))
with TableCell : Type :=
  mkTableCell (cell_content : option (list StructuralElement)).

Definition paragraph (e : StructuralElement) : option Paragraph :=
  match e with mkStructuralElement p _ _ => p end.
Definition table (e : StructuralElement) : option Table :=
  match e with mkStructuralElement _ t _ => t end.
Definition sectionBreak (e : StructuralElement) : option SectionBreak :=
  match e with mkStructuralElement _ _ s => s end.
Definition tableRows (t : Table) : option (list TableRow) :=
  match t with mkTable r => r end.
Definition tableCells (r : TableRow) : option (list TableCell) :=
  match r with mkTableRow c => c end.
Definition cell_content (c : TableCell) : option (list StructuralElement) :=
  match c with mkTableCell c => c end.

Record Body : Type := mkBody { body_content : option (list StructuralElement) }.
Record Document : Type := mkDocument { body : option Body }.

(** [docData.body?.content] *)
Definition body_content_of (docData : Document) : option (list StructuralElement) :=
  match body docData with
  | Some b => body_content b
  | None => None
  end.

(** [element.paragraph?.elements] *)
Definition paragraph_elements (element : StructuralElement)
  : option (list ParagraphElement) :=
  match paragraph element with
  | Some p => elements p
  | None => None
  end.

(** [pe.textRun?.content] *)
Definition run_content (pe : ParagraphElement) : option string :=
  match textRun pe with
  | Some tr => content tr
  | None => None
  end.

(** [style.link?.url] *)
Definition link_url (style : TextStyle) : option string :=
  match link style with
  | Some l => url l
  | None => None
  end.

(** [convertTextRunToMarkdown], server-http.ts 160-188. *)
Definition convertTextRunToMarkdown (textRun : TextRun) : string :=
  let text := match content textRun with
              | Some (String c s) => String c s
              | _ => EmptyString
              end in
  match textStyle textRun with
  | Some style =>
      let text :=
        if truthy_bool (bold style) && truthy_bool (italic style)
        then "***" ++ text ++ "***"
        else if truthy_bool (bold style) then "**" ++ text ++ "**"
        else if truthy_bool (italic style) then "*" ++ text ++ "*"
        else text in
      let text :=
        if truthy_bool (underline style) && negb (is_some (link style))
        then "<u>" ++ text ++ "</u>" else text in
      let text :=
        if truthy_bool (strikethrough style)
        then "~~" ++ text ++ "~~" else text in
      let text :=
        match link_url style with
        | Some (String c u) => "[" ++ text ++ "](" ++ String c u ++ ")"
        | _ => text
        end in
      text
  | None => text
  end.

(** [Math.min(level, 6)]; [None] is NaN. *)
Definition Math_min6 (level : option Z) : option Z :=
  match level with
  | Some n => Some (Z.min n 6)
  | None => None
  end.

(** ['#'.repeat(count)]: NaN counts as 0, a negative count throws a
    range error that prints the count. *)
Definition repeat_hash (count : option Z) : Res string :=
  match count with
  | None => Ok EmptyString
  | Some n =>
      if (n <? 0)%Z
      then Throw (RangeError ("Invalid count value: " ++ Number_toString n))
      else Ok (repeat "#" (Z.to_nat n))
  end.

(** [convertParagraphToMarkdown], server-http.ts 116-158. *)
Definition convertParagraphToMarkdown (paragraph : Paragraph) : Res string :=
  let '(isHeading, headingLevel) :=
    match paragraphStyle paragraph with
    | Some ps =>
        match namedStyleType ps with
        | Some (String c s) =>
            let styleType := String c s in
            if startsWith "HEADING_" styleType
            then (true, parseInt (replace_first "HEADING_" EmptyString styleType))
            else if String.eqb styleType "TITLE" then (true, Some 1%Z)
            else if String.eqb styleType "SUBTITLE" then (true, Some 2%Z)
            else (false, Some 0%Z)
        | _ => (false, Some 0%Z)
        end
    | None => (false, Some 0%Z)
    end in
  let isList := is_some (bullet paragraph) in
  let text :=
    match elements paragraph with
    | Some els =>
        fold_left (fun text element =>
                     match textRun element with
                     | Some tr => text ++ convertTextRunToMarkdown tr
                     | None => text
                     end) els EmptyString
    | None => EmptyString
    end in
  if isHeading && nonempty (trim text) then
    bindR (repeat_hash (Math_min6 headingLevel))
          (fun hashes => Ok (hashes ++ " " ++ trim text ++ nl ++ nl))
  else if isList && nonempty (trim text) then
    Ok ("- " ++ trim text ++ nl)
  else if nonempty (trim text) then
    Ok (trim text ++ nl ++ nl)
  else Ok nl.

(** The text of one cell: the inner loops of [convertTableToMarkdown],
    server-http.ts 203-214. *)
Definition cellText_of (cell : TableCell) : string :=
  match cell_content cell with
  | Some content =>
      fold_left
        (fun cellText element =>
           match paragraph_elements element with
           | Some pes =>
               fold_left
                 (fun cellText pe =>
                    match run_content pe with
                    | Some (String c s) =>
                        cellText ++ trim (replace_newlines (String c s))
                    | _ => cellText
                    end) pes cellText
           | None => cellText
           end) content EmptyString
  | None => EmptyString
  end.

(** [rowText] of a row with cells, server-http.ts 201-216. *)
Definition rowText_of (cells : list TableCell) : string :=
  fold_left (fun rowText cell => rowText ++ " " ++ cellText_of cell ++ " |")
            cells "|".

(** The separator of a row with cells, server-http.ts 221-224. *)
Definition separator_of (cells : list TableCell) : string :=
  Nat.iter (List.length cells) (fun separator => separator ++ " --- |") "|".

(** One pass of the row loop on the pair ([markdown], [isFirstRow]). *)
Definition table_row_step (st : string * bool) (row : TableRow) : string * bool :=
  let '(markdown, isFirstRow) := st in
  match tableCells row with
  | None => (markdown, isFirstRow)
  | Some cells =>
      let markdown := markdown ++ rowText_of cells ++ nl in
      if isFirstRow
      then (markdown ++ separator_of cells ++ nl, false)
      else (markdown, isFirstRow)
  end.

(** [convertTableToMarkdown], server-http.ts 190-231. *)
Definition convertTableToMarkdown (table : Table) : string :=
  match tableRows table with
  | None | Some [] => EmptyString
  | Some rows => fst (fold_left table_row_step rows (nl, true)) ++ nl
  end.

(** [convertDocsJsonToMarkdown], server-http.ts 96-114. *)
Definition convertDocsJsonToMarkdown (docData : Document) : Res string :=
  match body_content_of docData with
  | None => Ok "Document appears to be empty."
  | Some content =>
      bindR (forEachR
               (fun markdown element =>
                  match paragraph element with
                  | Some p =>
                      bindR (convertParagraphToMarkdown p)
                            (fun s => Ok (markdown ++ s))
                  | None =>
                      match table element with
                      | Some t => Ok (markdown ++ convertTableToMarkdown t)
                      | None =>
                          match sectionBreak element with
                          | Some _ => Ok (markdown ++ nl ++ "---" ++ nl ++ nl)
                          | None => Ok markdown
                          end
                      end
                  end) content EmptyString)
            (fun markdown => Ok (trim markdown))
  end.

(** The text of a paragraph's runs appended to [textContent]: the loops of
    the text branch of [readGoogleDoc], server-http.ts 287-291 and 298-302. *)
Definition append_runs (textContent : string) (pes : list ParagraphElement) : string :=
  fold_left (fun textContent pe =>
               match run_content pe with
               | Some (String c s) => textContent ++ String c s
               | _ => textContent
               end) pes textContent.

(** The accumulation of [textContent] in the text branch of
    [readGoogleDoc], server-http.ts 280-307. *)
Definition collect_textContent (data : Document) : string :=
  match body_content_of data with
  | None => EmptyString
  | Some content =>
      fold_left
        (fun textContent element =>
           let textContent :=
             match paragraph_elements element with
             | Some pes => append_runs textContent pes
             | None => textContent
             end in
           match table element with
           | Some t =>
               match tableRows t with
               | Some rows =>
                   fold_left
                     (fun textContent row =>
                        match tableCells row with
                        | Some cells =>
                            fold_left
                              (fun textContent cell =>
                                 match cell_content cell with
                                 | Some cc =>
                                     fold_left
                                       (fun textContent cellElement =>
                                          match paragraph_elements cellElement with
                                          | Some pes => append_runs textContent pes
                                          | None => textContent
                                          end) cc textContent
                                 | None => textContent
                                 end) cells textContent
                        | None => textContent
                        end) rows textContent
               | None => textContent
               end
           | None => textContent
           end) content EmptyString
  end.

End Docs.

(* ================================================================== *)
(** ** JSON values and [JSON.parse] *)

Module Json.
Import JsString.

(** A JavaScript value that is JSON data, or [undefined].  A number is
    the exact decimal [m * 10^e] of its literal. *)
Inductive JSON : Type :=
| JUndefined
| JNull
| JBool (b : bool)
| JNum (m e : Z)
| JStr (s : string)
| JArr (l : list JSON)
| JObj (members : list (string * JSON)).

(** Whether the double nearest to [m * 10^e] is zero: the value is at most
    half the least subnormal, [2^-1075]. *)
Definition num_is_zero (m e : Z) : bool :=
  (m =? 0)%Z
  || ((e <? 0)%Z && (Z.abs m * 2 ^ 1075 <=? 10 ^ (- e))%Z).

(** ToBoolean *)
Definition truthy (v : JSON) : bool :=
  match v with
  | JUndefined | JNull => false
  | JBool b => b
  | JNum m e => negb (num_is_zero m e)
  | JStr s => nonempty s
  | JArr _ | JObj _ => true
  end.

(** The own property [k] of an object literal: the last member of that
    name, [undefined] when there is none. *)
Fixpoint lookup (k : string) (members : list (string * JSON)) : JSON :=
  match members with
  | [] => JUndefined
  | (k', v) :: rest =>
      match lookup k rest with
      | JUndefined => if String.eqb k k' then v else JUndefined
      | found => found
      end
  end.

(** [v.k] for a name [k] that no prototype defines: reading a property
    of [null] or [undefined] throws. *)
Definition get_prop (v : JSON) (k : string) : Res JSON :=
  match v with
  | JUndefined | JNull =>
      Throw (TypeError ("Cannot read properties of " ++
                        (match v with JNull => "null" | _ => "undefined" end) ++
                        " (reading '" ++ k ++ "')"))
  | JObj members => Ok (lookup k members)
  | _ => Ok JUndefined
  end.

(** [v?.[0]] where [v] is not nullish: an array element or the first
    code unit of a string. *)
Definition index0 (v : JSON) : JSON :=
  match v with
  | JArr (x :: _) => x
  | JStr (String c _) => JStr (String c EmptyString)
  | JObj members => lookup "0" members
  | _ => JUndefined
  end.

(** The integer [m * 10^e], when it is one. *)
Definition int_value (m e : Z) : option Z :=
  if (0 <=? e)%Z then Some (m * 10 ^ e)%Z
  else if (m mod 10 ^ (- e) =? 0)%Z then Some (m / 10 ^ (- e))%Z
  else None.

(** Whether an object has an own property [k]. *)
Definition has_own (k : string) (members : list (string * JSON)) : bool :=
  existsb (fun kv => String.eqb k (fst kv)) members.

(** ToString, which a template literal and a property key apply.  [num]
    is the number-to-string of the platform, used for what is not an
    integer that a double holds exactly.

    An object is converted by its [toString]: the one of
    [Object.prototype], unless the object has an own member of that name.
    Such a member is JSON data and no function, [valueOf] gives the
    object back, and the conversion throws.  An array is converted by
    [join], which converts its elements other than [null] and
    [undefined], and so throws when one of them does. *)
Fixpoint to_string (num : Z -> Z -> string) (v : JSON) : Res string :=
  match v with
  | JUndefined => Ok "undefined"
  | JNull => Ok "null"
  | JBool true => Ok "true"
  | JBool false => Ok "false"
  | JNum m e =>
      Ok (match int_value m e with
          | Some z => if (Z.abs z <=? 2 ^ 53)%Z then string_of_Z z else num m e
          | None => num m e
          end)
  | JStr s => Ok s
  | JArr l =>
      bindR ((fix elements (l : list JSON) : Res (list string) :=
                match l with
                | [] => Ok []
                | x :: rest =>
                    bindR (match x with
                           | JUndefined | JNull => Ok EmptyString
                           | _ => to_string num x
                           end) (fun s =>
                    bindR (elements rest) (fun ss => Ok (s :: ss)))
                end) l)
            (fun parts => Ok (join "," parts))
  | JObj members =>
      if has_own "toString" members
      then Throw (TypeError "Cannot convert object to primitive value")
      else Ok "[object Object]"
  end.

(** ToPrimitive, which [new Date(v)] and a comparison with a number
    apply: an object or an array becomes its string ([valueOf] gives the
    object back, so either hint ends in [toString]). *)
Definition to_primitive (num : Z -> Z -> string) (v : JSON) : Res JSON :=
  match v with
  | JArr _ | JObj _ => bindR (to_string num v) (fun s => Ok (JStr s))
  | _ => Ok v
  end.

(** [a || b] *)
Definition or_else (a b : JSON) : JSON := if truthy a then a else b.

Definition is_json_ws (c : ascii) : bool :=
  let n := nat_of_ascii c in
  (n =? 32)%nat || (n =? 9)%nat || (n =? 10)%nat || (n =? 13)%nat.

Fixpoint skip_ws (s : string) : string :=
  match s with
  | String c s' => if is_json_ws c then skip_ws s' else s
  | EmptyString => EmptyString
  end.

(** The longest run of decimal digits at the head of [s]. *)
Fixpoint read_digits (s : string) : string * string :=
  match s with
  | String c s' =>
      match digit_val c with
      | Some _ => let '(d, r) := read_digits s' in (String c d, r)
      | None => (EmptyString, s)
      end
  | EmptyString => (EmptyString, EmptyString)
  end.

Definition digits_value (d : string) : Z :=
  match parse_digits 10 digit_val d None with
  | Some v => v
  | None => 0%Z
  end.

(** A JSON number literal at the head of [s]. *)
Definition parse_number (s : string) : option (JSON * string) :=
  let '(neg, s1) :=
    match s with
    | String "-"%char r => (true, r)
    | _ => (false, s)
    end in
  let int_part :=
    match s1 with
    | String "0"%char r => Some ("0", r)
    | _ => match read_digits s1 with
           | (EmptyString, _) => None
           | (d, r) => Some (d, r)
           end
    end in
  match int_part with
  | None => None
  | Some (int_d, s2) =>
      let frac_part :=
        match s2 with
        | String "."%char r =>
            match read_digits r with
            | (EmptyString, _) => None
            | (d, r') => Some (d, r')
            end
        | _ => Some (EmptyString, s2)
        end in
      match frac_part with
      | None => None
      | Some (frac_d, s3) =>
          let exp_part :=
            match s3 with
            | String c r =>
                if Ascii.eqb c "e"%char || Ascii.eqb c "E"%char then
                  let '(eneg, r1) :=
                    match r with
                    | String "-"%char r' => (true, r')
                    | String "+"%char r' => (false, r')
                    | _ => (false, r)
                    end in
                  match read_digits r1 with
                  | (EmptyString, _) => None
                  | (d, r') =>
                      Some ((if eneg then - digits_value d else digits_value d)%Z, r')
                  end
                else Some (0%Z, s3)
            | EmptyString => Some (0%Z, s3)
            end in
          match exp_part with
          | None => None
          | Some (ex, s4) =>
              let m := digits_value (int_d ++ frac_d) in
              Some (JNum (if neg then - m else m)%Z
                         (ex - Z.of_nat (String.length frac_d))%Z, s4)
          end
      end
  end.

(** Four hexadecimal digits of a [\u] escape. *)
Definition parse_hex4 (s : string) : option (Z * string) :=
  match s with
  | String a (String b (String c (String d r))) =>
      match hex_val a, hex_val b, hex_val c, hex_val d with
      | Some x, Some y, Some z, Some t =>
          Some (((x * 16 + y) * 16 + z) * 16 + t, r)%Z
      | _, _, _, _ => None
      end
  | _ => None
  end.

(** The characters of a string literal after its opening quote, up to
    and with the closing quote.  An escape [\uXXXX] above [00FF] has no
    code unit in this embedding and is kept as its low byte. *)
Fixpoint parse_string_body (fuel : nat) (s : string) : option (string * string) :=
  match fuel with
  | O => None
  | S f =>
      match s with
      | EmptyString => None
      | String c r =>
          if Ascii.eqb c DQUOTE then Some (EmptyString, r)
          else if Ascii.eqb c "\"%char then
            match r with
            | String e r' =>
                let simple (x : nat) :=
                  match parse_string_body f r' with
                  | Some (t, rest) => Some (String (ascii_of_nat x) t, rest)
                  | None => None
                  end in
                if Ascii.eqb e DQUOTE then simple 34%nat
                else if Ascii.eqb e "\"%char then simple 92%nat
                else if Ascii.eqb e "/"%char then simple 47%nat
                else if Ascii.eqb e "b"%char then simple 8%nat
                else if Ascii.eqb e "f"%char then simple 12%nat
                else if Ascii.eqb e "n"%char then simple 10%nat
                else if Ascii.eqb e "r"%char then simple 13%nat
                else if Ascii.eqb e "t"%char then simple 9%nat
                else if Ascii.eqb e "u"%char then
                  match parse_hex4 r' with
                  | Some (u, r'') =>
                      match parse_string_body f r'' with
                      | Some (t, rest) =>
                          Some (String (ascii_of_nat (Z.to_nat (u mod 256))) t, rest)
                      | None => None
                      end
                  | None => None
                  end
                else None
            | EmptyString => None
            end
          else if (nat_of_ascii c <? 32)%nat then None
          else match parse_string_body f r with
               | Some (t, rest) => Some (String c t, rest)
               | None => None
               end
      end
  end.

Definition parse_string (s : string) : option (string * string) :=
  parse_string_body (S (String.length s)) s.

(** A JSON value at the head of [s] (after white space), with the rest
    of the input.  Every call consumes a character before it calls
    again, so a fuel of the length of the input is enough. *)
Fixpoint parse_value (fuel : nat) (s : string) : option (JSON * string) :=
  match fuel with
  | O => None
  | S f =>
      match skip_ws s with
      | EmptyString => None
      | String c r =>
          if Ascii.eqb c "{"%char then
            match skip_ws r with
            | String "}"%char r' => Some (JObj [], r')
            | r1 => parse_members f r1 []
            end
          else if Ascii.eqb c "["%char then
            match skip_ws r with
            | String "]"%char r' => Some (JArr [], r')
            | r1 => parse_elements f r1 []
            end
          else if Ascii.eqb c DQUOTE then
            match parse_string r with
            | Some (t, rest) => Some (JStr t, rest)
            | None => None
            end
          else if prefix "true" (String c r) then Some (JBool true, drop 4 (String c r))
          else if prefix "false" (String c r) then Some (JBool false, drop 5 (String c r))
          else if prefix "null" (String c r) then Some (JNull, drop 4 (String c r))
          else parse_number (String c r)
      end
  end
with parse_members (fuel : nat) (s : string) (acc : list (string * JSON))
     : option (JSON * string) :=
  match fuel with
  | O => None
  | S f =>
      match skip_ws s with
      | String c r =>
          if Ascii.eqb c DQUOTE then
            match parse_string r with
            | Some (k, r1) =>
                match skip_ws r1 with
                | String ":"%char r2 =>
                    match parse_value f r2 with
                    | Some (v, r3) =>
                        match skip_ws r3 with
                        | String ","%char r4 => parse_members f r4 (acc ++ [(k, v)])%list
                        | String "}"%char r4 => Some (JObj (acc ++ [(k, v)])%list, r4)
                        | _ => None
                        end
                    | None => None
                    end
                | _ => None
                end
            | None => None
            end
          else None
      | EmptyString => None
      end
  end
with parse_elements (fuel : nat) (s : string) (acc : list JSON)
     : option (JSON * string) :=
  match fuel with
  | O => None
  | S f =>
      match parse_value f s with
      | Some (v, r) =>
          match skip_ws r with
          | String ","%char r' => parse_elements f r' (acc ++ [v])%list
          | String "]"%char r' => Some (JArr (acc ++ [v])%list, r')
          | _ => None
          end
      | None => None
      end
  end.

(** [JSON.parse(text)]: one value, then only white space; a
    [SyntaxError] otherwise. *)
Definition JSON_parse (text : string) : Res JSON :=
  match parse_value (2 + 2 * String.length text) text with
  | Some (v, rest) =>
      match skip_ws rest with
      | EmptyString => Ok v
      | _ => Throw (mkJsError false None (Some "Unexpected non-whitespace character after JSON"))
      end
  | None => Throw (mkJsError false None (Some "Unexpected token in JSON"))
  end.

End Json.

(* ================================================================== *)
(** ** Credential resolution ([src/auth-cloudrun.ts]) *)

Module Auth.
Import Json.

Inductive Path : Type := TOKEN_PATH | CREDENTIALS_PATH.

(** The authorization handle: what [new google.auth.OAuth2(id, secret,
    redirect)] and [setCredentials] store. *)
Record OAuth2Client : Type := mkOAuth2Client {
  client_id : JSON;
  client_secret : JSON;
  redirectUri : JSON;
  credentials : JSON
}.

(** The payload [saveCredentials] serializes into the token file. *)
Record SavedToken : Type := mkSavedToken {
  saved_client_id : JSON;
  saved_client_secret : JSON;
  saved_refresh_token : JSON
}.

(** The effects of the module on the outside, in program order. *)
Inductive Event : Type :=
| EvReadFile (p : Path)
| EvGetTokenInfo (access_token : JSON)
| EvQuestion                         (* [rl.question]: the interactive prompt *)
| EvGetToken (code : string)
| EvWriteFile (p : Path) (payload : SavedToken).

(** The outside of the process.  The files may change between two
    reads, so a read is answered by its rank among the reads;
    [None] is a rejected [fs.readFile]. *)
Record World : Type := mkWorld {
  env_GOOGLE_CREDENTIALS : option string;
  env_GOOGLE_TOKEN : option string;
  readFile : nat -> Path -> option string;
  question : string;                       (* the code the user types *)
  getToken : string -> Res JSON;           (* the token endpoint *)
  writeFile_ok : bool
}.

Record St : Type := mkSt {
  reads : nat;
  trace : list Event
}.

Definition st0 : St := mkSt 0 [].

(** Sequential code with effects on [St] that may throw. *)
Definition M (A : Type) : Type := St -> St * Res A.

Definition ret {A} (a : A) : M A := fun st => (st, Ok a).
Definition throw {A} (e : JsError) : M A := fun st => (st, Throw e).
Definition lift {A} (r : Res A) : M A := fun st => (st, r).
Definition bind {A B} (m : M A) (k : A -> M B) : M B :=
  fun st =>
    match m st with
    | (st', Ok a) => k a st'
    | (st', Throw e) => (st', Throw e)
    end.
Definition try_catch {A} (m : M A) (h : JsError -> M A) : M A :=
  fun st =>
    match m st with
    | (st', Throw e) => h e st'
    | r => r
    end.
Definition emit (ev : Event) : M unit :=
  fun st => (mkSt (reads st) (trace st ++ [ev])%list, Ok tt).

Declare Scope auth_scope.
Delimit Scope auth_scope with auth.
Notation "x <- m ;; k" := (bind m (fun x => k))
  (at level 61, m at next level, right associativity) : auth_scope.
Notation "m ;;; k" := (bind m (fun _ => k))
  (at level 61, right associativity) : auth_scope.
Local Open Scope auth_scope.

Section WithWorld.
Variable w : World.

(** [await fs.readFile(p)] *)
Definition fs_readFile (p : Path) : M string :=
  fun st =>
    let st' := mkSt (S (reads st)) (trace st ++ [EvReadFile p])%list in
    match readFile w (reads st) p with
    | Some s => (st', Ok s)
    | None => (st', Throw (mkJsError false (Some (CodeStr "ENOENT"))
                                     (Some "ENOENT: no such file or directory")))
    end.

(** [await fs.writeFile(p, payload)] *)
Definition fs_writeFile (p : Path) (payload : SavedToken) : M unit :=
  emit (EvWriteFile p payload) ;;;
  if writeFile_ok w then ret tt
  else throw (mkJsError false (Some (CodeStr "EACCES")) (Some "EACCES: permission denied")).

(** The first block of [loadCredentialsFromEnvOrFile], lines 30-39:
    [Some] is its [return], [None] is falling out of the [if]. *)
Definition from_env : option (JSON * JSON) :=
  if truthy_string (env_GOOGLE_CREDENTIALS w) && truthy_string (env_GOOGLE_TOKEN w)
  then
    match env_GOOGLE_CREDENTIALS w, env_GOOGLE_TOKEN w with
    | Some c, Some t =>
        match JSON_parse c with
        | Ok credentials =>
            match JSON_parse t with
            | Ok token => Some (credentials, token)
            | Throw _ => None
            end
        | Throw _ => None
        end
    | _, _ => None
    end
  else None.

(** The second block of [loadCredentialsFromEnvOrFile], lines 42-52. *)
Definition from_files : M (option (JSON * JSON)) :=
  try_catch
    (credContent <- fs_readFile CREDENTIALS_PATH ;;
     tokenContent <- fs_readFile TOKEN_PATH ;;
     credentials <- lift (JSON_parse credContent) ;;
     token <- lift (JSON_parse tokenContent) ;;
     ret (Some (credentials, token)))
    (fun _ => ret None).

(** [loadCredentialsFromEnvOrFile], lines 28-53. *)
Definition loadCredentialsFromEnvOrFile : M (option (JSON * JSON)) :=
  match from_env with
  | Some data => ret (Some data)
  | None => from_files
  end.

(** [credentials.installed || credentials.web] *)
Definition client_key (credentials : JSON) : Res JSON :=
  bindR (get_prop credentials "installed")
        (fun installed =>
           if truthy installed then Ok installed
           else get_prop credentials "web").

(** The test of the credentials, lines 76-82: reading [access_token]
    of a null [credentials] throws before the call; either way the
    failure is swallowed. *)
Definition validate (client : OAuth2Client) : M unit :=
  match get_prop (credentials client) "access_token" with
  | Ok access_token => emit (EvGetTokenInfo access_token)
  | Throw _ => ret tt
  end.

(** [loadSavedCredentialsIfExist], lines 55-89. *)
Definition loadSavedCredentialsIfExist : M (option OAuth2Client) :=
  try_catch
    (data <- loadCredentialsFromEnvOrFile ;;
     match data with
     | None => ret None
     | Some (credentials, token) =>
         key <- lift (client_key credentials) ;;
         if negb (truthy key) then ret None
         else
           client_id <- lift (get_prop key "client_id") ;;
           client_secret <- lift (get_prop key "client_secret") ;;
           redirect_uris <- lift (get_prop key "redirect_uris") ;;
           let client :=
             mkOAuth2Client client_id client_secret
               (or_else (match redirect_uris with
                         | JUndefined | JNull => JUndefined
                         | _ => index0 redirect_uris
                         end)
                        (JStr "urn:ietf:wg:oauth:2.0:oob"))
               token in
           validate client ;;;
           ret (Some client)
     end)
    (fun _ => ret None).

Record ClientSecrets : Type := mkClientSecrets {
  cs_client_id : JSON;
  cs_client_secret : JSON;
  cs_redirect_uris : JSON;
  cs_client_type : string
}.

(** [loadClientSecrets], lines 91-107. *)
Definition loadClientSecrets : M ClientSecrets :=
  data <- loadCredentialsFromEnvOrFile ;;
  match data with
  | None => throw (Error "Could not load credentials from environment or files.")
  | Some (keys, _) =>
      key <- lift (client_key keys) ;;
      if negb (truthy key)
      then throw (Error "Could not find client secrets in credentials.")
      else
        id <- lift (get_prop key "client_id") ;;
        secret <- lift (get_prop key "client_secret") ;;
        uris <- lift (get_prop key "redirect_uris") ;;
        web <- lift (get_prop keys "web") ;;
        ret (mkClientSecrets id secret
               (or_else uris (JArr [JStr "http://localhost:3000/"]))
               (if truthy web then "web" else "installed"))
  end.

(** [saveCredentials], lines 109-129. *)
Definition saveCredentials (client : OAuth2Client) : M unit :=
  if truthy_string (env_GOOGLE_CREDENTIALS w) then ret tt
  else
    try_catch
      (secrets <- loadClientSecrets ;;
       refresh_token <- lift (get_prop (credentials client) "refresh_token") ;;
       fs_writeFile TOKEN_PATH
         (mkSavedToken (cs_client_id secrets) (cs_client_secret secrets)
                       refresh_token))
      (fun _ => ret tt).

(** [authenticate], lines 131-169. *)
Definition authenticate : M OAuth2Client :=
  if truthy_string (env_GOOGLE_CREDENTIALS w)
  then throw (Error "Cannot run interactive authentication in Cloud Run environment.")
  else
    secrets <- loadClientSecrets ;;
    let redirectUri :=
      if String.eqb (cs_client_type secrets) "web"
      then index0 (cs_redirect_uris secrets)
      else JStr "urn:ietf:wg:oauth:2.0:oob" in
    (* the template literal of the first DEBUG line converts
       [redirectUri] to a string; the text is only logged *)
    _ <- lift (to_string (fun _ _ => EmptyString) redirectUri) ;;
    let oAuth2Client :=
      mkOAuth2Client (cs_client_id secrets) (cs_client_secret secrets)
                     redirectUri (JObj []) in
    emit EvQuestion ;;;
    let code := question w in
    try_catch
      (emit (EvGetToken code) ;;;
       tokens <- lift (getToken w code) ;;
       let oAuth2Client :=
         mkOAuth2Client (client_id oAuth2Client) (client_secret oAuth2Client)
                        (Auth.redirectUri oAuth2Client) tokens in
       refresh_token <- lift (get_prop tokens "refresh_token") ;;
       (if truthy refresh_token then saveCredentials oAuth2Client else ret tt) ;;;
       ret oAuth2Client)
      (fun _ => throw (Error "Authentication failed")).

(** [authorize], lines 171-189. *)
Definition authorize : M OAuth2Client :=
  let isCloudRun := truthy_string (env_GOOGLE_CREDENTIALS w) in
  client <- loadSavedCredentialsIfExist ;;
  match client with
  | Some client => ret client
  | None =>
      if isCloudRun
      then throw (Error "No valid credentials found in Cloud Run environment. Please check Secret Manager configuration.")
      else authenticate
  end.

End WithWorld.

(** One resolution in a fresh process: the outcome and the effects. *)
Definition resolve (w : World) : list Event * Res OAuth2Client :=
  let '(st, r) := authorize w st0 in (trace st, r).

(** Whether the interactive prompt occurs among the effects. *)
Definition prompted (tr : list Event) : bool :=
  existsb (fun ev => match ev with EvQuestion => true | _ => false end) tr.

End Auth.

(* ================================================================== *)
(** ** The API clients and the module-level state of the servers *)

Module Google.
Import Auth.

(** [google.docs({version: 'v1', auth})] and [google.drive({version: 'v3',
    auth})]: a client remembers its handle. *)
Record DocsClient : Type := mkDocsClient { docs_version : string; docs_auth : OAuth2Client }.
Record DriveClient : Type := mkDriveClient { drive_version : string; drive_auth : OAuth2Client }.

Definition docs (auth : OAuth2Client) : DocsClient := mkDocsClient "v1" auth.
Definition drive (auth : OAuth2Client) : DriveClient := mkDriveClient "v3" auth.

(** The three module-level variables [authClient], [googleDocs] and
    [googleDrive] of either server. *)
Record Clients : Type := mkClients {
  authClient : option OAuth2Client;
  googleDocs : option DocsClient;
  googleDrive : option DriveClient
}.

(** Their initial value: all [null]. *)
Definition no_clients : Clients := mkClients None None None.

(** The state of a process: its module-level variables and its effects
    so far. *)
Record Proc : Type := mkProc {
  clients : Clients;
  io : St
}.

Definition proc0 : Proc := mkProc no_clients st0.

Definition P (A : Type) : Type := Proc -> Proc * Res A.

Definition retP {A} (a : A) : P A := fun p => (p, Ok a).
Definition throwP {A} (e : JsError) : P A := fun p => (p, Throw e).
Definition liftP {A} (r : Res A) : P A := fun p => (p, r).
Definition bindP {A B} (m : P A) (k : A -> P B) : P B :=
  fun p =>
    match m p with
    | (p', Ok a) => k a p'
    | (p', Throw e) => (p', Throw e)
    end.
Definition try_catchP {A} (m : P A) (h : JsError -> P A) : P A :=
  fun p =>
    match m p with
    | (p', Throw e) => h e p'
    | r => r
    end.
(** A call into [auth-cloudrun.ts]. *)
Definition callAuth {A} (m : M A) : P A :=
  fun p => let '(st', r) := m (io p) in (mkProc (clients p) st', r).
Definition getClients : P Clients := fun p => (p, Ok (clients p)).
Definition setClients (c : Clients) : P unit := fun p => (mkProc c (io p), Ok tt).

Declare Scope proc_scope.
Delimit Scope proc_scope with proc.
Notation "x <- m ;; k" := (bindP m (fun x => k))
  (at level 61, m at next level, right associativity) : proc_scope.
Notation "m ;;; k" := (bindP m (fun _ => k))
  (at level 61, right associativity) : proc_scope.

End Google.

(* ================================================================== *)
(** ** The streaming server ([src/server-http.ts]) *)

Module ServerHttp.
Import JsString Json Auth Google Docs.
Local Open Scope proc_scope.

Inductive Format : Type := text | json | markdown.

(** The arguments of [readGoogleDoc] after the schema of the tool:
    [documentId] a string, [format] with its default, [maxLength] an
    optional number, here an integral one (past [2^53], one of the
    integers a double holds). *)
Record ReadArgs : Type := mkReadArgs {
  documentId : string;
  format : Format;
  maxLength : option Z
}.

(** The outside of the server: the outside of the credential module, the
    Docs API ([docs.documents.get] by document id and field mask) and
    [JSON.stringify(data, null, 2)]. *)
Record World : Type := mkWorld {
  auth_world : Auth.World;
  documents_get : string -> string -> Res Document;
  stringify : Document -> string
}.

Section WithWorld.
Variable w : World.

(** [initializeGoogleClient], lines 30-60. *)
Definition initializeGoogleClient : P Clients :=
  c <- getClients ;;
  match googleDocs c, googleDrive c with
  | Some _, Some _ => retP c
  | _, _ =>
      (match authClient c with
       | None =>
           try_catchP
             (client <- callAuth (authorize (auth_world w)) ;;
              setClients (mkClients (Some client)
                                    (Some (Google.docs client))
                                    (Some (Google.drive client))))
             (fun _ =>
                setClients (mkClients None None None) ;;;
                throwP (Error "Google client initialization failed. Cannot start server tools."))
       | Some _ => retP tt
       end) ;;;
      c <- getClients ;;
      (match authClient c, googleDocs c with
       | Some a, None => setClients (mkClients (authClient c) (Some (Google.docs a)) (googleDrive c))
       | _, _ => retP tt
       end) ;;;
      c <- getClients ;;
      (match authClient c, googleDrive c with
       | Some a, None => setClients (mkClients (authClient c) (googleDocs c) (Some (Google.drive a)))
       | _, _ => retP tt
       end) ;;;
      c <- getClients ;;
      match googleDocs c, googleDrive c with
      | Some _, Some _ => retP c
      | _, _ => throwP (Error "Google Docs and Drive clients could not be initialized.")
      end
  end.

(** [getDocsClient], lines 77-83. *)
Definition getDocsClient : P DocsClient :=
  c <- initializeGoogleClient ;;
  match googleDocs c with
  | Some d => retP d
  | None => throwP (UserError "Google Docs client is not initialized.")
  end.

(** [getDriveClient], lines 86-92. *)
Definition getDriveClient : P DriveClient :=
  c <- initializeGoogleClient ;;
  match googleDrive c with
  | Some d => retP d
  | None => throwP (UserError "Google Drive client is not initialized.")
  end.

(** [args.maxLength && total > args.maxLength] *)
Definition over_limit (maxLength : option Z) (total : nat) : option Z :=
  match maxLength with
  | Some m => if negb (m =? 0)%Z && (Z.of_nat total >? m)%Z then Some m else None
  | None => None
  end.

(** The markdown branch of [readGoogleDoc], lines 267-278, on the
    rendered string. *)
Definition markdown_result (maxLength : option Z) (markdownContent : string) : string :=
  let totalLength := String.length markdownContent in
  match over_limit maxLength totalLength with
  | Some m =>
      let truncatedContent := substring0 m markdownContent in
      truncatedContent ++ nl ++ nl ++ "... [Markdown truncated to " ++ Number_toString m
        ++ " chars of " ++ string_of_nat totalLength ++ " total.]"
  | None => markdownContent
  end.

(** The text branch of [readGoogleDoc], lines 309-319, on the
    accumulated string. *)
Definition text_result (maxLength : option Z) (textContent : string) : string :=
  if negb (nonempty (trim textContent)) then "Document found, but appears empty."
  else
    let totalLength := String.length textContent in
    match over_limit maxLength totalLength with
    | Some m =>
        let truncatedContent := substring0 m textContent in
        "Content (truncated to " ++ Number_toString m ++ " chars):" ++ nl ++ "---" ++ nl
          ++ truncatedContent ++ nl ++ nl ++ "..."
    | None =>
        "Content (" ++ string_of_nat totalLength ++ " characters):" ++ nl ++ "---" ++ nl
          ++ textContent
    end.

(** The [json] branch, lines 259-265. *)
Definition json_result (maxLength : option Z) (jsonContent : string) : string :=
  match over_limit maxLength (String.length jsonContent) with
  | Some m =>
      substring0 m jsonContent ++ nl ++ "... [JSON truncated: "
        ++ string_of_nat (String.length jsonContent) ++ " total chars]"
  | None => jsonContent
  end.

(** The body of the [try] of [readGoogleDoc], lines 249-319. *)
Definition readGoogleDoc_try (args : ReadArgs) : Res string :=
  let fields :=
    match format args with
    | json | markdown => "*"
    | text => "body(content(paragraph(elements(textRun(content)))))"
    end in
  bindR (documents_get w (documentId args) fields)
    (fun data =>
       match format args with
       | json => Ok (json_result (maxLength args) (stringify w data))
       | markdown =>
           bindR (convertDocsJsonToMarkdown data)
                 (fun markdownContent => Ok (markdown_result (maxLength args) markdownContent))
       | text => Ok (text_result (maxLength args) (collect_textContent data))
       end).

(** The [catch] of [readGoogleDoc], lines 321-327: what it throws. *)
Definition readGoogleDoc_catch (args : ReadArgs) (error : JsError) : JsError :=
  if isUserError error then error
  else match code error with
       | Some (CodeNum 404) => UserError ("Doc not found (ID: " ++ documentId args ++ ").")
       | Some (CodeNum 403) => UserError ("Permission denied for doc (ID: " ++ documentId args ++ ").")
       | _ => UserError ("Failed to read doc: " ++ message_or error "Unknown error")
       end.

(** [execute] of the tool [readGoogleDoc], lines 244-328. *)
Definition readGoogleDoc (args : ReadArgs) : P string :=
  _docs <- getDocsClient ;;
  match readGoogleDoc_try args with
  | Ok s => retP s
  | Throw error => throwP (readGoogleDoc_catch args error)
  end.

(** [execute] of the tool [healthCheck], lines 336-339. *)
Definition healthCheck : P string := retP "OK".

End WithWorld.

End ServerHttp.

(* ================================================================== *)
(** ** The REST facade ([src/rest-api-wrapper.ts]) *)

Module RestApi.
Import JsString Json Auth Google Docs.
Local Open Scope proc_scope.

(** The parameters of [googleDrive.files.list]. *)
Record ListParams : Type := mkListParams {
  q : string;
  orderBy : option string;
  pageSize : JSON;
  fields : string
}.

(** The outside of the facade: the outside of the credential module; the
    upstream API, each call answering with [response.data] or throwing;
    and what the platform computes from the clock, the locale and
    numbers that are not exact integers. *)
Record World : Type := mkWorld {
  auth_world : Auth.World;
  documents_get : JSON -> Res Document;
  documents_create : JSON -> Res JSON;
  files_list : ListParams -> Res JSON;
  (* [d = new Date(); d.setDate(d.getDate() - daysBack); d.toISOString()] *)
  cutoff_toISOString : JSON -> Res string;
  (* [new Date(v).toLocaleString()] for a primitive [v] *)
  date_toLocaleString : JSON -> string;
  number_toString : Z -> Z -> string;
  (* the truncation of [readGoogleDoc] by a primitive [maxLength] that
     is not an integral number: the new [textContent] *)
  truncate_other : string -> JSON -> string
}.

(** [{ success: true, data }] or [{ success: false, error }]; the second
    carries [stack] when the route's [catch] wrote it.  [error] is
    absent when the thrown value has no [message]. *)
Inductive ResponseBody : Type :=
| SuccessBody (data : string)
| FailureBody (error : option string) (with_stack : bool).

Record Response : Type := mkResponse {
  status : nat;
  body : ResponseBody
}.

(** What a route handler does with a request: it answers, or its
    promise rejects with a thrown value. *)
Inductive Outcome : Type :=
| Responded (r : Response)
| Rejected (e : JsError).

Inductive ToolName : Type :=
| getRecentGoogleDocs_tool
| readGoogleDoc_tool
| searchGoogleDocs_tool
| createDocument_tool.

(** The registry [tools], lines 139-160: its own properties. *)
Definition tools : list (string * ToolName) :=
  [ ("getRecentGoogleDocs", getRecentGoogleDocs_tool);
    ("readGoogleDoc", readGoogleDoc_tool);
    ("searchGoogleDocs", searchGoogleDocs_tool);
    ("createDocument", createDocument_tool) ].

(** The property names every object literal inherits. *)
Definition Object_prototype_names : list string :=
  [ "constructor"; "__defineGetter__"; "__defineSetter__"; "hasOwnProperty";
    "__lookupGetter__"; "__lookupSetter__"; "isPrototypeOf";
    "propertyIsEnumerable"; "toString"; "valueOf"; "__proto__";
    "toLocaleString" ].

(** The value of [tools[key]]. *)
Inductive Lookup : Type :=
| Registered (t : ToolName)
| Inherited                       (* truthy, without [execute] *)
| Missing.

Fixpoint assoc {A} (k : string) (l : list (string * A)) : option A :=
  match l with
  | [] => None
  | (k', v) :: rest => if String.eqb k k' then Some v else assoc k rest
  end.

Definition tools_get (key : string) : Lookup :=
  match assoc key tools with
  | Some t => Registered t
  | None =>
      if existsb (String.eqb key) Object_prototype_names then Inherited
      else Missing
  end.

Section WithWorld.
Variable w : World.

(** ToString and ToPrimitive in front of the platform. *)
Definition str (v : JSON) : Res string := to_string (number_toString w) v.

Definition prim (v : JSON) : Res JSON := to_primitive (number_toString w) v.

(** [initializeGoogleClient], lines 21-35. *)
Definition initializeGoogleClient : P Clients :=
  c <- getClients ;;
  match googleDocs c, googleDrive c with
  | Some _, Some _ => retP c
  | _, _ =>
      try_catchP
        (client <- callAuth (authorize (auth_world w)) ;;
         let c' := mkClients (Some client) (Some (Google.docs client))
                             (Some (Google.drive client)) in
         setClients c' ;;;
         retP c')
        (fun error => throwP error)
  end.

(** A destructuring default: [{ k = dflt } = args]. *)
Definition prop_default (args : JSON) (k : string) (dflt : JSON) : Res JSON :=
  bindR (get_prop args k)
        (fun v => match v with JUndefined => Ok dflt | _ => Ok v end).

(** [v?.k] *)
Definition opt_prop (v : JSON) (k : string) : JSON :=
  match v with
  | JObj members => lookup k members
  | _ => JUndefined
  end.

(** The callback of [docs.map], lines 52-57 and 102-107: the date is
    made first, then the template literal converts its values from left to
    right. *)
Definition formatDoc (index : nat) (doc : JSON) : Res string :=
  bindR (get_prop doc "modifiedTime") (fun modifiedTime =>
  bindR (prim (or_else modifiedTime (JStr EmptyString))) (fun date_value =>
  bindR (get_prop doc "owners") (fun owners =>
    let owner :=
      or_else (opt_prop (match owners with
                         | JUndefined | JNull => JUndefined
                         | _ => index0 owners
                         end) "displayName")
              (JStr "Unknown") in
  bindR (get_prop doc "name") (fun name =>
  bindR (str name) (fun name_text =>
  bindR (get_prop doc "id") (fun id =>
  bindR (str id) (fun id_text =>
    let modified := date_toLocaleString w date_value in
  bindR (str owner) (fun owner_text =>
  bindR (get_prop doc "webViewLink") (fun webViewLink =>
  bindR (str webViewLink) (fun link_text =>
    Ok (string_of_nat (index + 1) ++ ". **" ++ name_text ++ "**" ++ nl
        ++ "   ID: " ++ id_text ++ nl
        ++ "   Last Modified: " ++ modified ++ " by " ++ owner_text ++ nl
        ++ "   Link: " ++ link_text))))))))))).

Fixpoint mapi_docs (index : nat) (docs : list JSON) : Res (list string) :=
  match docs with
  | [] => Ok []
  | d :: rest =>
      bindR (formatDoc index d) (fun s =>
      bindR (mapi_docs (S index) rest) (fun ss => Ok (s :: ss)))
  end.

(** [(response.data.files || []).map(...).join('\n\n')] *)
Definition formattedDocs_of (data : JSON) : Res string :=
  bindR (get_prop data "files") (fun files =>
    match or_else files (JArr []) with
    | JArr docs => bindR (mapi_docs 0 docs) (fun l => Ok (join (nl ++ nl) l))
    | _ => Throw (TypeError "docs.map is not a function")
    end).

(** [getRecentGoogleDocs], lines 38-63. *)
Definition getRecentGoogleDocs (args : JSON) : Res string :=
  match
    bindR (prop_default args "maxResults" (JNum 10 0)) (fun maxResults =>
    bindR (prop_default args "daysBack" (JNum 30 0)) (fun daysBack =>
    bindR (cutoff_toISOString w daysBack) (fun cutoff =>
    bindR (files_list w
             (mkListParams
                ("mimeType='application/vnd.google-apps.document' and modifiedTime >= '"
                   ++ cutoff ++ "'")
                (Some "modifiedTime desc") maxResults
                "files(id,name,modifiedTime,owners,webViewLink)")) (fun data =>
    bindR (formattedDocs_of data) (fun formattedDocs =>
    bindR (str daysBack) (fun days =>
      Ok ("Recently modified Google Document(s) (last " ++ days ++ " days):"
          ++ nl ++ nl ++ formattedDocs)))))))
  with
  | Ok s => Ok s
  | Throw error => Throw (Error ("Failed to get recent docs: " ++ message_text error))
  end.

(** The accumulation of [textContent], lines 70-79. *)
Definition rest_textContent (data : Document) : string :=
  match body_content_of data with
  | None => EmptyString
  | Some content =>
      fold_left
        (fun textContent element =>
           match paragraph element with
           | Some p =>
               match elements p with
               | Some pes =>
                   fold_left
                     (fun textContent pe =>
                        match textRun pe with
                        | Some tr =>
                            textContent ++ match Docs.content tr with
                                           | Some c => c
                                           | None => "undefined"
                                           end
                        | None => textContent
                        end) pes textContent
               | None => textContent
               end
           | None => textContent
           end) content EmptyString
  end.

(** Lines 81-83.  The comparison with the length converts a
    [maxLength] that is an object or an array to a primitive. *)
Definition rest_truncate (maxLength : JSON) (textContent : string) : Res string :=
  if truthy maxLength then
    match maxLength with
    | JNum m e =>
        match int_value m e with
        | Some n =>
            if (Z.of_nat (String.length textContent) >? n)%Z
            then Ok (substring0 n textContent ++ "...")
            else Ok textContent
        | None => Ok (truncate_other w textContent maxLength)
        end
    | _ =>
        bindR (prim maxLength) (fun limit => Ok (truncate_other w textContent limit))
    end
  else Ok textContent.

(** [readGoogleDoc], lines 65-89. *)
Definition readGoogleDoc (args : JSON) : Res string :=
  match
    bindR (get_prop args "documentId") (fun documentId =>
    bindR (get_prop args "maxLength") (fun maxLength =>
    bindR (documents_get w documentId) (fun data =>
    bindR (rest_truncate maxLength (rest_textContent data)) (fun textContent =>
      Ok ("Document Content:" ++ nl ++ "---" ++ nl ++ textContent)))))
  with
  | Ok s => Ok s
  | Throw error => Throw (Error ("Failed to read document: " ++ message_text error))
  end.

(** [searchGoogleDocs], lines 91-113. *)
Definition searchGoogleDocs (args : JSON) : Res string :=
  match
    bindR (get_prop args "searchQuery") (fun searchQuery =>
    bindR (prop_default args "maxResults" (JNum 10 0)) (fun maxResults =>
    bindR (str searchQuery) (fun query =>
    bindR (files_list w
             (mkListParams
                ("mimeType='application/vnd.google-apps.document' and (name contains '"
                   ++ query ++ "' or fullText contains '" ++ query ++ "')")
                None maxResults
                "files(id,name,modifiedTime,owners,webViewLink)")) (fun data =>
    bindR (formattedDocs_of data) (fun formattedDocs =>
      Ok ("Search results for " ++ dq ++ query ++ dq ++ ":" ++ nl ++ nl
          ++ formattedDocs))))))
  with
  | Ok s => Ok s
  | Throw error => Throw (Error ("Failed to search documents: " ++ message_text error))
  end.

(** [createDocument], lines 115-136. *)
Definition createDocument (args : JSON) : Res string :=
  match
    bindR (get_prop args "title") (fun title =>
      if negb (truthy title) then Throw (Error "title is required")
      else
        bindR (documents_create w title) (fun data =>
        bindR (get_prop data "documentId") (fun docId =>
        bindR (get_prop data "title") (fun docTitle =>
        bindR (str docTitle) (fun title_text =>
        bindR (str docId) (fun id_text =>
          Ok ("Created document: " ++ dq ++ title_text ++ dq ++ nl
              ++ "Document ID: " ++ id_text ++ nl
              ++ "View: https://docs.google.com/document/d/" ++ id_text ++ "/edit")))))))
  with
  | Ok s => Ok s
  | Throw error => Throw (Error ("Failed to create document: " ++ message_text error))
  end.

(** [tool.execute] of a registered tool. *)
Definition execute (t : ToolName) (args : JSON) : Res string :=
  match t with
  | getRecentGoogleDocs_tool => getRecentGoogleDocs args
  | readGoogleDoc_tool => readGoogleDoc args
  | searchGoogleDocs_tool => searchGoogleDocs args
  | createDocument_tool => createDocument args
  end.

(** The [catch] of every route: status 500 with the message. *)
Definition respond_500 (error : JsError) (with_stack : bool) : Outcome :=
  Responded (mkResponse 500 (FailureBody (message error) with_stack)).

(** The routes [/api/docs/recent], [/api/docs/read] and
    [/api/docs/search], lines 170-200. *)
Definition docs_route (handler : JSON -> Res string) (req_body : JSON)
  : Proc -> Proc * Outcome :=
  fun p =>
    match initializeGoogleClient p with
    | (p', Ok _) =>
        match handler req_body with
        | Ok result => (p', Responded (mkResponse 200 (SuccessBody result)))
        | Throw error => (p', respond_500 error false)
        end
    | (p', Throw error) => (p', respond_500 error false)
    end.

(** The route [/api/mcp/call], lines 203-226: the dispatcher.
    [req_body] is the parsed body of the request.  The handler rejects
    when its [catch] throws in its turn, at the template literal that
    converts [req.body.toolName]: for a body that is [null] or
    [undefined], and for a tool name that has no string. *)
Definition dispatch (req_body : JSON) : Proc -> Proc * Outcome :=
  fun p =>
    match get_prop req_body "toolName", get_prop req_body "arguments" with
    | Ok toolName, Ok toolArgs =>
        if negb (truthy toolName)
        then (p, Responded (mkResponse 400 (FailureBody (Some "toolName is required") false)))
        else
          (* [tools[toolName]] converts the name to a property key *)
          match str toolName with
          | Ok key =>
              match tools_get key with
              | Missing =>
                  (p, Responded (mkResponse 404
                         (FailureBody (Some ("Tool '" ++ key ++ "' not found")) false)))
              | found =>
                  match initializeGoogleClient p with
                  | (p', Ok _) =>
                      match found with
                      | Registered t =>
                          match execute t (or_else toolArgs (JObj [])) with
                          | Ok result => (p', Responded (mkResponse 200 (SuccessBody result)))
                          | Throw error => (p', respond_500 error true)
                          end
                      | _ => (p', respond_500 (TypeError "tool.execute is not a function") true)
                      end
                  | (p', Throw error) => (p', respond_500 error true)
                  end
              end
          | Throw error =>
              (* the same conversion throws again in the [catch] *)
              (p, Rejected error)
          end
    | Throw e, _ | _, Throw e =>
        (* the body is [null] or [undefined]: the destructuring throws,
           and so does [req.body.toolName] in the [catch] *)
        (p, Rejected e)
    end.

End WithWorld.

End RestApi.

(* ================================================================== *)
(** ** The specification's statements, in its own words *)

Module Spec.
Import JsString Json Docs.

(** *** Inline styles (section 4.3): the markers, innermost first *)

(** Bold with italic is one triple marker; bold alone is double, italic
    alone single. *)
Definition emphasis (is_bold is_italic : bool) (t : string) : string :=
  match is_bold, is_italic with
  | true, true => "***" ++ t ++ "***"
  | true, false => "**" ++ t ++ "**"
  | false, true => "*" ++ t ++ "*"
  | false, false => t
  end.

(** Underline, only for a run that carries no hyperlink. *)
Definition underlined (is_underlined has_link : bool) (t : string) : string :=
  if is_underlined then (if has_link then t else "<u>" ++ t ++ "</u>") else t.

Definition struck (is_struck : bool) (t : string) : string :=
  if is_struck then "~~" ++ t ++ "~~" else t.

(** The link construct around the decorated text, carrying the URL. *)
Definition linked (target : option string) (t : string) : string :=
  match target with
  | Some u => "[" ++ t ++ "](" ++ u ++ ")"
  | None => t
  end.

(** The hyperlink target of a style: a URL that is not empty. *)
Definition target_of (style : TextStyle) : option string :=
  match link style with
  | Some (mkLink (Some (String c u))) => Some (String c u)
  | _ => None
  end.

(** The text of a run: its content, empty when there is none. *)
Definition text_of (r : TextRun) : string :=
  match content r with
  | Some s => s
  | None => EmptyString
  end.

Definition styled_run (t : string) (style : TextStyle) : string :=
  linked (target_of style)
    (struck (truthy_bool (strikethrough style))
       (underlined (truthy_bool (underline style)) (is_some (link style))
          (emphasis (truthy_bool (bold style)) (truthy_bool (italic style)) t))).

(** *** Tables (sections 4.3 and 8) *)

(** The body line of a row and the separator that follows a row. *)
Definition row_line (r : TableRow) : string :=
  match tableCells r with
  | Some cells => rowText_of cells
  | None => EmptyString
  end.

Definition separator_line (r : TableRow) : string :=
  match tableCells r with
  | Some cells => "|" ++ repeat " --- |" (List.length cells)
  | None => EmptyString
  end.

(** A row with at least one cell. *)
Definition has_cell (r : TableRow) : bool :=
  match tableCells r with
  | Some (_ :: _) => true
  | _ => false
  end.

(** *** Nested tables *)

(** The elements of a cell with the [table] member of each replaced by
    what [g] says: any change to the tables nested in the cell. *)
Definition renest_cell (g : StructuralElement -> option Table) (c : TableCell)
  : TableCell :=
  mkTableCell
    (option_map (map (fun e => mkStructuralElement (paragraph e) (g e) (sectionBreak e)))
                (cell_content c)).

Definition renest_row (g : StructuralElement -> option Table) (r : TableRow)
  : TableRow :=
  mkTableRow (option_map (map (renest_cell g)) (tableCells r)).

Definition renest_table (g : StructuralElement -> option Table) (t : Table) : Table :=
  mkTable (option_map (map (renest_row g)) (tableRows t)).

(** The snapshot with every table nested in a cell of a top-level table
    replaced by what [g] says. *)
Definition renest (g : StructuralElement -> option Table) (d : Document) : Document :=
  mkDocument
    (option_map
       (fun b =>
          mkBody
            (option_map
               (map (fun e => mkStructuralElement (paragraph e)
                                (option_map (renest_table g) (table e))
                                (sectionBreak e)))
               (body_content b)))
       (body d)).

(** The text a cell gets from the paragraphs directly inside it. *)
Definition paragraph_text (p : Paragraph) : string :=
  match elements p with
  | Some pes =>
      String.concat EmptyString
        (map (fun pe => match run_content pe with
                        | Some (String c s) => trim (replace_newlines (String c s))
                        | _ => EmptyString
                        end) pes)
  | None => EmptyString
  end.

(** *** Truncation (sections 4.3 and 8) *)

(** What the specification says of the result of truncating a rendered
    string of length L to a maximum length M: below L, the first M
    characters and a suffix that reports the L - M elided characters and the
    total L; from L on, the rendered string itself. *)
Definition truncation_as_specified (rendered : string) (M : Z) (result : string) : Prop :=
  let L := Z.of_nat (String.length rendered) in
  ((M < L)%Z ->
   exists suffix,
     result = substring0 M rendered ++ suffix
     /\ includes (string_of_Z (L - M)) suffix = true
     /\ includes (string_of_Z L) suffix = true)
  /\ ((L <= M)%Z -> result = rendered).

(** *** Well-formed snapshots *)

(** The named styles of the Docs API. *)
Definition named_styles : list string :=
  [ "NAMED_STYLE_TYPE_UNSPECIFIED"; "NORMAL_TEXT"; "TITLE"; "SUBTITLE";
    "HEADING_1"; "HEADING_2"; "HEADING_3"; "HEADING_4"; "HEADING_5"; "HEADING_6" ].

Definition wf_paragraph (p : Paragraph) : bool :=
  match paragraphStyle p with
  | Some ps =>
      match namedStyleType ps with
      | Some s => existsb (String.eqb s) named_styles
      | None => true
      end
  | None => true
  end.

(** A snapshot whose top-level paragraphs carry named styles of the API. *)
Definition wf_snapshot (d : Document) : bool :=
  match body_content_of d with
  | Some content =>
      forallb (fun e => match paragraph e with
                        | Some p => wf_paragraph p
                        | None => true
                        end) content
  | None => true
  end.

End Spec.

(* ================================================================== *)
(** ** Statements on credential resolution and on the servers *)

Module SpecAuth.
Import Json Auth.

(** A secret value that is present and parses as JSON. *)
Definition parses (v : option string) : bool :=
  match v with
  | Some t => match JSON_parse t with Ok _ => true | Throw _ => false end
  | None => false
  end.

(** Both injected values are present (as the code tests them: not empty). *)
Definition injected_both (w : World) : bool :=
  truthy_string (env_GOOGLE_CREDENTIALS w) && truthy_string (env_GOOGLE_TOKEN w).

(** Both injected values are present and one of them does not parse. *)
Definition injected_unparseable (w : World) : bool :=
  injected_both w
  && negb (parses (env_GOOGLE_CREDENTIALS w) && parses (env_GOOGLE_TOKEN w)).

(** The client key of an app-registration config: its [installed] or
    [web] member, when one of them is truthy. *)
Definition usable_key (credentials : JSON) : option JSON :=
  match client_key credentials with
  | Ok key => if truthy key then Some key else None
  | Throw _ => None
  end.

(** A computation that does not reach the interactive prompt: the effects
    it adds hold no prompt. *)
Definition quiet {A} (m : M A) : Prop :=
  forall st st' r,
    m st = (st', r) ->
    exists evs, trace st' = (trace st ++ evs)%list /\ prompted evs = false.

(** The message of [authorize] when nothing can be loaded in the managed
    environment. *)
Definition no_valid_credentials : JsError :=
  Error "No valid credentials found in Cloud Run environment. Please check Secret Manager configuration.".

End SpecAuth.

Module SpecCache.
Import Auth Google.

(** Both API clients are set: the test at the head of either
    [initializeGoogleClient]. *)
Definition ready (c : Clients) : bool :=
  is_some (googleDocs c) && is_some (googleDrive c).

(** The clients made from one handle. *)
Definition clients_of (client : OAuth2Client) : Clients :=
  mkClients (Some client) (Some (Google.docs client)) (Some (Google.drive client)).

(** Successive calls of the initialization of the streaming server, each
    in front of its own outside. *)
Fixpoint http_calls (ws : list ServerHttp.World) (p : Proc) : Proc * list (Res Clients) :=
  match ws with
  | [] => (p, [])
  | w :: rest =>
      let '(p1, r) := ServerHttp.initializeGoogleClient w p in
      let '(p2, rs) := http_calls rest p1 in
      (p2, r :: rs)
  end.

(** The same for the REST facade. *)
Fixpoint rest_calls (ws : list RestApi.World) (p : Proc) : Proc * list (Res Clients) :=
  match ws with
  | [] => (p, [])
  | w :: rest =>
      let '(p1, r) := RestApi.initializeGoogleClient w p in
      let '(p2, rs) := rest_calls rest p1 in
      (p2, r :: rs)
  end.

(** The states the REST facade is in between two requests: it starts with
    no client, and its routes initialize and dispatch. *)
Inductive rest_reachable : Proc -> Prop :=
| reach_start : rest_reachable proc0
| reach_initialize (w : RestApi.World) (p : Proc) :
    rest_reachable p -> rest_reachable (fst (RestApi.initializeGoogleClient w p))
| reach_docs_route (w : RestApi.World) (handler : Json.JSON -> Res string)
                   (req_body : Json.JSON) (p : Proc) :
    rest_reachable p -> rest_reachable (fst (RestApi.docs_route w handler req_body p))
| reach_dispatch (w : RestApi.World) (req_body : Json.JSON) (p : Proc) :
    rest_reachable p -> rest_reachable (fst (RestApi.dispatch w req_body p)).

(** The message of the streaming server when resolution fails. *)
Definition initialization_failed : JsError :=
  Error "Google client initialization failed. Cannot start server tools.".

End SpecCache.

Module SpecDispatch.
Import Json.



(** The body of a call of the tool [name] with the arguments [args]. *)
Definition call_body (name : string) (args : JSON) : JSON :=
  JObj [("toolName", JStr name); ("arguments", args)].

(** The [title] that [createDocument] finds in the arguments of a call. *)
Definition title_of (toolArgs : JSON) : JSON :=
  match get_prop (or_else toolArgs (JObj [])) "title" with
  | Ok t => t
  | Throw _ => JUndefined
  end.



(** A parsed request body: an object or an array, never [null]. *)
Definition is_nullish (v : JSON) : bool :=
  match v with
  | JUndefined | JNull => true
  | _ => false
  end.

End SpecDispatch.

(* ================================================================== *)
(** ** Concrete inputs *)

Module Examples.
Import JsString Json Docs.

Definition run (s : string) : ParagraphElement :=
  mkParagraphElement (Some (mkTextRun (Some s) None)).

Definition para (s : string) : StructuralElement :=
  mkStructuralElement (Some (mkParagraph (Some [run s]) None None)) None None.

Definition cell (s : string) : TableCell := mkTableCell (Some [para s]).

(** A table of two rows and two columns. *)
Definition table_2x2 : Table :=
  mkTable (Some [ mkTableRow (Some [cell "a"; cell "b"]);
                  mkTableRow (Some [cell "c"; cell "d"]) ]).

(** A snapshot of one paragraph, [Hello]. *)
Definition hello_doc : Document := mkDocument (Some (mkBody (Some [para "Hello"]))).

(** A snapshot whose content is the empty list. *)
Definition empty_content_doc : Document := mkDocument (Some (mkBody (Some []))).

(** A snapshot of one paragraph that holds a line feed only. *)
Definition blank_paragraph_doc : Document :=
  mkDocument (Some (mkBody (Some [para nl]))).

(** The snapshot of a document without text, as the Docs API returns it: a
    section break, then one paragraph that holds a line feed. *)
Definition new_document : Document :=
  mkDocument
    (Some (mkBody (Some [ mkStructuralElement None None (Some mkSectionBreak);
                          para nl ]))).

(** JSON text written with single quotes, for reading: every single quote
    stands for a double quote. *)
Fixpoint json_text (s : string) : string :=
  match s with
  | EmptyString => EmptyString
  | String c s' =>
      String (if Ascii.eqb c "'"%char then DQUOTE else c) (json_text s')
  end.

(** An app-registration config and a token, as JSON text. *)
Definition credentials_json : string :=
  json_text
    "{'installed':{'client_id':'id-1','client_secret':'s-1','redirect_uris':['http://localhost']}}".

Definition token_json : string :=
  json_text "{'access_token':'at-1','refresh_token':'rt-1'}".

(** Another pair, for the local files. *)
Definition file_credentials_json : string :=
  json_text "{'installed':{'client_id':'id-2','client_secret':'s-2'}}".

Definition file_token_json : string :=
  json_text "{'access_token':'at-2','refresh_token':'rt-2'}".

Definition files_present (_ : nat) (p : Auth.Path) : option string :=
  match p with
  | Auth.CREDENTIALS_PATH => Some file_credentials_json
  | Auth.TOKEN_PATH => Some file_token_json
  end.

Definition files_absent (_ : nat) (_ : Auth.Path) : option string := None.

(** Files that parse, the first without a client key. *)
Definition files_without_key (_ : nat) (p : Auth.Path) : option string :=
  match p with
  | Auth.CREDENTIALS_PATH => Some "{}"
  | Auth.TOKEN_PATH => Some file_token_json
  end.

(** The files appear after the first failed read. *)
Definition files_late (n : nat) (p : Auth.Path) : option string :=
  if (n <? 1)%nat then None else files_present n p.

Definition auth_world (cred tok : option string)
           (files : nat -> Auth.Path -> option string) : Auth.World :=
  Auth.mkWorld cred tok files "4/code"
               (fun _ => Ok (JObj [("access_token", JStr "at-3");
                                   ("refresh_token", JStr "rt-3")]))
               true.

(** Injected secrets, both well formed; no file. *)
Definition managed_world : Auth.World :=
  auth_world (Some credentials_json) (Some token_json) files_absent.

(** Injected secrets with a token that does not parse; the files exist. *)
Definition corrupt_token_world : Auth.World :=
  auth_world (Some credentials_json) (Some "{bad") files_present.

(** Injected secrets with a token that does not parse; no file. *)
Definition corrupt_token_no_files_world : Auth.World :=
  auth_world (Some credentials_json) (Some "{bad") files_absent.

(** Injected secrets with a token that does not parse; the files parse
    and hold no client key. *)
Definition corrupt_token_keyless_world : Auth.World :=
  auth_world (Some credentials_json) (Some "{bad") files_without_key.

(** No injected secret; no file at first. *)
Definition local_world : Auth.World := auth_world None None files_late.

(** The streaming server in front of a Docs API that holds [hello_doc]. *)
Definition hello_server : ServerHttp.World :=
  ServerHttp.mkWorld managed_world (fun _ _ => Ok hello_doc) (fun _ => "{}").

(** The streaming server in front of a document without text. *)
Definition blank_server : ServerHttp.World :=
  ServerHttp.mkWorld managed_world (fun _ _ => Ok new_document) (fun _ => "{}").

(** The REST facade in a managed environment, in front of an upstream API
    given by its three calls. *)
Definition rest_world (aw : Auth.World)
           (get : JSON -> Res Document) (create : JSON -> Res JSON)
           (list : RestApi.ListParams -> Res JSON) : RestApi.World :=
  RestApi.mkWorld aw get create list
                  (fun _ => Ok "2026-01-01T00:00:00.000Z")
                  (fun _ => "1/1/2026, 12:00:00 AM")
                  (fun _ _ => "NaN")
                  (fun textContent _ => textContent).

(** An upstream API that finds no file. *)
Definition quiet_upstream : RestApi.World :=
  rest_world managed_world
             (fun _ => Ok hello_doc)
             (fun title => Ok (JObj [("documentId", JStr "doc-9"); ("title", title)]))
             (fun _ => Ok (JObj [("files", JArr [])])).


(** The REST facade whose credentials cannot be resolved. *)
Definition unresolved_rest : RestApi.World :=
  rest_world corrupt_token_no_files_world
             (fun _ => Ok hello_doc)
             (fun title => Ok (JObj [("documentId", JStr "doc-9"); ("title", title)]))
             (fun _ => Ok (JObj [("files", JArr [])])).

(** The streaming server whose credentials cannot be resolved. *)
Definition unresolved_server : ServerHttp.World :=
  ServerHttp.mkWorld corrupt_token_no_files_world (fun _ _ => Ok hello_doc) (fun _ => "{}").


End Examples.

(* ================================================================== *)
(** ** Statements on the effects of credential resolution *)

Module SpecEffects.
Import Json Auth.

(** A computation whose added effects satisfy [Q], and which keeps the
    read counter equal to the number of file reads made. *)
Definition n_reads (evs : list Event) : nat :=
  List.length (filter (fun ev => match ev with EvReadFile _ => true | _ => false end) evs).

Definition effects {A} (Q : list Event -> Prop) (m : M A) : Prop :=
  forall st st' r,
    m st = (st', r) ->
    exists evs, trace st' = (trace st ++ evs)%list
                /\ reads st' = (reads st + n_reads evs)%nat
                /\ Q evs.

(** Effects in sequence. *)
Definition then_ (Q1 Q2 : list Event -> Prop) (evs : list Event) : Prop :=
  exists e1 e2, evs = (e1 ++ e2)%list /\ Q1 e1 /\ Q2 e2.

(** No effect; the reads of the loader (the credentials file, then the
    token file); the check of the token. *)
Definition nothing (evs : list Event) : Prop := evs = [].

Definition file_reads (evs : list Event) : Prop :=
  evs = [EvReadFile CREDENTIALS_PATH]
  \/ evs = [EvReadFile CREDENTIALS_PATH; EvReadFile TOKEN_PATH].

Definition loader_reads (evs : list Event) : Prop := evs = [] \/ file_reads evs.

Definition token_check (evs : list Event) : Prop :=
  evs = [] \/ exists access_token, evs = [EvGetTokenInfo access_token].

(** A write of the token file with the refresh token of [client]. *)
Definition token_write (client : OAuth2Client) (evs : list Event) : Prop :=
  evs = []
  \/ exists payload,
      evs = [EvWriteFile TOKEN_PATH payload]
      /\ get_prop (credentials client) "refresh_token" = Ok (saved_refresh_token payload).



Definition is_write (ev : Event) : bool :=
  match ev with EvWriteFile _ _ => true | _ => false end.

Definition is_read (ev : Event) : bool :=
  match ev with EvReadFile _ => true | _ => false end.

End SpecEffects.

Module SpecServer.
Import Auth Google.

(** The states the streaming server is in between two tool calls. *)
Inductive http_reachable : Proc -> Prop :=
| http_start : http_reachable proc0
| http_initialize (w : ServerHttp.World) (p : Proc) :
    http_reachable p -> http_reachable (fst (ServerHttp.initializeGoogleClient w p))
| http_read (w : ServerHttp.World) (args : ServerHttp.ReadArgs) (p : Proc) :
    http_reachable p -> http_reachable (fst (ServerHttp.readGoogleDoc w args p))
| http_health (p : Proc) :
    http_reachable p -> http_reachable (fst (ServerHttp.healthCheck p)).

(** The module state holds no client, or the three made from one handle. *)
Definition coherent (c : Clients) : Prop :=
  c = no_clients \/ exists client, c = SpecCache.clients_of client.


(** A snapshot with the members of its top-level elements other than
    [paragraph] replaced by what [g] and [h] say. *)
Definition keep_paragraphs (g : Docs.StructuralElement -> option Docs.Table)
           (h : Docs.StructuralElement -> option Docs.SectionBreak)
           (d : Docs.Document) : Docs.Document :=
  Docs.mkDocument
    (option_map
       (fun b =>
          Docs.mkBody
            (option_map
               (map (fun e => Docs.mkStructuralElement (Docs.paragraph e) (g e) (h e)))
               (Docs.body_content b)))
       (Docs.body d)).

(** A string that does not begin, or does not end, with white space. *)
Definition starts_clean (s : string) : bool :=
  match s with
  | String c _ => negb (JsString.is_whitespace c)
  | EmptyString => true
  end.

Fixpoint ends_clean (s : string) : bool :=
  match s with
  | EmptyString => true
  | String c EmptyString => negb (JsString.is_whitespace c)
  | String _ s' => ends_clean s'
  end.

(** A snapshot made of the elements [content]. *)
Definition doc_of (content : list Docs.StructuralElement) : Docs.Document :=
  Docs.mkDocument (Some (Docs.mkBody (Some content))).

(** A paragraph of the runs [els] with the named style [style]. *)
Definition styled_paragraph (style : string) (els : list Docs.ParagraphElement)
           (b : option Docs.Bullet) : Docs.Paragraph :=
  Docs.mkParagraph (Some els) (Some (Docs.mkParagraphStyle (Some style))) b.

(** The text of the runs of a paragraph, as [convertParagraphToMarkdown]
    accumulates it. *)
Definition runs_markdown (els : list Docs.ParagraphElement) : string :=
  fold_left (fun text element =>
               match Docs.textRun element with
               | Some tr => text ++ Docs.convertTextRunToMarkdown tr
               | None => text
               end) els EmptyString.

(** A top-level element without table whose text runs all have a
    content. *)
Definition plain_element (e : Docs.StructuralElement) : bool :=
  match Docs.table e with
  | Some _ => false
  | None =>
      match Docs.paragraph_elements e with
      | Some pes =>
          forallb (fun pe => match Docs.textRun pe with
                             | Some tr => is_some (Docs.content tr)
                             | None => true
                             end) pes
      | None => true
      end
  end.

(** A row that has a [tableCells] member. *)
Definition with_cells (r : Docs.TableRow) : bool := is_some (Docs.tableCells r).

(** A table of three rows of which the first has no [tableCells]. *)
Definition table_with_bare_row : Docs.Table :=
  Docs.mkTable (Some [ Docs.mkTableRow None;
                       Docs.mkTableRow (Some [Examples.cell "a"]);
                       Docs.mkTableRow (Some [Examples.cell "b"]) ]).

(** A snapshot with a title and a heading. *)
Definition titled_doc : Docs.Document :=
  doc_of [ Docs.mkStructuralElement
             (Some (styled_paragraph "TITLE" [Examples.run "Plan"] None)) None None;
           Docs.mkStructuralElement
             (Some (styled_paragraph "HEADING_2" [Examples.run "Scope"] None)) None None ].

(** A snapshot with a heading of level -1. *)
Definition negative_heading_doc : Docs.Document :=
  doc_of [ Examples.para "Intro";
           Docs.mkStructuralElement
             (Some (styled_paragraph "HEADING_-1" [Examples.run "Title"] None)) None None ].

Definition negative_heading_server : ServerHttp.World :=
  ServerHttp.mkWorld Examples.managed_world (fun _ _ => Ok negative_heading_doc)
                     (fun _ => "{}").

End SpecServer.

(* ================================================================== *)
(** ** Strings: facts about the primitives *)

Section StringFacts.
Import JsString.

Lemma append_nil_r (s : string) : s ++ EmptyString = s.
Proof. induction s as [|c s IH]; simpl; [reflexivity | now rewrite IH]. Qed.

Lemma append_assoc (a b c : string) : (a ++ b) ++ c = a ++ (b ++ c).
Proof. induction a as [|x a IH]; simpl; [reflexivity | now rewrite IH]. Qed.

Lemma length_append (a b : string) :
  String.length (a ++ b) = (String.length a + String.length b)%nat.
Proof. induction a as [|x a IH]; simpl; [reflexivity | now rewrite IH]. Qed.

Lemma no_newline_append (a b : string) :
  no_newline (a ++ b) = no_newline a && no_newline b.
Proof.
  induction a as [|x a IH]; simpl; [reflexivity|].
  rewrite IH. now rewrite andb_assoc.
Qed.

Lemma no_newline_replace_newlines (s : string) :
  no_newline (replace_newlines s) = true.
Proof.
  induction s as [|c s IH]; simpl; [reflexivity|].
  rewrite IH, andb_true_r.
  destruct (Ascii.eqb c LF) eqn:E; [reflexivity | now rewrite E].
Qed.

Lemma no_newline_trimStart (s : string) :
  no_newline s = true -> no_newline (trimStart s) = true.
Proof.
  induction s as [|c s IH]; simpl; [trivial|].
  intros H. apply andb_true_iff in H as [Hc Hs].
  destruct (is_whitespace c); [auto|].
  simpl. now rewrite Hc, Hs.
Qed.

Lemma no_newline_trimEnd (s : string) :
  no_newline s = true -> no_newline (trimEnd s) = true.
Proof.
  induction s as [|c s IH]; simpl; [trivial|].
  intros H. apply andb_true_iff in H as [Hc Hs].
  specialize (IH Hs).
  destruct (trimEnd s) as [|d t].
  - destruct (is_whitespace c); simpl; [reflexivity | now rewrite Hc].
  - simpl in *. now rewrite Hc, IH.
Qed.

Lemma no_newline_trim (s : string) :
  no_newline s = true -> no_newline (trim s) = true.
Proof. intros H. unfold trim. now apply no_newline_trimEnd, no_newline_trimStart. Qed.

(** A line without line feed, then a line feed: the first line of the split. *)
Lemma split_lines_cons (a rest : string) :
  no_newline a = true ->
  split_lines (a ++ String LF rest) = a :: split_lines rest.
Proof.
  induction a as [|c a IH]; simpl; intros H.
  - reflexivity.
  - apply andb_true_iff in H as [Hc Ha].
    apply negb_true_iff in Hc. rewrite Hc.
    now rewrite (IH Ha).
Qed.

Lemma split_lines_line (a rest : string) :
  no_newline a = true ->
  split_lines (a ++ nl ++ rest) = a :: split_lines rest.
Proof. apply split_lines_cons. Qed.

Lemma split_lines_nl (rest : string) :
  split_lines (nl ++ rest) = EmptyString :: split_lines rest.
Proof. reflexivity. Qed.

Lemma take_length (n : nat) (s : string) :
  (n <= String.length s)%nat -> String.length (take n s) = n.
Proof.
  revert s; induction n as [|n IH]; intros [|c s] H; simpl in *; try lia.
  rewrite IH; lia.
Qed.

Lemma take_drop (n : nat) (s : string) : take n s ++ drop n s = s.
Proof.
  revert s; induction n as [|n IH]; intros [|c s]; simpl; try reflexivity.
  now rewrite IH.
Qed.

Lemma fold_left_append {A} (f : A -> string) (l : list A) (acc : string) :
  fold_left (fun s x => s ++ f x) l acc = acc ++ String.concat EmptyString (map f l).
Proof.
  revert acc; induction l as [|x l IH]; intros acc; simpl.
  - now rewrite append_nil_r.
  - rewrite IH. destruct l as [|y l].
    + simpl. now rewrite !append_nil_r.
    + simpl. now rewrite append_assoc.
Qed.

End StringFacts.

(* ================================================================== *)
(** ** The renderer: inline styles, tables, nested tables *)

Section RendererFacts.
Import JsString Docs.

(** A property of the accumulator that every pass of a loop keeps. *)
Lemma fold_left_invariant {A S} (P : S -> Prop) (f : S -> A -> S) (l : list A) :
  (forall acc x, P acc -> P (f acc x)) ->
  forall acc, P acc -> P (fold_left f l acc).
Proof.
  intros Hstep. induction l as [|x l IH]; simpl; intros acc Hacc.
  - exact Hacc.
  - apply IH, Hstep, Hacc.
Qed.

(** Two loops whose passes agree element by element. *)
Lemma fold_left_map_ext {A B S} (f : S -> A -> S) (g : S -> B -> S) (h : A -> B)
      (l : list A) :
  (forall acc x, g acc (h x) = f acc x) ->
  forall acc, fold_left g (map h l) acc = fold_left f l acc.
Proof.
  intros Hfg. induction l as [|x l IH]; simpl; intros acc.
  - reflexivity.
  - now rewrite Hfg, IH.
Qed.

Lemma forEachR_map_ext {A B S} (f : S -> A -> Res S) (g : S -> B -> Res S) (h : A -> B)
      (l : list A) :
  (forall acc x, g acc (h x) = f acc x) ->
  forall acc, forEachR g (map h l) acc = forEachR f l acc.
Proof.
  intros Hfg. induction l as [|x l IH]; intros acc; [reflexivity|].
  cbn [map forEachR]. rewrite Hfg.
  destruct (f acc x); cbn [bindR]; [apply IH | reflexivity].
Qed.

Lemma no_newline_concat (l : list string) :
  forallb no_newline l = true ->
  no_newline (String.concat EmptyString l) = true.
Proof.
  induction l as [|x l IH]; simpl; intros H; [reflexivity|].
  apply andb_true_iff in H as [Hx Hl].
  destruct l as [|y l]; [exact Hx|].
  simpl. rewrite no_newline_append, Hx. simpl. exact (IH Hl).
Qed.

Lemma repeat_snoc (x : string) (n : nat) : repeat x n ++ x = x ++ repeat x n.
Proof.
  induction n as [|n IH]; simpl.
  - now rewrite append_nil_r.
  - now rewrite append_assoc, IH.
Qed.

Lemma no_newline_repeat (x : string) (n : nat) :
  no_newline x = true -> no_newline (repeat x n) = true.
Proof.
  intros Hx. induction n as [|n IH]; simpl; [reflexivity|].
  now rewrite no_newline_append, Hx, IH.
Qed.

(** The separator of a row is a bar and one [ --- |] per cell: it reads the
    number of cells and nothing of their content. *)
Lemma separator_of_cells (cells : list TableCell) :
  separator_of cells = "|" ++ repeat " --- |" (List.length cells).
Proof.
  unfold separator_of. generalize (List.length cells) as n.
  induction n as [|n IH]; [reflexivity|].
  rewrite Nat.iter_succ, IH, append_assoc, repeat_snoc. reflexivity.
Qed.

Lemma no_newline_cellText (cell : TableCell) : no_newline (cellText_of cell) = true.
Proof.
  unfold cellText_of. destruct (cell_content cell) as [content|]; [|reflexivity].
  apply fold_left_invariant; [|reflexivity].
  intros acc e Hacc.
  destruct (paragraph_elements e) as [pes|]; [|exact Hacc].
  apply fold_left_invariant; [|exact Hacc].
  intros acc' pe Hacc'.
  destruct (run_content pe) as [[|c s]|]; try exact Hacc'.
  rewrite no_newline_append, Hacc'. cbn [andb].
  apply no_newline_trim, no_newline_replace_newlines.
Qed.

Lemma no_newline_rowText (cells : list TableCell) : no_newline (rowText_of cells) = true.
Proof.
  unfold rowText_of. apply fold_left_invariant; [|reflexivity].
  intros acc cell Hacc.
  rewrite !no_newline_append, Hacc, no_newline_cellText. reflexivity.
Qed.

Lemma no_newline_row_line (r : TableRow) : no_newline (Spec.row_line r) = true.
Proof.
  unfold Spec.row_line. destruct (tableCells r); [apply no_newline_rowText | reflexivity].
Qed.

Lemma no_newline_separator_line (r : TableRow) :
  no_newline (Spec.separator_line r) = true.
Proof.
  unfold Spec.separator_line. destruct (tableCells r); [|reflexivity].
  change (no_newline (repeat " --- |" (List.length l)) = true).
  now apply no_newline_repeat.
Qed.

Lemma concat_lines_cons {A} (line : A -> string) (x : A) (l : list A) :
  String.concat EmptyString (map (fun r => line r ++ nl) (x :: l))
  = line x ++ nl ++ String.concat EmptyString (map (fun r => line r ++ nl) l).
Proof.
  cbn [map]. destruct l as [|y l].
  - cbn [map String.concat]. now rewrite !append_nil_r.
  - cbn [map String.concat]. now rewrite !append_assoc.
Qed.

(** One pass of the row loop on a row with cells. *)
Lemma table_row_step_cells (markdown : string) (isFirstRow : bool) (r : TableRow) :
  Spec.has_cell r = true ->
  table_row_step (markdown, isFirstRow) r
  = if isFirstRow
    then (markdown ++ Spec.row_line r ++ nl ++ Spec.separator_line r ++ nl, false)
    else (markdown ++ Spec.row_line r ++ nl, false).
Proof.
  unfold Spec.has_cell, table_row_step, Spec.row_line, Spec.separator_line.
  destruct (tableCells r) as [[|c cells]|]; try discriminate. intros _.
  rewrite separator_of_cells.
  destruct isFirstRow; rewrite ?append_assoc; reflexivity.
Qed.

(** The row loop once the first row is behind: one line per row. *)
Lemma rows_after_first (rows : list TableRow) :
  forallb Spec.has_cell rows = true ->
  forall markdown,
    fold_left table_row_step rows (markdown, false)
    = (markdown ++ String.concat EmptyString (map (fun r => Spec.row_line r ++ nl) rows),
       false).
Proof.
  induction rows as [|r rows IH]; intros Hall markdown.
  - simpl. now rewrite append_nil_r.
  - simpl in Hall. apply andb_true_iff in Hall as [Hr Hrows].
    cbn [fold_left]. rewrite (table_row_step_cells _ _ _ Hr), (IH Hrows).
    rewrite concat_lines_cons, ?append_assoc. reflexivity.
Qed.

(** The rendering of a table whose rows all have cells. *)
Lemma convertTableToMarkdown_rows (t : Table) (first : TableRow) (rest : list TableRow) :
  tableRows t = Some (first :: rest) ->
  forallb Spec.has_cell (first :: rest) = true ->
  convertTableToMarkdown t
  = nl ++ Spec.row_line first ++ nl ++ Spec.separator_line first ++ nl
       ++ String.concat EmptyString (map (fun r => Spec.row_line r ++ nl) rest) ++ nl.
Proof.
  intros Hrows Hall. unfold convertTableToMarkdown. rewrite Hrows.
  simpl in Hall. apply andb_true_iff in Hall as [Hf Hrest].
  cbn [fold_left]. rewrite (table_row_step_cells _ _ _ Hf), (rows_after_first rest Hrest).
  cbn [fst]. rewrite ?append_assoc. reflexivity.
Qed.

Lemma split_lines_rows (rows : list TableRow) (tail : string) :
  split_lines (String.concat EmptyString (map (fun r => Spec.row_line r ++ nl) rows) ++ tail)
  = (map Spec.row_line rows ++ split_lines tail)%list.
Proof.
  induction rows as [|r rows IH].
  - reflexivity.
  - pose proof (concat_lines_cons Spec.row_line r rows) as E.
    rewrite E, !append_assoc.
    rewrite split_lines_line by apply no_newline_row_line.
    cbn [map app]. now rewrite IH.
Qed.

Lemma concat_cons (x : string) (l : list string) :
  String.concat EmptyString (x :: l) = x ++ String.concat EmptyString l.
Proof.
  destruct l as [|y l]; cbn [String.concat]; [now rewrite append_nil_r | reflexivity].
Qed.

(** The loop over the runs of one paragraph of a cell. *)
Lemma cell_run_loop (pes : list ParagraphElement) (acc : string) :
  fold_left
    (fun cellText pe =>
       match run_content pe with
       | Some (String c s) => cellText ++ trim (replace_newlines (String c s))
       | _ => cellText
       end) pes acc
  = acc ++ Spec.paragraph_text (mkParagraph (Some pes) None None).
Proof.
  unfold Spec.paragraph_text. cbn [elements].
  revert acc. induction pes as [|pe pes IH]; intros acc.
  - simpl. now rewrite append_nil_r.
  - cbn [fold_left map]. rewrite IH, concat_cons.
    destruct (run_content pe) as [[|c s]|]; rewrite ?append_assoc; reflexivity.
Qed.

Lemma paragraph_text_elements (p : Paragraph) :
  Spec.paragraph_text p
  = match elements p with
    | Some pes => Spec.paragraph_text (mkParagraph (Some pes) None None)
    | None => EmptyString
    end.
Proof. unfold Spec.paragraph_text. destruct (elements p); reflexivity. Qed.

(** The loop over the elements of a cell. *)
Lemma cell_element_loop (content : list StructuralElement) (acc : string) :
  fold_left
    (fun cellText element =>
       match paragraph_elements element with
       | Some pes =>
           fold_left
             (fun cellText pe =>
                match run_content pe with
                | Some (String c s) => cellText ++ trim (replace_newlines (String c s))
                | _ => cellText
                end) pes cellText
       | None => cellText
       end) content acc
  = acc ++ String.concat EmptyString
             (map (fun e => match paragraph e with
                            | Some p => Spec.paragraph_text p
                            | None => EmptyString
                            end) content).
Proof.
  revert acc. induction content as [|e content IH]; intros acc.
  - simpl. now rewrite append_nil_r.
  - cbn [fold_left map]. rewrite IH, concat_cons. unfold paragraph_elements.
    destruct (paragraph e) as [p|]; [|reflexivity].
    rewrite (paragraph_text_elements p).
    destruct (elements p) as [pes|]; [|reflexivity].
    now rewrite cell_run_loop, append_assoc.
Qed.

(** The text of a cell reads the [paragraph] member of the elements directly
    inside the cell, and no other member. *)
Lemma cellText_of_paragraphs (content : list StructuralElement) :
  cellText_of (mkTableCell (Some content))
  = String.concat EmptyString
      (map (fun e => match paragraph e with
                     | Some p => Spec.paragraph_text p
                     | None => EmptyString
                     end) content).
Proof.
  unfold cellText_of. cbn [cell_content]. now rewrite cell_element_loop.
Qed.

Lemma cellText_of_renest (g : StructuralElement -> option Table) (c : TableCell) :
  cellText_of (Spec.renest_cell g c) = cellText_of c.
Proof.
  destruct c as [[content|]]; [|reflexivity].
  unfold Spec.renest_cell. cbn [cell_content option_map].
  rewrite !cellText_of_paragraphs, map_map. reflexivity.
Qed.

Lemma rowText_of_renest (g : StructuralElement -> option Table) (cells : list TableCell) :
  rowText_of (map (Spec.renest_cell g) cells) = rowText_of cells.
Proof.
  unfold rowText_of. apply fold_left_map_ext.
  intros acc c. now rewrite cellText_of_renest.
Qed.

Lemma table_row_step_renest (g : StructuralElement -> option Table)
      (st : string * bool) (r : TableRow) :
  table_row_step st (Spec.renest_row g r) = table_row_step st r.
Proof.
  destruct st as [markdown isFirstRow]. destruct r as [[cells|]]; [|reflexivity].
  unfold table_row_step, Spec.renest_row. cbn [tableCells option_map].
  rewrite rowText_of_renest. unfold separator_of. now rewrite length_map.
Qed.

Lemma convertTableToMarkdown_renest (g : StructuralElement -> option Table) (t : Table) :
  convertTableToMarkdown (Spec.renest_table g t) = convertTableToMarkdown t.
Proof.
  destruct t as [[rows|]]; [|reflexivity].
  unfold convertTableToMarkdown, Spec.renest_table. cbn [tableRows option_map].
  destruct rows as [|r rows]; [reflexivity|].
  cbn [map]. f_equal. f_equal.
  change (fold_left table_row_step (map (Spec.renest_row g) (r :: rows)) (nl, true)
          = fold_left table_row_step (r :: rows) (nl, true)).
  apply fold_left_map_ext. intros acc x. apply table_row_step_renest.
Qed.

End RendererFacts.

(* ================================================================== *)
(** ** Claims on the renderer *)

Section RendererClaims.
Import JsString Docs.

(** C7. Inline style markers of a text run compose in one fixed order:
    bold with italic is a single triple marker, bold alone double, italic
    alone single; underline wraps only a run without hyperlink;
    strikethrough wraps next; the hyperlink target, when there is one,
    wraps the decorated text outermost with its URL.  A run without style
    is its text. *)
Theorem C7_inline_styles_compose_in_fixed_precedence :
  forall run : TextRun,
    convertTextRunToMarkdown run
    = match textStyle run with
      | Some style => Spec.styled_run (Spec.text_of run) style
      | None => Spec.text_of run
      end.
Proof.
  intros [c [[b i u s l]|]].
  - unfold convertTextRunToMarkdown, Spec.styled_run, Spec.target_of, link_url, Spec.text_of.
    cbn [content textStyle bold italic underline strikethrough link].
    assert (E : match c with Some (String x y) => String x y | _ => EmptyString end
                = match c with Some s => s | None => EmptyString end)
      by (destruct c as [[|x y]|]; reflexivity).
    rewrite E. generalize (match c with Some s0 => s0 | None => EmptyString end) as t.
    intros t.
    destruct b as [[|]|], i as [[|]|], u as [[|]|], s as [[|]|];
      destruct l as [[[[|x y]|]]|]; reflexivity.
  - destruct c as [[|x y]|]; reflexivity.
Qed.

(** A table without rows renders as the empty string: there is no first
    row to put a separator after. *)
Lemma convertTableToMarkdown_no_rows :
  convertTableToMarkdown (mkTable (Some [])) = EmptyString
  /\ convertTableToMarkdown (mkTable None) = EmptyString.
Proof. split; reflexivity. Qed.

(** C6. A table of N rows, each with at least one cell, renders as N body
    lines and exactly one separator line, and the separator comes right
    after the first row (so there is one: N is at least 1); it is made from
    the number of cells of that row, not from any content.  The lines of
    the output are a blank line, the first row, the separator, the other
    rows in order and two blank lines. *)
Theorem C6_table_body_lines_and_one_separator :
  forall (t : Table) (rows : list TableRow),
    tableRows t = Some rows ->
    rows <> [] ->
    forallb Spec.has_cell rows = true ->
    exists first rest,
      rows = first :: rest
      /\ split_lines (convertTableToMarkdown t)
         = ([EmptyString] ++ [Spec.row_line first] ++ [Spec.separator_line first]
              ++ map Spec.row_line rest ++ [EmptyString; EmptyString])%list
      /\ List.length (split_lines (convertTableToMarkdown t))
         = (1 + (List.length rows + 1) + 2)%nat.
Proof.
  intros t rows Hrows Hne Hall.
  destruct rows as [|first rest]; [congruence|].
  exists first, rest. split; [reflexivity|].
  assert (E : split_lines (convertTableToMarkdown t)
              = ([EmptyString] ++ [Spec.row_line first] ++ [Spec.separator_line first]
                   ++ map Spec.row_line rest ++ [EmptyString; EmptyString])%list).
  { rewrite (convertTableToMarkdown_rows t first rest Hrows Hall).
    rewrite split_lines_nl.
    rewrite split_lines_line by apply no_newline_row_line.
    rewrite split_lines_line by apply no_newline_separator_line.
    rewrite split_lines_rows. reflexivity. }
  split; [exact E|].
  rewrite E. cbn [app List.length]. rewrite length_app, length_map. simpl. lia.
Qed.

(** C10. The text of a table cell is made of the paragraphs directly inside
    the cell; whatever tables are nested in the cells of a snapshot, the
    rendering is the one of the snapshot without them. *)
Theorem C10_nested_tables_do_not_reach_the_output :
  (forall content : list StructuralElement,
      cellText_of (mkTableCell (Some content))
      = String.concat EmptyString
          (map (fun e => match paragraph e with
                         | Some p => Spec.paragraph_text p
                         | None => EmptyString
                         end) content))
  /\ (forall (g : StructuralElement -> option Table) (d : Document),
         convertDocsJsonToMarkdown (Spec.renest g d) = convertDocsJsonToMarkdown d).
Proof.
  split; [exact cellText_of_paragraphs|].
  intros g [[[[content|]]|]]; try reflexivity.
  unfold convertDocsJsonToMarkdown, Spec.renest, body_content_of.
  cbn [body body_content option_map].
  f_equal. apply forEachR_map_ext.
  intros acc [p t s]. cbn [paragraph table sectionBreak].
  destruct p as [p|]; [reflexivity|].
  destruct t as [t|]; cbn [option_map]; [|reflexivity].
  now rewrite convertTableToMarkdown_renest.
Qed.

End RendererClaims.

(* ================================================================== *)
(** ** Claims on the results of [readGoogleDoc]: sentinel and truncation *)

Section ReadClaims.
Import JsString Docs ServerHttp.

(** Without [body] or without [content], the markdown renderer answers with
    its sentinel. *)
Lemma markdown_sentinel_without_content (d : Document) :
  body_content_of d = None ->
  convertDocsJsonToMarkdown d = Ok "Document appears to be empty.".
Proof. intros H. unfold convertDocsJsonToMarkdown. now rewrite H. Qed.

(** The text branch never answers with the empty string. *)
Lemma text_result_nonempty (maxLength : option Z) (textContent : string) :
  nonempty (text_result maxLength textContent) = true.
Proof.
  unfold text_result.
  destruct (nonempty (trim textContent)); cbn [negb]; [|reflexivity].
  destruct (over_limit maxLength (String.length textContent)); reflexivity.
Qed.

(** A paragraph with a named style of the API renders without throwing. *)
Lemma convertParagraphToMarkdown_total (p : Paragraph) :
  Spec.wf_paragraph p = true ->
  exists s, convertParagraphToMarkdown p = Ok s.
Proof.
  unfold Spec.wf_paragraph, convertParagraphToMarkdown.
  destruct (paragraphStyle p) as [[[st|]]|]; cbn [namedStyleType].
  - intros H. unfold Spec.named_styles in H. cbn [existsb] in H.
    repeat (apply orb_true_iff in H; destruct H as [H|H]);
      try discriminate H;
      apply String.eqb_eq in H; subst st;
      cbv [startsWith prefix replace_first parseInt String.eqb Ascii.eqb Bool.eqb
           trimStart is_whitespace nat_of_ascii N_of_ascii N_of_digits
           drop String.length append parse_digits digit_val];
      destruct (is_some (bullet p));
      match goal with
      | |- context [nonempty (trim ?t)] => destruct (nonempty (trim t))
      end; cbn; eexists; reflexivity.
  - intros _. destruct (is_some (bullet p));
      match goal with
      | |- context [nonempty (trim ?t)] => destruct (nonempty (trim t))
      end; cbn; eexists; reflexivity.
  - intros _. destruct (is_some (bullet p));
      match goal with
      | |- context [nonempty (trim ?t)] => destruct (nonempty (trim t))
      end; cbn; eexists; reflexivity.
Qed.

(** The markdown renderer does not throw on a well-formed snapshot. *)
Lemma convertDocsJsonToMarkdown_total (d : Document) :
  Spec.wf_snapshot d = true ->
  exists s, convertDocsJsonToMarkdown d = Ok s.
Proof.
  unfold Spec.wf_snapshot, convertDocsJsonToMarkdown.
  destruct (body_content_of d) as [content|]; [|intros _; eexists; reflexivity].
  intros Hwf.
  assert (H : forall acc, exists s,
               forEachR
                 (fun markdown element =>
                    match paragraph element with
                    | Some p =>
                        bindR (convertParagraphToMarkdown p) (fun s => Ok (markdown ++ s))
                    | None =>
                        match table element with
                        | Some t => Ok (markdown ++ convertTableToMarkdown t)
                        | None =>
                            match sectionBreak element with
                            | Some _ => Ok (markdown ++ nl ++ "---" ++ nl ++ nl)
                            | None => Ok markdown
                            end
                        end
                    end) content acc = Ok s).
  { induction content as [|e content IH]; intros acc.
    - eexists; reflexivity.
    - cbn [forallb] in Hwf. apply andb_true_iff in Hwf as [He Hc].
      cbn [forEachR].
      destruct (paragraph e) as [p|].
      + destruct (convertParagraphToMarkdown_total p He) as [s Hs].
        rewrite Hs. cbn [bindR]. apply (IH Hc).
      + destruct (table e); [cbn [bindR]; apply (IH Hc)|].
        destruct (sectionBreak e); cbn [bindR]; apply (IH Hc). }
  destruct (H EmptyString) as [s Hs]. rewrite Hs. eexists; reflexivity.
Qed.

(** C5 (failing input). On a snapshot whose content is the empty list, and
    on one whose only paragraph is blank, the markdown renderer returns the
    empty string; on the snapshot of a document without text it returns the
    rule of the section break.  The text branch returns its sentinel on the
    three. *)
Theorem C5_markdown_of_empty_content_is_the_empty_string :
  convertDocsJsonToMarkdown Examples.empty_content_doc = Ok EmptyString
  /\ convertDocsJsonToMarkdown Examples.blank_paragraph_doc = Ok EmptyString
  /\ convertDocsJsonToMarkdown Examples.new_document = Ok "---"
  /\ text_result None (collect_textContent Examples.empty_content_doc)
     = "Document found, but appears empty."
  /\ text_result None (collect_textContent Examples.blank_paragraph_doc)
     = "Document found, but appears empty."
  /\ text_result None (collect_textContent Examples.new_document)
     = "Document found, but appears empty.".
Proof. repeat split; vm_compute; reflexivity. Qed.

End ReadClaims.

Section TruncationClaims.
Import JsString Docs ServerHttp.

(** [substring(0, M)] of a string of length L, for M between 0 and L: its
    first M characters, L - M characters being left out. *)
Lemma substring0_split (M : Z) (s : string) :
  (0 <= M <= Z.of_nat (String.length s))%Z ->
  exists elided,
    s = substring0 M s ++ elided
    /\ Z.of_nat (String.length (substring0 M s)) = M
    /\ Z.of_nat (String.length elided) = (Z.of_nat (String.length s) - M)%Z.
Proof.
  intros H. unfold substring0.
  exists (drop (Z.to_nat M) s).
  assert (Hlen : String.length (take (Z.to_nat M) s) = Z.to_nat M)
    by (apply take_length; lia).
  split; [now rewrite take_drop|].
  split; [rewrite Hlen; lia|].
  pose proof (f_equal String.length (take_drop (Z.to_nat M) s)) as E.
  rewrite length_append, Hlen in E. lia.
Qed.

Lemma over_limit_spec (M : Z) (total : nat) :
  over_limit (Some M) total
  = if (M =? 0)%Z || (Z.of_nat total <=? M)%Z then None else Some M.
Proof.
  unfold over_limit.
  destruct (M =? 0)%Z; cbn [negb andb orb]; [reflexivity|].
  destruct (Z.gtb_spec (Z.of_nat total) M), (Z.leb_spec (Z.of_nat total) M);
    try reflexivity; lia.
Qed.

(** C3 (counterexample). [Hello] rendered as markdown with maximum length 2:
    the result reports the limit 2 and the total 5, not the 3 elided
    characters; and in the text branch a maximum length of 9, above the
    length 5, does not give the text back unchanged. *)
Lemma C3_counterexample :
  convertDocsJsonToMarkdown Examples.hello_doc = Ok "Hello"
  /\ collect_textContent Examples.hello_doc = "Hello"
  /\ (exists result,
         readGoogleDoc_try Examples.hello_server (mkReadArgs "doc-1" markdown (Some 2%Z))
         = Ok result
         /\ ~ Spec.truncation_as_specified "Hello" 2 result)
  /\ (exists result,
         readGoogleDoc_try Examples.hello_server (mkReadArgs "doc-1" text (Some 9%Z))
         = Ok result
         /\ ~ Spec.truncation_as_specified "Hello" 9 result).
Proof.
  split; [reflexivity|]. split; [reflexivity|]. split.
  - eexists. split; [vm_compute; reflexivity|].
    intros [Hlt _]. destruct Hlt as (suffix & Heq & Helided & _); [vm_compute; reflexivity|].
    vm_compute in Heq. injection Heq as Heq. subst suffix.
    vm_compute in Helided. discriminate.
  - eexists. split; [vm_compute; reflexivity|].
    intros [_ Hge]. specialize (Hge ltac:(vm_compute; discriminate)).
    vm_compute in Hge. discriminate.
Qed.

(** Below [2^53] a number prints as its decimal digits. *)
Lemma Number_toString_exact (z : Z) :
  (Z.abs z < 2 ^ 53)%Z -> Number_toString z = string_of_Z z.
Proof.
  intros H. unfold Number_toString.
  destruct (Z.ltb_spec (Z.abs z) (2 ^ 53)) as [_|Hge]; [reflexivity | lia].
Qed.

(** C3 (amended). The handler truncates the fully rendered string, as its
    last step.  Markdown, whatever the text of the document: a maximum
    length M that is not 0 and is below the length L gives the first M
    characters and a marker stating M and L; otherwise the rendered string
    unchanged.  Text: a blank text gives the sentinel whatever M; for
    another text the same test gives a header stating M, the first M
    characters and an ellipsis, and otherwise a header stating L and the
    whole text.  M is printed as the platform prints a number, which below
    [2^53] is in decimal digits.  The first M characters of a string of
    length L, for M between 0 and L, leave L - M characters out. *)
Theorem C3_truncation_is_a_final_step_stating_limit_and_total :
  forall (w : World) (id : string) (maxLength : option Z),
    (forall (mdData : Document) (rendered : string),
        documents_get w id "*" = Ok mdData ->
        convertDocsJsonToMarkdown mdData = Ok rendered ->
        let L := Z.of_nat (String.length rendered) in
        readGoogleDoc_try w (mkReadArgs id markdown maxLength)
        = Ok (match maxLength with
              | Some M =>
                  if (M =? 0)%Z || (L <=? M)%Z then rendered
                  else substring0 M rendered ++ nl ++ nl
                         ++ "... [Markdown truncated to " ++ Number_toString M
                         ++ " chars of " ++ string_of_Z L ++ " total.]"
              | None => rendered
              end))
    /\ (forall (txtData : Document),
           documents_get w id "body(content(paragraph(elements(textRun(content)))))"
           = Ok txtData ->
           let textContent := collect_textContent txtData in
           let T := Z.of_nat (String.length textContent) in
           let whole :=
             "Content (" ++ string_of_Z T ++ " characters):" ++ nl ++ "---" ++ nl
               ++ textContent in
           readGoogleDoc_try w (mkReadArgs id text maxLength)
           = Ok (if nonempty (trim textContent)
                 then match maxLength with
                      | Some M =>
                          if (M =? 0)%Z || (T <=? M)%Z then whole
                          else "Content (truncated to " ++ Number_toString M ++ " chars):"
                                 ++ nl ++ "---" ++ nl
                                 ++ substring0 M textContent ++ nl ++ nl ++ "..."
                      | None => whole
                      end
                 else "Document found, but appears empty."))
    /\ (forall M : Z, (Z.abs M < 2 ^ 53)%Z -> Number_toString M = string_of_Z M)
    /\ (forall (s : string) (M : Z),
           (0 <= M <= Z.of_nat (String.length s))%Z ->
           exists elided,
             s = substring0 M s ++ elided
             /\ Z.of_nat (String.length (substring0 M s)) = M
             /\ Z.of_nat (String.length elided) = (Z.of_nat (String.length s) - M)%Z).
Proof.
  intros w id maxLength.
  split; [|split; [|split]].
  - intros mdData rendered Hmd Hrender L.
    unfold readGoogleDoc_try. cbn [format documentId ServerHttp.maxLength].
    rewrite Hmd. cbn [bindR]. rewrite Hrender. cbn [bindR]. f_equal.
    unfold markdown_result. destruct maxLength as [M|]; [|reflexivity].
    subst L. rewrite over_limit_spec.
    destruct ((M =? 0)%Z || (_ <=? M)%Z); reflexivity.
  - intros txtData Htxt textContent T whole.
    unfold readGoogleDoc_try. cbn [format documentId ServerHttp.maxLength].
    rewrite Htxt. cbn [bindR]. f_equal.
    subst whole textContent T. unfold text_result.
    destruct (nonempty (trim (collect_textContent txtData))); cbn [negb]; [|reflexivity].
    destruct maxLength as [M|]; [|reflexivity].
    rewrite over_limit_spec.
    destruct ((M =? 0)%Z || (_ <=? M)%Z); reflexivity.
  - exact Number_toString_exact.
  - intros s M HM. apply substring0_split. exact HM.
Qed.

(** The theorem at [Hello] with maximum length 2, and at the snapshot of a
    document without text, whose markdown is truncated all the same. *)
Lemma C3_witness :
  readGoogleDoc_try Examples.hello_server (mkReadArgs "doc-1" markdown (Some 2%Z))
  = Ok ("He" ++ nl ++ nl ++ "... [Markdown truncated to 2 chars of 5 total.]")
  /\ readGoogleDoc_try Examples.hello_server (mkReadArgs "doc-1" text (Some 2%Z))
     = Ok ("Content (truncated to 2 chars):" ++ nl ++ "---" ++ nl ++ "He" ++ nl ++ nl ++ "...")
  /\ readGoogleDoc_try Examples.blank_server (mkReadArgs "doc-1" markdown (Some 1%Z))
     = Ok ("-" ++ nl ++ nl ++ "... [Markdown truncated to 1 chars of 3 total.]")
  /\ readGoogleDoc_try Examples.blank_server (mkReadArgs "doc-1" text (Some 1%Z))
     = Ok "Document found, but appears empty.".
Proof.
  destruct (C3_truncation_is_a_final_step_stating_limit_and_total
              Examples.hello_server "doc-1" (Some 2%Z)) as (Hmd & Htxt & _).
  destruct (C3_truncation_is_a_final_step_stating_limit_and_total
              Examples.blank_server "doc-1" (Some 1%Z)) as (Hmd' & Htxt' & _).
  split; [exact (Hmd Examples.hello_doc "Hello" eq_refl eq_refl)|].
  split; [exact (Htxt Examples.hello_doc eq_refl)|].
  split; [exact (Hmd' Examples.new_document "---" eq_refl eq_refl)|].
  exact (Htxt' Examples.new_document eq_refl).
Defined.

End TruncationClaims.

(** The theorem C6 at a table of two rows and two columns. *)
Lemma C6_witness :
  JsString.split_lines (Docs.convertTableToMarkdown Examples.table_2x2)
  = [EmptyString; "| a | b |"; "| --- | --- |"; "| c | d |"; EmptyString; EmptyString].
Proof.
  destruct (C6_table_body_lines_and_one_separator
              Examples.table_2x2
              [ Docs.mkTableRow (Some [Examples.cell "a"; Examples.cell "b"]);
                Docs.mkTableRow (Some [Examples.cell "c"; Examples.cell "d"]) ]
              eq_refl ltac:(discriminate) eq_refl)
    as (first & rest & Hrows & Hlines & _).
  injection Hrows as <- <-. rewrite Hlines. reflexivity.
Defined.

(* ================================================================== *)
(** ** Claims on credential resolution *)

Section AuthClaims.
Import Json Auth SpecAuth.

Lemma prompted_app (a b : list Event) : prompted (a ++ b) = prompted a || prompted b.
Proof. unfold prompted. apply existsb_app. Qed.

Lemma quiet_pure {A} (x : Res A) : quiet (fun st => (st, x)).
Proof.
  intros st st' r H. injection H as <- _.
  exists []. now rewrite app_nil_r.
Qed.

Lemma quiet_ret {A} (a : A) : quiet (ret a).
Proof. apply quiet_pure. Qed.

Lemma quiet_throw {A} (e : JsError) : quiet (@throw A e).
Proof. apply quiet_pure. Qed.

Lemma quiet_lift {A} (x : Res A) : quiet (lift x).
Proof. apply quiet_pure. Qed.

(** Two quiet computations in sequence. *)
Lemma quiet_seq (st st1 st2 : St) :
  (exists evs, trace st1 = (trace st ++ evs)%list /\ prompted evs = false) ->
  (exists evs, trace st2 = (trace st1 ++ evs)%list /\ prompted evs = false) ->
  exists evs, trace st2 = (trace st ++ evs)%list /\ prompted evs = false.
Proof.
  intros (e1 & H1 & Q1) (e2 & H2 & Q2). exists (e1 ++ e2)%list.
  split; [now rewrite H2, H1, app_assoc|].
  now rewrite prompted_app, Q1, Q2.
Qed.

Lemma quiet_bind {A B} (m : M A) (k : A -> M B) :
  quiet m -> (forall a, quiet (k a)) -> quiet (bind m k).
Proof.
  intros Hm Hk st st' r H. unfold bind in H.
  destruct (m st) as [st1 [a|e]] eqn:E.
  - exact (quiet_seq st st1 st' (Hm _ _ _ E) (Hk a _ _ _ H)).
  - injection H as <- _. exact (Hm _ _ _ E).
Qed.

Lemma quiet_try_catch {A} (m : M A) (h : JsError -> M A) :
  quiet m -> (forall e, quiet (h e)) -> quiet (try_catch m h).
Proof.
  intros Hm Hh st st' r H. unfold try_catch in H.
  destruct (m st) as [st1 [a|e]] eqn:E.
  - injection H as <- _. exact (Hm _ _ _ E).
  - exact (quiet_seq st st1 st' (Hm _ _ _ E) (Hh e _ _ _ H)).
Qed.

Lemma quiet_emit (ev : Event) : ev <> EvQuestion -> quiet (emit ev).
Proof.
  intros Hev st st' r H. injection H as <- _. cbn [trace].
  exists [ev]. split; [reflexivity|].
  destruct ev; try congruence; reflexivity.
Qed.

Lemma quiet_fs_readFile (w : World) (p : Path) : quiet (fs_readFile w p).
Proof.
  intros st st' r H. unfold fs_readFile in H.
  exists [EvReadFile p].
  destruct (readFile w (reads st) p); injection H as <- _; now split.
Qed.

Lemma quiet_from_files (w : World) : quiet (from_files w).
Proof.
  unfold from_files.
  apply quiet_try_catch; [|intros; apply quiet_ret].
  apply quiet_bind; [apply quiet_fs_readFile|intros credContent].
  apply quiet_bind; [apply quiet_fs_readFile|intros tokenContent].
  apply quiet_bind; [apply quiet_lift|intros credentials].
  apply quiet_bind; [apply quiet_lift|intros token].
  apply quiet_ret.
Qed.

Lemma quiet_loadCredentialsFromEnvOrFile (w : World) :
  quiet (loadCredentialsFromEnvOrFile w).
Proof.
  unfold loadCredentialsFromEnvOrFile.
  destruct (from_env w); [apply quiet_ret | apply quiet_from_files].
Qed.

Lemma quiet_validate (client : OAuth2Client) : quiet (validate client).
Proof.
  unfold validate. destruct (get_prop (credentials client) "access_token").
  - apply quiet_emit. discriminate.
  - apply quiet_ret.
Qed.

Lemma quiet_loadSavedCredentialsIfExist (w : World) :
  quiet (loadSavedCredentialsIfExist w).
Proof.
  unfold loadSavedCredentialsIfExist.
  apply quiet_try_catch; [|intros; apply quiet_ret].
  apply quiet_bind; [apply quiet_loadCredentialsFromEnvOrFile|intros [[credentials token]|]];
    [|apply quiet_ret].
  apply quiet_bind; [apply quiet_lift|intros key].
  destruct (negb (truthy key)); [apply quiet_ret|].
  apply quiet_bind; [apply quiet_lift|intros id].
  apply quiet_bind; [apply quiet_lift|intros secret].
  apply quiet_bind; [apply quiet_lift|intros uris].
  apply quiet_bind; [apply quiet_validate|intros _].
  apply quiet_ret.
Qed.

(** [loadSavedCredentialsIfExist] swallows every failure. *)
Lemma loadSavedCredentialsIfExist_no_throw (w : World) (st : St) :
  exists st' c, loadSavedCredentialsIfExist w st = (st', Ok c).
Proof.
  unfold loadSavedCredentialsIfExist, try_catch.
  match goal with |- context [match ?m st with _ => _ end] => destruct (m st) as [st1 [c|e]] end.
  - now exists st1, c.
  - now exists st1, None.
Qed.

(** [authorize] under an injected app-registration value: the saved
    credentials or the managed-environment error, never [authenticate]. *)
Lemma authorize_managed (w : World) (st : St) :
  truthy_string (env_GOOGLE_CREDENTIALS w) = true ->
  authorize w st
  = match loadSavedCredentialsIfExist w st with
    | (st', Ok (Some client)) => (st', Ok client)
    | (st', _) => (st', Throw no_valid_credentials)
    end.
Proof.
  intros Henv. unfold authorize, bind. rewrite Henv.
  destruct (loadSavedCredentialsIfExist_no_throw w st) as (st' & c & E).
  rewrite E. destruct c; reflexivity.
Qed.

Lemma authorize_managed_quiet (w : World) :
  truthy_string (env_GOOGLE_CREDENTIALS w) = true -> quiet (authorize w).
Proof.
  intros Henv st st' r H. rewrite (authorize_managed w st Henv) in H.
  destruct (loadSavedCredentialsIfExist w st) as [st1 r1] eqn:E.
  pose proof (quiet_loadSavedCredentialsIfExist w _ _ _ E) as Hq.
  destruct r1 as [[c|]|e]; injection H as <- _; exact Hq.
Qed.

(** C8. With the injected credential value present, resolution never
    reaches the interactive prompt: the effects of [authorize] are the ones
    before it and others that hold no prompt; when no saved credentials can
    be loaded it fails with the managed-environment error; and the
    interactive entry point itself refuses to run, without any effect. *)
Theorem C8_no_interactive_authorization_when_managed :
  forall (w : World) (st : St),
    truthy_string (env_GOOGLE_CREDENTIALS w) = true ->
    (exists evs, trace (fst (authorize w st)) = (trace st ++ evs)%list
                 /\ prompted evs = false)
    /\ (forall st', loadSavedCredentialsIfExist w st = (st', Ok None) ->
                    authorize w st = (st', Throw no_valid_credentials))
    /\ authenticate w st
       = (st, Throw (Error "Cannot run interactive authentication in Cloud Run environment.")).
Proof.
  intros w st Henv. split; [|split].
  - destruct (authorize w st) as [st' r] eqn:E.
    exact (authorize_managed_quiet w Henv st st' r E).
  - intros st' E. rewrite (authorize_managed w st Henv), E. reflexivity.
  - unfold authenticate. rewrite Henv. reflexivity.
Qed.

(** The theorem C8 in a managed environment whose token is corrupt and
    whose files are absent. *)
Lemma C8_witness :
  prompted (fst (resolve Examples.corrupt_token_no_files_world)) = false
  /\ snd (resolve Examples.corrupt_token_no_files_world) = Throw no_valid_credentials.
Proof.
  destruct (C8_no_interactive_authorization_when_managed
              Examples.corrupt_token_no_files_world st0 eq_refl)
    as [(evs & Htrace & Hq) [Hfail _]].
  specialize (Hfail (mkSt 1 [EvReadFile CREDENTIALS_PATH]) eq_refl).
  unfold resolve. rewrite Hfail in *. cbn [fst snd trace] in *.
  split; [|reflexivity]. cbn [st0 trace app] in Htrace. now rewrite Htrace.
Defined.

(** Without injected value the prompt is reached: the files appear between
    the load of the saved credentials and the interactive flow. *)
Example interactive_path_is_reachable :
  prompted (fst (resolve Examples.local_world)) = true.
Proof. vm_compute. reflexivity. Qed.

End AuthClaims.

Section FallbackClaims.
Import Json Auth SpecAuth.

(** Injected values of which one does not parse: the first block of the
    loader falls out without a result. *)
Lemma from_env_unparseable (w : World) :
  injected_unparseable w = true -> from_env w = None.
Proof.
  unfold injected_unparseable, injected_both, from_env, parses.
  destruct (truthy_string (env_GOOGLE_CREDENTIALS w) && truthy_string (env_GOOGLE_TOKEN w));
    [|reflexivity].
  destruct (env_GOOGLE_CREDENTIALS w) as [c|], (env_GOOGLE_TOKEN w) as [t|];
    try reflexivity.
  destruct (JSON_parse c), (JSON_parse t); try reflexivity; discriminate.
Qed.

(** What [loadSavedCredentialsIfExist] makes of a pair that was loaded. *)
Lemma loadSaved_of_loaded (w : World) (st st1 st2 : St)
      (credentials token : JSON) (c : OAuth2Client) :
  loadCredentialsFromEnvOrFile w st = (st1, Ok (Some (credentials, token))) ->
  loadSavedCredentialsIfExist w st = (st2, Ok (Some c)) ->
  Auth.credentials c = token
  /\ exists key, client_key credentials = Ok key
                 /\ truthy key = true
                 /\ get_prop key "client_id" = Ok (client_id c)
                 /\ get_prop key "client_secret" = Ok (client_secret c).
Proof.
  intros Hload. unfold loadSavedCredentialsIfExist, try_catch, bind.
  rewrite Hload. unfold lift at 1.
  destruct (client_key credentials) as [key|e]; [|discriminate].
  destruct (truthy key) eqn:Hkey; cbn [negb]; [|discriminate].
  unfold lift.
  destruct (get_prop key "client_id") as [id|] eqn:Hid; [|discriminate].
  destruct (get_prop key "client_secret") as [secret|] eqn:Hsecret; [|discriminate].
  destruct (get_prop key "redirect_uris") as [uris|]; [|discriminate].
  unfold validate. cbn [Auth.credentials].
  destruct (get_prop token "access_token"); unfold emit, ret;
    intros H; injection H as _ <-; cbn [Auth.credentials client_id client_secret];
    (split; [reflexivity | exists key; repeat split; assumption || reflexivity]).
Qed.

(** C1 (counterexample). Both values are injected and the token does not
    parse, yet resolution succeeds: it reads the two local files and builds
    the handle from their contents. *)
Lemma C1_counterexample :
  injected_unparseable Examples.corrupt_token_world = true
  /\ resolve Examples.corrupt_token_world
     = ([EvReadFile CREDENTIALS_PATH; EvReadFile TOKEN_PATH; EvGetTokenInfo (JStr "at-2")],
        Ok (mkOAuth2Client (JStr "id-2") (JStr "s-2") (JStr "urn:ietf:wg:oauth:2.0:oob")
              (JObj [("access_token", JStr "at-2"); ("refresh_token", JStr "rt-2")])))
  /\ ~ (exists e, snd (resolve Examples.corrupt_token_world) = Throw e).
Proof.
  split; [vm_compute; reflexivity|].
  assert (E : resolve Examples.corrupt_token_world
              = ([EvReadFile CREDENTIALS_PATH; EvReadFile TOKEN_PATH;
                  EvGetTokenInfo (JStr "at-2")],
                 Ok (mkOAuth2Client (JStr "id-2") (JStr "s-2")
                       (JStr "urn:ietf:wg:oauth:2.0:oob")
                       (JObj [("access_token", JStr "at-2");
                              ("refresh_token", JStr "rt-2")]))))
    by (vm_compute; reflexivity).
  split; [exact E|].
  rewrite E. intros [e He]. discriminate He.
Qed.

(** A truthy value has properties to read. *)
Lemma get_prop_truthy (v : JSON) (k : string) :
  truthy v = true -> exists x, get_prop v k = Ok x.
Proof. destruct v; try discriminate; intros _; eexists; reflexivity. Qed.

(** A pair that was loaded and holds a client key gives a handle, made of
    the key and the token. *)
Lemma loadSaved_with_key (w : World) (st st1 : St) (credentials token key : JSON) :
  loadCredentialsFromEnvOrFile w st = (st1, Ok (Some (credentials, token))) ->
  usable_key credentials = Some key ->
  exists st2 c,
    loadSavedCredentialsIfExist w st = (st2, Ok (Some c))
    /\ Auth.credentials c = token
    /\ get_prop key "client_id" = Ok (client_id c)
    /\ get_prop key "client_secret" = Ok (client_secret c).
Proof.
  intros Hload Hkey. unfold usable_key in Hkey.
  destruct (client_key credentials) as [key'|] eqn:Ekey; [|discriminate Hkey].
  destruct (truthy key') eqn:Htruthy; [|discriminate Hkey].
  injection Hkey as ->.
  destruct (get_prop_truthy key "client_id" Htruthy) as [id Hid].
  destruct (get_prop_truthy key "client_secret" Htruthy) as [secret Hsecret].
  destruct (get_prop_truthy key "redirect_uris" Htruthy) as [uris Huris].
  unfold loadSavedCredentialsIfExist, try_catch, bind.
  rewrite Hload. unfold lift at 1. rewrite Ekey, Htruthy. cbn [negb].
  unfold lift. rewrite Hid, Hsecret, Huris.
  unfold validate. cbn [Auth.credentials].
  destruct (get_prop token "access_token"); unfold emit, ret;
    eexists; eexists; (split; [reflexivity|]);
    cbn [Auth.credentials client_id client_secret]; repeat split.
Qed.

(** A pair that was loaded and holds no client key gives no handle. *)
Lemma loadSaved_without_key (w : World) (st st1 : St) (credentials token : JSON) :
  loadCredentialsFromEnvOrFile w st = (st1, Ok (Some (credentials, token))) ->
  usable_key credentials = None ->
  loadSavedCredentialsIfExist w st = (st1, Ok None).
Proof.
  intros Hload Hkey. unfold usable_key in Hkey.
  unfold loadSavedCredentialsIfExist, try_catch, bind.
  rewrite Hload. unfold lift at 1.
  destruct (client_key credentials) as [key|]; [|reflexivity].
  destruct (truthy key); [discriminate Hkey | reflexivity].
Qed.

(** C1 (amended). With both values injected and one of them unparseable
    the loader falls back to the local files, and resolution never enters
    interactive authorization.  It fails with the managed-environment error
    when the files cannot be read or parsed, and also when they parse but
    the app-registration config holds no client key; when it holds one,
    resolution returns a handle that carries the token and the client of
    the files. *)
Theorem C1_unparseable_injected_values_fall_back_to_files :
  forall (w : World) (st : St),
    injected_unparseable w = true ->
    loadCredentialsFromEnvOrFile w st = from_files w st
    /\ authorize w st
       = match loadSavedCredentialsIfExist w st with
         | (st', Ok (Some client)) => (st', Ok client)
         | (st', _) => (st', Throw no_valid_credentials)
         end
    /\ (forall st', from_files w st = (st', Ok None) ->
                    authorize w st = (st', Throw no_valid_credentials))
    /\ (forall st1 credentials token,
           from_files w st = (st1, Ok (Some (credentials, token))) ->
           match usable_key credentials with
           | Some key =>
               exists st2 c,
                 authorize w st = (st2, Ok c)
                 /\ Auth.credentials c = token
                 /\ get_prop key "client_id" = Ok (client_id c)
                 /\ get_prop key "client_secret" = Ok (client_secret c)
           | None => authorize w st = (st1, Throw no_valid_credentials)
           end)
    /\ (exists evs, trace (fst (authorize w st)) = (trace st ++ evs)%list
                    /\ prompted evs = false).
Proof.
  intros w st Hbad.
  assert (Henv : truthy_string (env_GOOGLE_CREDENTIALS w) = true).
  { unfold injected_unparseable, injected_both in Hbad.
    destruct (truthy_string (env_GOOGLE_CREDENTIALS w)); [reflexivity | discriminate]. }
  assert (Hload : loadCredentialsFromEnvOrFile w st = from_files w st).
  { unfold loadCredentialsFromEnvOrFile. now rewrite (from_env_unparseable w Hbad). }
  split; [exact Hload|]. split; [exact (authorize_managed w st Henv)|].
  split; [|split].
  - intros st' Hfiles. rewrite (authorize_managed w st Henv).
    unfold loadSavedCredentialsIfExist, try_catch, bind.
    rewrite Hload, Hfiles. reflexivity.
  - intros st1 credentials token Hfiles.
    rewrite <- Hload in Hfiles.
    destruct (usable_key credentials) as [key|] eqn:Ekey.
    + destruct (loadSaved_with_key w st st1 credentials token key Hfiles Ekey)
        as (st2 & c & Hsaved & Htok & Hid & Hsecret).
      exists st2, c. rewrite (authorize_managed w st Henv), Hsaved.
      repeat split; assumption.
    + rewrite (authorize_managed w st Henv).
      now rewrite (loadSaved_without_key w st st1 credentials token Hfiles Ekey).
  - destruct (authorize w st) as [st' r] eqn:E.
    exact (authorize_managed_quiet w Henv st st' r E).
Qed.

End FallbackClaims.

Lemma C1_witness :
  Auth.loadCredentialsFromEnvOrFile Examples.corrupt_token_world Auth.st0
  = Auth.from_files Examples.corrupt_token_world Auth.st0
  /\ Auth.authorize Examples.corrupt_token_no_files_world Auth.st0
     = (Auth.mkSt 1 [Auth.EvReadFile Auth.CREDENTIALS_PATH],
        Throw SpecAuth.no_valid_credentials)
  /\ Auth.authorize Examples.corrupt_token_keyless_world Auth.st0
     = (Auth.mkSt 2 [Auth.EvReadFile Auth.CREDENTIALS_PATH;
                     Auth.EvReadFile Auth.TOKEN_PATH],
        Throw SpecAuth.no_valid_credentials)
  /\ exists st2 c,
       Auth.authorize Examples.corrupt_token_world Auth.st0 = (st2, Ok c)
       /\ Auth.credentials c
          = Json.JObj [("access_token", Json.JStr "at-2");
                       ("refresh_token", Json.JStr "rt-2")]
       /\ Auth.client_id c = Json.JStr "id-2".
Proof.
  destruct (C1_unparseable_injected_values_fall_back_to_files
              Examples.corrupt_token_world Auth.st0 eq_refl)
    as (Hload & _ & _ & Hfiles & _).
  destruct (C1_unparseable_injected_values_fall_back_to_files
              Examples.corrupt_token_no_files_world Auth.st0 eq_refl)
    as (_ & _ & Hfail & _).
  destruct (C1_unparseable_injected_values_fall_back_to_files
              Examples.corrupt_token_keyless_world Auth.st0 eq_refl)
    as (_ & _ & _ & Hkeyless & _).
  split; [exact Hload|].
  split; [exact (Hfail (Auth.mkSt 1 [Auth.EvReadFile Auth.CREDENTIALS_PATH]) eq_refl)|].
  split.
  - exact (Hkeyless (Auth.mkSt 2 [Auth.EvReadFile Auth.CREDENTIALS_PATH;
                                  Auth.EvReadFile Auth.TOKEN_PATH])
                    (Json.JObj [])
                    (Json.JObj [("access_token", Json.JStr "at-2");
                                ("refresh_token", Json.JStr "rt-2")])
                    eq_refl).
  - destruct (Hfiles (Auth.mkSt 2 [Auth.EvReadFile Auth.CREDENTIALS_PATH;
                                   Auth.EvReadFile Auth.TOKEN_PATH])
                     (Json.JObj [("installed",
                                  Json.JObj [("client_id", Json.JStr "id-2");
                                             ("client_secret", Json.JStr "s-2")])])
                     (Json.JObj [("access_token", Json.JStr "at-2");
                                 ("refresh_token", Json.JStr "rt-2")])
                     eq_refl)
      as (st2 & c & Hauth & Htok & Hid & _).
    exists st2, c. split; [exact Hauth|]. split; [exact Htok|].
    cbn in Hid. now injection Hid as <-.
Defined.

(* ================================================================== *)
(** ** Claims on the cached handle *)

Section CacheClaims.
Import Auth Google SpecCache.

(** The streaming server's initialization, by cases on the module state. *)
Lemma http_initialize_cases (w : ServerHttp.World) (p : Proc) :
  ServerHttp.initializeGoogleClient w p
  = match googleDocs (clients p), googleDrive (clients p) with
    | Some _, Some _ => (p, Ok (clients p))
    | d, v =>
        match authClient (clients p) with
        | None =>
            match authorize (ServerHttp.auth_world w) (io p) with
            | (st', Ok client) => (mkProc (clients_of client) st', Ok (clients_of client))
            | (st', Throw _) => (mkProc no_clients st', Throw initialization_failed)
            end
        | Some a =>
            let c := mkClients (Some a)
                       (Some (match d with Some x => x | None => Google.docs a end))
                       (Some (match v with Some x => x | None => Google.drive a end)) in
            (mkProc c (io p), Ok c)
        end
    end.
Proof.
  destruct p as [[a d v] st].
  unfold ServerHttp.initializeGoogleClient, bindP, getClients, try_catchP, callAuth,
    setClients, retP, throwP.
  cbn [clients io authClient googleDocs googleDrive].
  destruct d as [d|], v as [v|], a as [a|];
    cbn [clients io authClient googleDocs googleDrive]; try reflexivity;
    destruct (authorize (ServerHttp.auth_world w) st) as [st' [client|e]]; reflexivity.
Qed.

(** The REST facade's initialization, by cases on the module state. *)
Lemma rest_initialize_cases (w : RestApi.World) (p : Proc) :
  RestApi.initializeGoogleClient w p
  = if ready (clients p) then (p, Ok (clients p))
    else match authorize (RestApi.auth_world w) (io p) with
         | (st', Ok client) => (mkProc (clients_of client) st', Ok (clients_of client))
         | (st', Throw e) => (mkProc (clients p) st', Throw e)
         end.
Proof.
  destruct p as [[a d v] st].
  unfold RestApi.initializeGoogleClient, bindP, getClients, try_catchP, callAuth,
    setClients, retP, throwP, ready.
  cbn [clients io authClient googleDocs googleDrive is_some].
  destruct d as [d|], v as [v|];
    cbn [clients io authClient googleDocs googleDrive andb]; try reflexivity;
    destruct (authorize (RestApi.auth_world w) st) as [st' [client|e]]; reflexivity.
Qed.

(** Once the clients are set, a call returns them and leaves the process
    as it is, whatever the outside. *)
Lemma http_ready_is_cached (w : ServerHttp.World) (p : Proc) :
  ready (clients p) = true ->
  ServerHttp.initializeGoogleClient w p = (p, Ok (clients p)).
Proof.
  intros H. rewrite http_initialize_cases. unfold ready in H.
  destruct (googleDocs (clients p)), (googleDrive (clients p)); try discriminate.
  reflexivity.
Qed.

Lemma rest_ready_is_cached (w : RestApi.World) (p : Proc) :
  ready (clients p) = true ->
  RestApi.initializeGoogleClient w p = (p, Ok (clients p)).
Proof. intros H. rewrite rest_initialize_cases. now rewrite H. Qed.

Lemma http_success_is_ready (w : ServerHttp.World) (p p' : Proc) (c : Clients) :
  ServerHttp.initializeGoogleClient w p = (p', Ok c) ->
  clients p' = c /\ ready c = true.
Proof.
  rewrite http_initialize_cases.
  assert (Hauth :
            match authClient (clients p) with
            | None =>
                match authorize (ServerHttp.auth_world w) (io p) with
                | (st', Ok client) => (mkProc (clients_of client) st', Ok (clients_of client))
                | (st', Throw _) => (mkProc no_clients st', Throw initialization_failed)
                end
            | Some a =>
                let c := mkClients (Some a)
                           (Some (match googleDocs (clients p) with
                                  | Some x => x | None => Google.docs a end))
                           (Some (match googleDrive (clients p) with
                                  | Some x => x | None => Google.drive a end)) in
                (mkProc c (io p), Ok c)
            end = (p', Ok c) -> clients p' = c /\ ready c = true).
  { destruct (authClient (clients p)) as [a|].
    - intros H. injection H as <- <-. now split.
    - destruct (authorize (ServerHttp.auth_world w) (io p)) as [st' [client|e]];
        intros H; [|discriminate H]. injection H as <- <-. now split. }
  destruct (googleDocs (clients p)) as [d|] eqn:Ed,
           (googleDrive (clients p)) as [v|] eqn:Ev; try exact Hauth.
  intros H. injection H as <- <-. split; [reflexivity|].
  unfold ready. now rewrite Ed, Ev.
Qed.

Lemma rest_success_is_ready (w : RestApi.World) (p p' : Proc) (c : Clients) :
  RestApi.initializeGoogleClient w p = (p', Ok c) ->
  clients p' = c /\ ready c = true.
Proof.
  rewrite rest_initialize_cases.
  destruct (ready (clients p)) eqn:E.
  - intros H. injection H as <- <-. now split.
  - destruct (authorize (RestApi.auth_world w) (io p)) as [st' [client|e]];
      intros H; try discriminate H. injection H as <- <-. now split.
Qed.

Lemma http_calls_ready (ws : list ServerHttp.World) (p : Proc) :
  ready (clients p) = true ->
  http_calls ws p = (p, map (fun _ => Ok (clients p)) ws).
Proof.
  intros H. induction ws as [|w ws IH]; [reflexivity|].
  cbn [http_calls map]. now rewrite (http_ready_is_cached w p H), IH.
Qed.

Lemma rest_calls_ready (ws : list RestApi.World) (p : Proc) :
  ready (clients p) = true ->
  rest_calls ws p = (p, map (fun _ => Ok (clients p)) ws).
Proof.
  intros H. induction ws as [|w ws IH]; [reflexivity|].
  cbn [rest_calls map]. now rewrite (rest_ready_is_cached w p H), IH.
Qed.

(** Between two requests the REST facade holds no client or all of them. *)
Lemma rest_reachable_clients (p : Proc) :
  rest_reachable p -> clients p = no_clients \/ ready (clients p) = true.
Proof.
  assert (Hinit : forall w q,
             (clients q = no_clients \/ ready (clients q) = true) ->
             clients (fst (RestApi.initializeGoogleClient w q)) = no_clients
             \/ ready (clients (fst (RestApi.initializeGoogleClient w q))) = true).
  { intros w q Hq. rewrite rest_initialize_cases.
    destruct (ready (clients q)) eqn:E; [now right|].
    destruct (authorize (RestApi.auth_world w) (io q)) as [st' [client|e]]; cbn.
    - now right.
    - destruct Hq as [Hq|Hq]; [now left | congruence]. }
  induction 1 as [|w p Hp IH|w handler body p Hp IH|w body p Hp IH].
  - now left.
  - now apply Hinit.
  - unfold RestApi.docs_route.
    specialize (Hinit w p IH).
    destruct (RestApi.initializeGoogleClient w p) as [p' [c|e]]; cbn [fst] in *.
    + destruct (handler body); exact Hinit.
    + exact Hinit.
  - unfold RestApi.dispatch.
    specialize (Hinit w p IH).
    destruct (Json.get_prop body "toolName") as [toolName|]; [|exact IH].
    destruct (Json.get_prop body "arguments") as [toolArgs|]; [|exact IH].
    destruct (negb (Json.truthy toolName)); [exact IH|].
    destruct (RestApi.str w toolName) as [key|]; [|exact IH].
    destruct (RestApi.tools_get key) as [t| |]; [| |exact IH];
      destruct (RestApi.initializeGoogleClient w p) as [p' [c|e]]; cbn [fst] in *;
      try exact Hinit.
    destruct (RestApi.execute w t (Json.or_else toolArgs (Json.JObj []))); exact Hinit.
Qed.

(** C9. The handle is cached for the process.  In both servers, after a
    call of the initialization that succeeded, every later call returns the
    same clients and leaves the process untouched, whatever the outside
    would answer: credentials are not resolved again.  After a call that
    failed no client is held, and the next call resolves from scratch. *)
Theorem C9_handle_cached_after_success_and_retried_after_failure :
  (forall (w : ServerHttp.World) (p p' : Proc) (c : Clients),
      ServerHttp.initializeGoogleClient w p = (p', Ok c) ->
      forall ws, http_calls ws p' = (p', map (fun _ => Ok c) ws))
  /\ (forall (w : ServerHttp.World) (p p' : Proc) (e : JsError),
         ServerHttp.initializeGoogleClient w p = (p', Throw e) ->
         clients p' = no_clients
         /\ forall w2,
             ServerHttp.initializeGoogleClient w2 p'
             = match authorize (ServerHttp.auth_world w2) (io p') with
               | (st', Ok client) =>
                   (mkProc (clients_of client) st', Ok (clients_of client))
               | (st', Throw _) => (mkProc no_clients st', Throw initialization_failed)
               end)
  /\ (forall (w : RestApi.World) (p p' : Proc) (c : Clients),
         RestApi.initializeGoogleClient w p = (p', Ok c) ->
         forall ws, rest_calls ws p' = (p', map (fun _ => Ok c) ws))
  /\ (forall (w : RestApi.World) (p p' : Proc) (e : JsError),
         rest_reachable p ->
         RestApi.initializeGoogleClient w p = (p', Throw e) ->
         clients p' = no_clients
         /\ forall w2,
             RestApi.initializeGoogleClient w2 p'
             = match authorize (RestApi.auth_world w2) (io p') with
               | (st', Ok client) =>
                   (mkProc (clients_of client) st', Ok (clients_of client))
               | (st', Throw e2) => (mkProc no_clients st', Throw e2)
               end).
Proof.
  split; [|split; [|split]].
  - intros w p p' c H ws.
    destruct (http_success_is_ready w p p' c H) as [Hc Hr]. subst c.
    now apply http_calls_ready.
  - intros w p p' e H.
    assert (Hclear : clients p' = no_clients).
    { rewrite http_initialize_cases in H.
      destruct (googleDocs (clients p)), (googleDrive (clients p));
        try discriminate H;
        (destruct (authClient (clients p)); [discriminate H|]);
        destruct (authorize (ServerHttp.auth_world w) (io p)) as [st' [client|e']];
        try discriminate H; injection H as <- _; reflexivity. }
    split; [exact Hclear|].
    intros w2. rewrite http_initialize_cases, Hclear. reflexivity.
  - intros w p p' c H ws.
    destruct (rest_success_is_ready w p p' c H) as [Hc Hr]. subst c.
    now apply rest_calls_ready.
  - intros w p p' e Hreach H.
    assert (Hclear : clients p' = no_clients).
    { rewrite rest_initialize_cases in H.
      destruct (ready (clients p)) eqn:E; [discriminate H|].
      destruct (authorize (RestApi.auth_world w) (io p)) as [st' [client|e']];
        try discriminate H. injection H as <- _. cbn [clients].
      destruct (rest_reachable_clients p Hreach) as [Hp|Hp]; [exact Hp | congruence]. }
    split; [exact Hclear|].
    intros w2. rewrite rest_initialize_cases, Hclear. cbn [ready no_clients googleDocs is_some andb].
    destruct (authorize (RestApi.auth_world w2) (io p')) as [st' [client|e2]]; reflexivity.
Qed.

End CacheClaims.

(** The theorem C9 at the streaming server and at the REST facade: a
    resolution that succeeded, then two calls in front of an outside where
    it would fail; and a resolution that failed. *)
Lemma C9_witness :
  (exists p' c,
      ServerHttp.initializeGoogleClient Examples.hello_server Google.proc0 = (p', Ok c)
      /\ SpecCache.http_calls [Examples.unresolved_server; Examples.unresolved_server] p'
         = (p', [Ok c; Ok c]))
  /\ (exists p' e,
         ServerHttp.initializeGoogleClient Examples.unresolved_server Google.proc0
         = (p', Throw e)
         /\ Google.clients p' = Google.no_clients)
  /\ (exists p' c,
         RestApi.initializeGoogleClient Examples.quiet_upstream Google.proc0 = (p', Ok c)
         /\ SpecCache.rest_calls [Examples.unresolved_rest] p' = (p', [Ok c]))
  /\ (exists p' e,
         RestApi.initializeGoogleClient Examples.unresolved_rest Google.proc0
         = (p', Throw e)
         /\ Google.clients p' = Google.no_clients).
Proof.
  destruct C9_handle_cached_after_success_and_retried_after_failure
    as (Hhttp_ok & Hhttp_fail & Hrest_ok & Hrest_fail).
  split; [|split; [|split]].
  - destruct (ServerHttp.initializeGoogleClient Examples.hello_server Google.proc0)
      as [p' [c|e]] eqn:E; [|vm_compute in E; discriminate E].
    exists p', c. split; [reflexivity|].
    exact (Hhttp_ok _ _ _ _ E [Examples.unresolved_server; Examples.unresolved_server]).
  - destruct (ServerHttp.initializeGoogleClient Examples.unresolved_server Google.proc0)
      as [p' [c|e]] eqn:E; [vm_compute in E; discriminate E|].
    exists p', e. split; [reflexivity|].
    exact (proj1 (Hhttp_fail _ _ _ _ E)).
  - destruct (RestApi.initializeGoogleClient Examples.quiet_upstream Google.proc0)
      as [p' [c|e]] eqn:E; [|vm_compute in E; discriminate E].
    exists p', c. split; [reflexivity|].
    exact (Hrest_ok _ _ _ _ E [Examples.unresolved_rest]).
  - destruct (RestApi.initializeGoogleClient Examples.unresolved_rest Google.proc0)
      as [p' [c|e]] eqn:E; [vm_compute in E; discriminate E|].
    exists p', e. split; [reflexivity|].
    exact (proj1 (Hrest_fail _ _ _ _ SpecCache.reach_start E)).
Defined.

(* ================================================================== *)
(** ** Claims on dispatch *)

Section DispatchClaims.
Import JsString Json Auth Google SpecCache SpecDispatch.

(** The streaming server's initialization ends with all clients set or
    with its own error. *)
Lemma http_initialize_outcome (w : ServerHttp.World) (p : Proc) :
  (exists p' c, ServerHttp.initializeGoogleClient w p = (p', Ok c)
                /\ exists d, googleDocs c = Some d)
  \/ (exists p', ServerHttp.initializeGoogleClient w p = (p', Throw initialization_failed)).
Proof.
  rewrite http_initialize_cases.
  destruct (googleDocs (clients p)) as [d|] eqn:Ed, (googleDrive (clients p)) as [v|];
    try (left; do 2 eexists; split; [reflexivity | now exists d]);
    (destruct (authClient (clients p)) as [a|];
     [ left; do 2 eexists; split; [reflexivity | eexists; reflexivity]
     | destruct (authorize (ServerHttp.auth_world w) (io p)) as [st' [client|e]];
       [ left; do 2 eexists; split; [reflexivity | eexists; reflexivity]
       | right; eexists; reflexivity ] ]).
Qed.

(** What leaves [readGoogleDoc] of the streaming server. *)
Lemma http_readGoogleDoc_outcome (w : ServerHttp.World) (args : ServerHttp.ReadArgs)
      (p : Proc) :
  exists p',
    (ServerHttp.initializeGoogleClient w p = (p', Throw initialization_failed)
     /\ ServerHttp.readGoogleDoc w args p = (p', Throw initialization_failed))
    \/ ((exists c, ServerHttp.initializeGoogleClient w p = (p', Ok c))
        /\ ServerHttp.readGoogleDoc w args p
           = (p', match ServerHttp.readGoogleDoc_try w args with
                  | Ok s => Ok s
                  | Throw u => Throw (ServerHttp.readGoogleDoc_catch args u)
                  end)).
Proof.
  unfold ServerHttp.readGoogleDoc, ServerHttp.getDocsClient, bindP.
  destruct (http_initialize_outcome w p) as [(p' & c & E & d & Hd)|(p' & E)];
    exists p'; rewrite E.
  - right. split; [now exists c|]. rewrite Hd. unfold retP, throwP.
    destruct (ServerHttp.readGoogleDoc_try w args); reflexivity.
  - left. split; reflexivity.
Qed.






(** A call of a registered tool, once the clients are there. *)
Lemma rest_dispatch_registered (w : RestApi.World) (body toolName toolArgs : JSON)
      (key : string) (t : RestApi.ToolName) (p p' : Proc) (c : Clients) :
  get_prop body "toolName" = Ok toolName ->
  get_prop body "arguments" = Ok toolArgs ->
  truthy toolName = true ->
  RestApi.str w toolName = Ok key ->
  RestApi.tools_get key = RestApi.Registered t ->
  RestApi.initializeGoogleClient w p = (p', Ok c) ->
  RestApi.dispatch w body p
  = (p', match RestApi.execute w t (or_else toolArgs (JObj [])) with
         | Ok result => RestApi.Responded (RestApi.mkResponse 200 (RestApi.SuccessBody result))
         | Throw error => RestApi.respond_500 error true
         end).
Proof.
  intros Hname Hargs Htruthy Hkey Htool Hinit. unfold RestApi.dispatch.
  rewrite Hname, Hargs, Htruthy, Hkey, Htool, Hinit. cbn [negb].
  destruct (RestApi.execute w t (or_else toolArgs (JObj []))); reflexivity.
Qed.

(** The arguments a tool receives are never [null] or [undefined]. *)
Lemma get_prop_or_else (toolArgs : JSON) (k : string) :
  exists v, get_prop (or_else toolArgs (JObj [])) k = Ok v.
Proof.
  unfold or_else. destruct (truthy toolArgs) eqn:E; [|eexists; reflexivity].
  destruct toolArgs; try discriminate E; eexists; reflexivity.
Qed.

(** [createDocument] without a truthy title. *)
Lemma createDocument_without_title (w : RestApi.World) (toolArgs : JSON) :
  truthy (title_of toolArgs) = false ->
  RestApi.createDocument w (or_else toolArgs (JObj []))
  = Throw (Error "Failed to create document: title is required").
Proof.
  unfold title_of, RestApi.createDocument.
  destruct (get_prop_or_else toolArgs "title") as [t ->].
  intros Ht. cbn [bindR]. rewrite Ht. reflexivity.
Qed.

(** C2 (counterexample). [searchGoogleDocs] called without its
    [searchQuery]: the dispatcher answers with a success, having searched for
    the text [undefined]. *)
Lemma C2_counterexample :
  get_prop (JObj []) "searchQuery" = Ok JUndefined
  /\ snd (RestApi.dispatch Examples.quiet_upstream
            (call_body "searchGoogleDocs" (JObj [])) proc0)
     = RestApi.Responded
         (RestApi.mkResponse 200
            (RestApi.SuccessBody ("Search results for " ++ dq ++ "undefined" ++ dq ++ ":" ++ nl ++ nl))).
Proof. split; vm_compute; reflexivity. Qed.

(** C2 (amended). [createDocument] called with arguments that hold no
    truthy [title], once the clients are initialized: the dispatcher
    answers with status 500 and a failure whose message names the field,
    whatever the upstream API would do. *)
Theorem C2_createDocument_without_title_is_refused :
  forall (w : RestApi.World) (body toolArgs : JSON) (p p' : Proc) (c : Clients),
    get_prop body "toolName" = Ok (JStr "createDocument") ->
    get_prop body "arguments" = Ok toolArgs ->
    truthy (title_of toolArgs) = false ->
    RestApi.initializeGoogleClient w p = (p', Ok c) ->
    RestApi.dispatch w body p
    = (p', RestApi.Responded
             (RestApi.mkResponse 500
                (RestApi.FailureBody
                   (Some "Failed to create document: title is required") true)))
    /\ includes "title" "Failed to create document: title is required" = true.
Proof.
  intros w body toolArgs p p' c Hname Hargs Htitle Hinit.
  split; [|reflexivity].
  rewrite (rest_dispatch_registered w body (JStr "createDocument") toolArgs
             "createDocument" RestApi.createDocument_tool p p' c
             Hname Hargs eq_refl eq_refl eq_refl Hinit).
  cbn [RestApi.execute]. now rewrite (createDocument_without_title w toolArgs Htitle).
Qed.

(** The theorem C2 at a call of [createDocument] with empty arguments. *)
Lemma C2_witness :
  snd (RestApi.dispatch Examples.quiet_upstream (call_body "createDocument" (JObj [])) proc0)
  = RestApi.Responded
      (RestApi.mkResponse 500
         (RestApi.FailureBody (Some "Failed to create document: title is required") true)).
Proof.
  destruct (RestApi.initializeGoogleClient Examples.quiet_upstream proc0) as [p' [c|e]] eqn:E;
    [|vm_compute in E; discriminate E].
  destruct (C2_createDocument_without_title_is_refused
              Examples.quiet_upstream (call_body "createDocument" (JObj [])) (JObj [])
              proc0 p' c eq_refl eq_refl eq_refl E) as [H _].
  now rewrite H.
Defined.

End DispatchClaims.

Section ClassificationClaims.
Import JsString Json Auth Google SpecCache SpecDispatch.





End ClassificationClaims.

(* ================================================================== *)
(** ** The effects of credential resolution *)

Section AuthEffects.
Import Json Auth SpecAuth SpecEffects.

Lemma n_reads_app (a b : list Event) : n_reads (a ++ b) = (n_reads a + n_reads b)%nat.
Proof. unfold n_reads. now rewrite filter_app, length_app. Qed.

Lemma effects_pure {A} (Q : list Event -> Prop) (x : Res A) :
  Q [] -> effects Q (fun st => (st, x)).
Proof.
  intros HQ st st' r H. injection H as <- _. exists [].
  now rewrite app_nil_r, Nat.add_0_r.
Qed.

Lemma effects_weaken {A} (Q Q' : list Event -> Prop) (m : M A) :
  (forall evs, Q evs -> Q' evs) -> effects Q m -> effects Q' m.
Proof.
  intros HQ Hm st st' r H. destruct (Hm st st' r H) as (evs & Ht & Hr & Hq).
  exists evs. auto.
Qed.

(** The effects of two steps, one after the other. *)
Lemma effects_seq (Q1 Q2 : list Event -> Prop) (st st1 st2 : St) :
  (exists evs, trace st1 = (trace st ++ evs)%list
               /\ reads st1 = (reads st + n_reads evs)%nat /\ Q1 evs) ->
  (exists evs, trace st2 = (trace st1 ++ evs)%list
               /\ reads st2 = (reads st1 + n_reads evs)%nat /\ Q2 evs) ->
  exists evs, trace st2 = (trace st ++ evs)%list
              /\ reads st2 = (reads st + n_reads evs)%nat /\ then_ Q1 Q2 evs.
Proof.
  intros (e1 & T1 & R1 & H1) (e2 & T2 & R2 & H2). exists (e1 ++ e2)%list.
  split; [now rewrite T2, T1, app_assoc|].
  split; [rewrite R2, R1, n_reads_app; lia|].
  now exists e1, e2.
Qed.

Lemma effects_stop (Q1 Q2 : list Event -> Prop) (st st1 : St) :
  Q2 [] ->
  (exists evs, trace st1 = (trace st ++ evs)%list
               /\ reads st1 = (reads st + n_reads evs)%nat /\ Q1 evs) ->
  exists evs, trace st1 = (trace st ++ evs)%list
              /\ reads st1 = (reads st + n_reads evs)%nat /\ then_ Q1 Q2 evs.
Proof.
  intros H2 (e1 & T1 & R1 & H1). exists e1. repeat split; try assumption.
  exists e1, []. now rewrite app_nil_r.
Qed.

Lemma effects_bind {A B} (Q1 Q2 : list Event -> Prop) (m : M A) (k : A -> M B) :
  effects Q1 m -> (forall a, effects Q2 (k a)) -> Q2 [] ->
  effects (then_ Q1 Q2) (bind m k).
Proof.
  intros Hm Hk H2 st st' r H. unfold bind in H.
  destruct (m st) as [st1 [a|e]] eqn:E.
  - exact (effects_seq Q1 Q2 st st1 st' (Hm _ _ _ E) (Hk a _ _ _ H)).
  - injection H as <- _. exact (effects_stop Q1 Q2 st st1 H2 (Hm _ _ _ E)).
Qed.

Lemma effects_try_catch {A} (Q1 Q2 : list Event -> Prop) (m : M A) (h : JsError -> M A) :
  effects Q1 m -> (forall e, effects Q2 (h e)) -> Q2 [] ->
  effects (then_ Q1 Q2) (try_catch m h).
Proof.
  intros Hm Hh H2 st st' r H. unfold try_catch in H.
  destruct (m st) as [st1 [a|e]] eqn:E.
  - injection H as <- _. exact (effects_stop Q1 Q2 st st1 H2 (Hm _ _ _ E)).
  - exact (effects_seq Q1 Q2 st st1 st' (Hm _ _ _ E) (Hh e _ _ _ H)).
Qed.

(** A step that only computes, before a continuation that knows its value. *)
Lemma effects_bind_lift {A B} (Q : list Event -> Prop) (x : Res A) (k : A -> M B) :
  (forall a, x = Ok a -> effects Q (k a)) -> Q [] -> effects Q (bind (lift x) k).
Proof.
  intros Hk HQ st st' r H. unfold bind, lift in H. destruct x as [a|e].
  - exact (Hk a eq_refl _ _ _ H).
  - exact (effects_pure Q (Throw e) HQ _ _ _ H).
Qed.

Lemma effects_emit (ev : Event) :
  is_read ev = false -> effects (fun evs => evs = [ev]) (emit ev).
Proof.
  intros Hev st st' r H. injection H as <- _. exists [ev]. cbn [trace reads].
  repeat split. unfold n_reads. destruct ev; try discriminate Hev; cbn; lia.
Qed.

Lemma effects_fs_readFile (w : World) (p : Path) :
  effects (fun evs => evs = [EvReadFile p]) (fs_readFile w p).
Proof.
  intros st st' r H. unfold fs_readFile in H. exists [EvReadFile p].
  destruct (readFile w (reads st) p); injection H as <- _; cbn [trace reads];
    repeat split; unfold n_reads; cbn; lia.
Qed.

Lemma effects_from_files (w : World) : effects file_reads (from_files w).
Proof.
  unfold from_files.
  eapply effects_weaken;
    [|apply (effects_try_catch
               (then_ (fun evs => evs = [EvReadFile CREDENTIALS_PATH])
                      (fun evs => evs = [] \/ evs = [EvReadFile TOKEN_PATH]))
               nothing)].
  - intros evs (e1 & e2 & -> & (a & b & -> & -> & Hb) & ->).
    rewrite app_nil_r. destruct Hb as [-> | ->]; [now left | now right].
  - apply effects_bind; [apply effects_fs_readFile| |now left].
    intros credContent.
    eapply effects_weaken;
      [|apply (effects_bind (fun evs => evs = [EvReadFile TOKEN_PATH]) nothing)].
    + intros evs (e1 & e2 & -> & -> & ->). now right.
    + apply effects_fs_readFile.
    + intros tokenContent.
      apply effects_bind_lift; [|reflexivity]. intros credentials _.
      apply effects_bind_lift; [|reflexivity]. intros token _.
      now apply effects_pure.
    + reflexivity.
  - intros e. now apply effects_pure.
  - reflexivity.
Qed.

Lemma effects_loadCredentialsFromEnvOrFile (w : World) :
  effects loader_reads (loadCredentialsFromEnvOrFile w).
Proof.
  unfold loadCredentialsFromEnvOrFile. destruct (from_env w).
  - apply effects_pure. now left.
  - eapply effects_weaken; [|apply effects_from_files]. intros evs H. now right.
Qed.

Lemma effects_validate (client : OAuth2Client) : effects token_check (validate client).
Proof.
  unfold validate. destruct (get_prop (credentials client) "access_token") as [t|].
  - eapply effects_weaken; [|apply effects_emit; reflexivity].
    intros evs ->. right. now exists t.
  - apply effects_pure. now left.
Qed.

(** [loadSavedCredentialsIfExist] after a loader whose effects are [Q]. *)
Lemma effects_loadSaved (w : World) (Q : list Event -> Prop) :
  effects Q (loadCredentialsFromEnvOrFile w) -> Q [] ->
  effects (then_ Q token_check) (loadSavedCredentialsIfExist w).
Proof.
  intros Hload HQ. unfold loadSavedCredentialsIfExist.
  eapply effects_weaken;
    [|apply (effects_try_catch (then_ Q token_check) nothing)].
  - intros evs (e1 & e2 & -> & H & ->). now rewrite app_nil_r.
  - apply effects_bind; [exact Hload| |now left].
    intros [[credentials token]|]; [|apply effects_pure; now left].
    apply effects_bind_lift; [|now left]. intros key _.
    destruct (negb (truthy key)); [apply effects_pure; now left|].
    apply effects_bind_lift; [|now left]. intros id _.
    apply effects_bind_lift; [|now left]. intros secret _.
    apply effects_bind_lift; [|now left]. intros uris _.
    eapply effects_weaken;
      [|apply (effects_bind token_check nothing)].
    + intros evs (e1 & e2 & -> & H & ->). now rewrite app_nil_r.
    + apply effects_validate.
    + intros _. now apply effects_pure.
    + reflexivity.
  - intros e. now apply effects_pure.
  - reflexivity.
Qed.

Lemma effects_loadClientSecrets (w : World) : effects loader_reads (loadClientSecrets w).
Proof.
  unfold loadClientSecrets.
  eapply effects_weaken;
    [|apply (effects_bind loader_reads nothing)].
  - intros evs (e1 & e2 & -> & H & ->). now rewrite app_nil_r.
  - apply effects_loadCredentialsFromEnvOrFile.
  - intros [[keys token]|]; [|now apply effects_pure].
    apply effects_bind_lift; [|reflexivity]. intros key _.
    destruct (negb (truthy key)); [now apply effects_pure|].
    apply effects_bind_lift; [|reflexivity]. intros id _.
    apply effects_bind_lift; [|reflexivity]. intros secret _.
    apply effects_bind_lift; [|reflexivity]. intros uris _.
    apply effects_bind_lift; [|reflexivity]. intros web _.
    now apply effects_pure.
  - reflexivity.
Qed.

Lemma effects_fs_writeFile (w : World) (p : Path) (payload : SavedToken) :
  effects (fun evs => evs = [EvWriteFile p payload]) (fs_writeFile w p payload).
Proof.
  unfold fs_writeFile.
  eapply effects_weaken;
    [|apply (effects_bind (fun evs => evs = [EvWriteFile p payload]) nothing)].
  - intros evs (e1 & e2 & -> & -> & ->). reflexivity.
  - apply effects_emit. reflexivity.
  - intros _. destruct (writeFile_ok w); now apply effects_pure.
  - reflexivity.
Qed.

(** [saveCredentials] swallows every failure. *)
Lemma saveCredentials_returns (w : World) (client : OAuth2Client) (st : St) :
  exists st', saveCredentials w client st = (st', Ok tt).
Proof.
  unfold saveCredentials. destruct (truthy_string (env_GOOGLE_CREDENTIALS w)).
  - now exists st.
  - unfold try_catch.
    match goal with
    | |- context [match ?m st with _ => _ end] => destruct (m st) as [st1 [[]|e]]
    end; now exists st1.
Qed.

Lemma effects_saveCredentials (w : World) (client : OAuth2Client) :
  effects (then_ loader_reads (token_write client)) (saveCredentials w client).
Proof.
  unfold saveCredentials. destruct (truthy_string (env_GOOGLE_CREDENTIALS w)).
  - apply effects_pure. exists [], []. repeat split; now left.
  - eapply effects_weaken;
      [|apply (effects_try_catch (then_ loader_reads (token_write client)) nothing)].
    + intros evs (e1 & e2 & -> & H & ->). now rewrite app_nil_r.
    + apply effects_bind; [apply effects_loadClientSecrets| |now left].
      intros secrets.
      apply effects_bind_lift; [|now left]. intros refresh_token Hrt.
      eapply effects_weaken; [|apply effects_fs_writeFile].
      intros evs ->. right. eexists. split; [reflexivity|]. exact Hrt.
    + intros e. now apply effects_pure.
    + reflexivity.
Qed.

End AuthEffects.

Section AuthExtras.
Import Json Auth SpecAuth SpecEffects.

Lemma from_env_parsed (w : World) (c t : string) (credentials token : JSON) :
  env_GOOGLE_CREDENTIALS w = Some c -> env_GOOGLE_TOKEN w = Some t ->
  nonempty c = true -> nonempty t = true ->
  JSON_parse c = Ok credentials -> JSON_parse t = Ok token ->
  from_env w = Some (credentials, token).
Proof.
  intros Hc Ht Nc Nt Pc Pt. unfold from_env. rewrite Hc, Ht, Pc, Pt.
  destruct c, t; try discriminate. reflexivity.
Qed.

(** X1. When both injected values are present and parse, resolution takes
    them without touching any file: the loader returns them with no effect,
    and [authorize] adds at most the check of the token, makes no read, and
    a handle it returns carries the injected token. *)
Theorem managed_values_resolve_without_files :
  forall (w : World) (c t : string) (credentials token : JSON) (st : St),
    env_GOOGLE_CREDENTIALS w = Some c -> env_GOOGLE_TOKEN w = Some t ->
    nonempty c = true -> nonempty t = true ->
    JSON_parse c = Ok credentials -> JSON_parse t = Ok token ->
    loadCredentialsFromEnvOrFile w st = (st, Ok (Some (credentials, token)))
    /\ (exists evs, trace (fst (authorize w st)) = (trace st ++ evs)%list
                    /\ token_check evs)
    /\ reads (fst (authorize w st)) = reads st
    /\ (forall client, snd (authorize w st) = Ok client ->
                       Auth.credentials client = token).
Proof.
  intros w c t credentials token st Hc Ht Nc Nt Pc Pt.
  pose proof (from_env_parsed w c t credentials token Hc Ht Nc Nt Pc Pt) as Henv.
  assert (Hload : forall s, loadCredentialsFromEnvOrFile w s
                            = (s, Ok (Some (credentials, token))))
    by (intros s; unfold loadCredentialsFromEnvOrFile; now rewrite Henv).
  assert (Htruthy : truthy_string (env_GOOGLE_CREDENTIALS w) = true)
    by (rewrite Hc; destruct c; [discriminate | reflexivity]).
  assert (Hsaved : effects token_check (loadSavedCredentialsIfExist w)).
  { eapply effects_weaken; [|apply (effects_loadSaved w nothing)].
    - intros evs (e1 & e2 & -> & -> & H). exact H.
    - intros s s' r H. rewrite Hload in H. injection H as <- _.
      exists []. now rewrite app_nil_r, Nat.add_0_r.
    - reflexivity. }
  split; [apply Hload|].
  rewrite (authorize_managed w st Htruthy).
  destruct (loadSavedCredentialsIfExist w st) as [st' r] eqn:E.
  destruct (Hsaved st st' r E) as (evs & Htrace & Hreads & Hcheck).
  assert (Hn : n_reads evs = 0%nat)
    by (destruct Hcheck as [-> | [a ->]]; reflexivity).
  assert (Hfst : fst match r with
                     | Ok (Some client) => (st', Ok client)
                     | _ => (st', Throw no_valid_credentials)
                     end = st')
    by (destruct r as [[client|]|]; reflexivity).
  rewrite Hfst. split; [now exists evs|]. split; [lia|].
  intros client Hclient. destruct r as [[saved|]|e]; try discriminate Hclient.
  injection Hclient as <-.
  exact (proj1 (loadSaved_of_loaded w st st st' credentials token saved (Hload st) E)).
Qed.

(** The theorem X1 in the managed environment without files. *)
Lemma managed_values_resolve_without_files_witness :
  reads (fst (authorize Examples.managed_world st0)) = 0%nat
  /\ trace (fst (authorize Examples.managed_world st0)) = [EvGetTokenInfo (JStr "at-1")].
Proof.
  destruct (managed_values_resolve_without_files
              Examples.managed_world Examples.credentials_json Examples.token_json
              (JObj [("installed",
                      JObj [("client_id", JStr "id-1"); ("client_secret", JStr "s-1");
                            ("redirect_uris", JArr [JStr "http://localhost"])])])
              (JObj [("access_token", JStr "at-1"); ("refresh_token", JStr "rt-1")])
              st0 eq_refl eq_refl eq_refl eq_refl eq_refl eq_refl)
    as (_ & _ & Hreads & _).
  split; [exact Hreads | reflexivity].
Defined.

(** X2. Loading the saved credentials never throws, and all it does
    outside is to read the credentials file and then the token file, each
    at most once and the second only after the first, and then to check the
    token at most once. *)
Theorem saved_credentials_load_reads_at_most_two_files :
  forall (w : World) (st : St),
    exists st' c rs tc,
      loadSavedCredentialsIfExist w st = (st', Ok c)
      /\ trace st' = (trace st ++ rs ++ tc)%list
      /\ loader_reads rs /\ token_check tc
      /\ reads st' = (reads st + List.length rs)%nat.
Proof.
  intros w st.
  destruct (loadSavedCredentialsIfExist_no_throw w st) as (st' & c & E).
  destruct (effects_loadSaved w loader_reads
              (effects_loadCredentialsFromEnvOrFile w) (or_introl eq_refl) st st' _ E)
    as (evs & Htrace & Hreads & rs & tc & -> & Hrs & Htc).
  exists st', c, rs, tc. repeat split; try assumption.
  rewrite Hreads, n_reads_app. f_equal.
  replace (n_reads tc) with 0%nat by (destruct Htc as [-> | [a ->]]; reflexivity).
  rewrite Nat.add_0_r.
  destruct Hrs as [-> | [-> | ->]]; reflexivity.
Qed.

(** X3. Saving the credentials never throws.  In the managed environment
    it does nothing.  Otherwise it reads the local files again and writes
    at most once, the token file, with the refresh token of the client. *)
Theorem saveCredentials_writes_only_the_token_file :
  forall (w : World) (client : OAuth2Client) (st : St),
    exists st' rs wr,
      saveCredentials w client st = (st', Ok tt)
      /\ trace st' = (trace st ++ rs ++ wr)%list
      /\ loader_reads rs /\ token_write client wr
      /\ (truthy_string (env_GOOGLE_CREDENTIALS w) = true -> st' = st).
Proof.
  intros w client st.
  destruct (saveCredentials_returns w client st) as (st' & E).
  destruct (effects_saveCredentials w client st st' _ E)
    as (evs & Htrace & _ & rs & wr & -> & Hrs & Hwr).
  exists st', rs, wr. repeat split; try assumption.
  intros Henv. unfold saveCredentials in E. rewrite Henv in E.
  now injection E as <-.
Qed.

(** The theorem X3 in the managed environment. *)
Lemma saveCredentials_writes_only_the_token_file_witness :
  saveCredentials Examples.managed_world
    (mkOAuth2Client JUndefined JUndefined JUndefined (JObj [])) st0 = (st0, Ok tt).
Proof.
  destruct (saveCredentials_writes_only_the_token_file Examples.managed_world
              (mkOAuth2Client JUndefined JUndefined JUndefined (JObj [])) st0)
    as (st' & rs & wr & E & _ & _ & _ & Hsame).
  rewrite E. now rewrite (Hsame eq_refl).
Defined.

(** X4. The interactive flow does not prompt when the client secrets
    cannot be loaded: it fails with the loader's error, having only read
    files. *)
Theorem authenticate_needs_client_secrets_before_prompting :
  forall (w : World) (st st1 : St) (e : JsError),
    truthy_string (env_GOOGLE_CREDENTIALS w) = false ->
    loadClientSecrets w st = (st1, Throw e) ->
    authenticate w st = (st1, Throw e)
    /\ exists evs, trace st1 = (trace st ++ evs)%list /\ loader_reads evs.
Proof.
  intros w st st1 e Henv Hsecrets. split.
  - unfold authenticate. rewrite Henv. unfold bind. now rewrite Hsecrets.
  - destruct (effects_loadClientSecrets w st st1 _ Hsecrets) as (evs & Ht & _ & Hq).
    now exists evs.
Qed.

Lemma authenticate_needs_client_secrets_before_prompting_witness :
  authenticate (Examples.auth_world None None Examples.files_absent) st0
  = (mkSt 1 [EvReadFile CREDENTIALS_PATH],
     Throw (Error "Could not load credentials from environment or files.")).
Proof.
  exact (proj1 (authenticate_needs_client_secrets_before_prompting
                  (Examples.auth_world None None Examples.files_absent) st0
                  (mkSt 1 [EvReadFile CREDENTIALS_PATH])
                  (Error "Could not load credentials from environment or files.")
                  eq_refl eq_refl)).
Defined.




(** X6. [authorize] reaches the interactive prompt only outside the
    managed environment and only after the saved credentials failed to load;
    what it returns is then what the interactive flow returns. *)
Theorem interactive_flow_only_after_a_failed_load :
  forall (w : World) (st st' : St) (r : Res OAuth2Client) (evs : list Event),
    authorize w st = (st', r) ->
    trace st' = (trace st ++ evs)%list ->
    prompted evs = true ->
    truthy_string (env_GOOGLE_CREDENTIALS w) = false
    /\ exists st1, loadSavedCredentialsIfExist w st = (st1, Ok None)
                   /\ authenticate w st1 = (st', r).
Proof.
  intros w st st' r evs Hauth Htrace Hprompt.
  destruct (truthy_string (env_GOOGLE_CREDENTIALS w)) eqn:Henv.
  - destruct (authorize_managed_quiet w Henv st st' r Hauth) as (evs' & Ht & Hq).
    rewrite Ht in Htrace. apply app_inv_head in Htrace. subst evs'. congruence.
  - split; [reflexivity|].
    unfold authorize, bind in Hauth. rewrite Henv in Hauth.
    destruct (loadSavedCredentialsIfExist w st) as [st1 [[client|]|e]] eqn:E.
    + injection Hauth as <- _.
      destruct (quiet_loadSavedCredentialsIfExist w st st1 _ E) as (evs' & Ht & Hq).
      rewrite Ht in Htrace. apply app_inv_head in Htrace. subst evs'. congruence.
    + now exists st1.
    + destruct (loadSavedCredentialsIfExist_no_throw w st) as (s & c & E').
      congruence.
Qed.

(** The theorem X6 outside the managed environment, the files appearing
    after the first read. *)
Lemma interactive_flow_only_after_a_failed_load_witness :
  truthy_string (env_GOOGLE_CREDENTIALS Examples.local_world) = false
  /\ exists st1, loadSavedCredentialsIfExist Examples.local_world st0 = (st1, Ok None)
                 /\ authenticate Examples.local_world st1
                    = authorize Examples.local_world st0.
Proof.
  destruct (authorize Examples.local_world st0) as [st' r] eqn:E.
  assert (Htrace : trace st'
                   = (trace st0
                      ++ [EvReadFile CREDENTIALS_PATH; EvReadFile CREDENTIALS_PATH;
                          EvReadFile TOKEN_PATH; EvQuestion; EvGetToken "4/code";
                          EvReadFile CREDENTIALS_PATH; EvReadFile TOKEN_PATH;
                          EvWriteFile TOKEN_PATH
                            (mkSavedToken (JStr "id-2") (JStr "s-2") (JStr "rt-3"))])%list).
  { pose proof E as E'. vm_compute in E'. injection E' as <- _. reflexivity. }
  exact (interactive_flow_only_after_a_failed_load
           Examples.local_world st0 st' r _ E Htrace eq_refl).
Defined.

End AuthExtras.

(* ================================================================== *)
(** ** The streaming server: state, headings, output *)

Section ServerExtras.
Import JsString Json Auth Google Docs SpecCache SpecServer.

Lemma http_initialize_keeps_coherent (w : ServerHttp.World) (p : Proc) :
  coherent (clients p) ->
  coherent (clients (fst (ServerHttp.initializeGoogleClient w p))).
Proof.
  intros Hc. destruct Hc as [Hc | [client Hc]].
  - rewrite http_initialize_cases, Hc. cbn.
    destruct (authorize (ServerHttp.auth_world w) (io p)) as [st' [c|e]]; cbn.
    + right. now exists c.
    + now left.
  - rewrite (http_ready_is_cached w p) by (now rewrite Hc).
    right. now exists client.
Qed.

Lemma http_readGoogleDoc_state (w : ServerHttp.World) (args : ServerHttp.ReadArgs)
      (p : Proc) :
  fst (ServerHttp.readGoogleDoc w args p) = fst (ServerHttp.initializeGoogleClient w p).
Proof.
  destruct (http_readGoogleDoc_outcome w args p) as (p' & [[Hi Hr]|[[c Hi] Hr]]);
    now rewrite Hi, Hr.
Qed.

Lemma http_reachable_coherent (p : Proc) : http_reachable p -> coherent (clients p).
Proof.
  induction 1 as [|w p Hp IH|w args p Hp IH|p Hp IH].
  - now left.
  - now apply http_initialize_keeps_coherent.
  - rewrite http_readGoogleDoc_state. now apply http_initialize_keeps_coherent.
  - exact IH.
Qed.

(** X7. Between two tool calls the streaming server holds no client or the
    three made from one handle; so the Docs client and the Drive client a
    tool obtains are built on the cached handle. *)
Theorem http_clients_share_the_cached_handle :
  forall (w : ServerHttp.World) (p : Proc),
    http_reachable p ->
    coherent (clients p)
    /\ (forall p' d, ServerHttp.getDocsClient w p = (p', Ok d) ->
                     authClient (clients p') = Some (docs_auth d))
    /\ (forall p' d, ServerHttp.getDriveClient w p = (p', Ok d) ->
                     authClient (clients p') = Some (drive_auth d)).
Proof.
  intros w p Hreach.
  pose proof (http_reachable_coherent p Hreach) as Hc.
  pose proof (http_initialize_keeps_coherent w p Hc) as Hc'.
  split; [exact Hc|].
  split; intros p' d H;
    [unfold ServerHttp.getDocsClient, bindP in H
    |unfold ServerHttp.getDriveClient, bindP in H];
    destruct (ServerHttp.initializeGoogleClient w p) as [q [c|e]] eqn:E;
    try discriminate H;
    destruct (http_success_is_ready w p q c E) as [Hq _]; cbn [fst] in Hc';
    rewrite Hq in Hc'; destruct Hc' as [-> | [client ->]];
    cbn in H; try discriminate H; injection H as <- <-; rewrite Hq; reflexivity.
Qed.

Lemma http_clients_share_the_cached_handle_witness :
  exists p' d,
    ServerHttp.getDriveClient Examples.hello_server proc0 = (p', Ok d)
    /\ authClient (clients p') = Some (drive_auth d).
Proof.
  destruct (ServerHttp.getDriveClient Examples.hello_server proc0) as [p' [d|e]] eqn:E;
    [|vm_compute in E; discriminate E].
  exists p', d. split; [reflexivity|].
  exact (proj2 (proj2 (http_clients_share_the_cached_handle
                         Examples.hello_server proc0 http_start)) p' d E).
Defined.

(** X8. When resolution fails, the streaming server forgets the cause and
    throws its own fixed error, leaving no client; the REST facade throws
    what [authorize] threw and leaves its variables as they were. *)
Theorem initialization_failure_is_reported :
  (forall (w : ServerHttp.World) (p p' : Proc) (e : JsError),
      ServerHttp.initializeGoogleClient w p = (p', Throw e) ->
      e = initialization_failed
      /\ exists st' cause,
          authorize (ServerHttp.auth_world w) (io p) = (st', Throw cause)
          /\ p' = mkProc no_clients st')
  /\ (forall (w : RestApi.World) (p p' : Proc) (e : JsError),
         RestApi.initializeGoogleClient w p = (p', Throw e) ->
         authorize (RestApi.auth_world w) (io p) = (io p', Throw e)
         /\ clients p' = clients p).
Proof.
  split.
  - intros w p p' e H. rewrite http_initialize_cases in H.
    destruct (googleDocs (clients p)), (googleDrive (clients p));
      try discriminate H;
      (destruct (authClient (clients p)); [discriminate H|]);
      destruct (authorize (ServerHttp.auth_world w) (io p)) as [st' [client|cause]];
      try discriminate H; injection H as <- <-;
      (split; [reflexivity | now exists st', cause]).
  - intros w p p' e H. rewrite rest_initialize_cases in H.
    destruct (ready (clients p)); [discriminate H|].
    destruct (authorize (RestApi.auth_world w) (io p)) as [st' [client|cause]];
      try discriminate H. injection H as <- <-. now split.
Qed.

Lemma initialization_failure_is_reported_witness :
  snd (ServerHttp.initializeGoogleClient Examples.unresolved_server proc0)
  = Throw initialization_failed
  /\ snd (RestApi.initializeGoogleClient Examples.unresolved_rest proc0)
     = Throw SpecAuth.no_valid_credentials.
Proof.
  destruct initialization_failure_is_reported as [Hhttp Hrest].
  split.
  - destruct (ServerHttp.initializeGoogleClient Examples.unresolved_server proc0)
      as [p' [c|e]] eqn:E; [vm_compute in E; discriminate E|].
    cbn [snd]. f_equal. exact (proj1 (Hhttp _ _ _ _ E)).
  - destruct (RestApi.initializeGoogleClient Examples.unresolved_rest proc0)
      as [p' [c|e]] eqn:E; [vm_compute in E; discriminate E|].
    cbn [snd]. f_equal.
    pose proof (proj1 (Hrest _ _ _ _ E)) as H. vm_compute in H.
    now injection H as _ <-.
Defined.

(** X9. After a tool call of the streaming server that succeeded, no later
    call changes the process: the clients stay and credentials are not
    resolved again, whatever the outside and the arguments. *)
Theorem http_tool_calls_are_stateless_after_a_success :
  forall (w : ServerHttp.World) (args : ServerHttp.ReadArgs) (p p' : Proc) (s : string),
    ServerHttp.readGoogleDoc w args p = (p', Ok s) ->
    forall (w2 : ServerHttp.World) (args2 : ServerHttp.ReadArgs),
      fst (ServerHttp.readGoogleDoc w2 args2 p') = p'
      /\ fst (ServerHttp.healthCheck p') = p'.
Proof.
  intros w args p p' s H w2 args2. split; [|reflexivity].
  destruct (http_readGoogleDoc_outcome w args p) as (q & [[_ Hr]|[[c Hi] Hr]]);
    rewrite Hr in H; [discriminate H|].
  injection H as <- _.
  destruct (http_success_is_ready w p q c Hi) as [Hq Hready]. subst c.
  rewrite http_readGoogleDoc_state, (http_ready_is_cached w2 q Hready). reflexivity.
Qed.

Lemma http_tool_calls_are_stateless_after_a_success_witness :
  exists p' s,
    ServerHttp.readGoogleDoc Examples.hello_server
      (ServerHttp.mkReadArgs "doc-1" ServerHttp.text None) proc0 = (p', Ok s)
    /\ fst (ServerHttp.readGoogleDoc Examples.unresolved_server
              (ServerHttp.mkReadArgs "doc-2" ServerHttp.markdown None) p') = p'.
Proof.
  destruct (ServerHttp.readGoogleDoc Examples.hello_server
              (ServerHttp.mkReadArgs "doc-1" ServerHttp.text None) proc0)
    as [p' [s|e]] eqn:E; [|vm_compute in E; discriminate E].
  exists p', s. split; [reflexivity|].
  exact (proj1 (http_tool_calls_are_stateless_after_a_success
                  Examples.hello_server _ proc0 p' s E Examples.unresolved_server
                  (ServerHttp.mkReadArgs "doc-2" ServerHttp.markdown None))).
Defined.

End ServerExtras.

(* ================================================================== *)
(** ** The renderers: headings, trimmed output, text in document order *)

Section RendererExtras.
Import JsString Docs SpecServer.

Lemma convertParagraphToMarkdown_styled (style : string) (els : list ParagraphElement)
      (b : option Bullet) (level : option Z) :
  nonempty style = true ->
  startsWith "HEADING_" style = true ->
  parseInt (replace_first "HEADING_" EmptyString style) = level ->
  nonempty (trim (runs_markdown els)) = true ->
  convertParagraphToMarkdown (styled_paragraph style els b)
  = bindR (repeat_hash (Math_min6 level))
          (fun hashes => Ok (hashes ++ " " ++ trim (runs_markdown els) ++ nl ++ nl)).
Proof.
  intros Hne Hstart Hlevel Htext.
  unfold convertParagraphToMarkdown, styled_paragraph.
  cbn [paragraphStyle namedStyleType elements bullet].
  destruct style as [|c s]; [discriminate Hne|].
  rewrite Hstart, Hlevel. fold (runs_markdown els). rewrite Htext. reflexivity.
Qed.

Lemma prefix_append (p s : string) : prefix p (p ++ s) = true.
Proof.
  induction p as [|a p IH]; [destruct s; reflexivity|].
  simpl. destruct (ascii_dec a a); [exact IH | congruence].
Qed.

Lemma drop_append (p s : string) : drop (String.length p) (p ++ s) = s.
Proof. induction p as [|a p IH]; [reflexivity | exact IH]. Qed.

Lemma replace_first_prefix (pat rep s : string) :
  prefix pat s = true -> replace_first pat rep s = rep ++ drop (String.length pat) s.
Proof. intros H. destruct s; cbn [replace_first]; now rewrite H. Qed.

Lemma heading_style (suffix : string) :
  nonempty ("HEADING_" ++ suffix) = true
  /\ startsWith "HEADING_" ("HEADING_" ++ suffix) = true
  /\ replace_first "HEADING_" EmptyString ("HEADING_" ++ suffix) = suffix.
Proof.
  split; [reflexivity|]. split; [apply prefix_append|].
  rewrite replace_first_prefix by apply prefix_append.
  now rewrite drop_append.
Qed.

(** X10. A paragraph with text whose named style is [HEADING_] followed by
    a number n that is not negative renders as n hashes, at most six, a
    space, the trimmed text and a blank line.  When no number follows, it
    renders without hash, the space kept. *)
Theorem heading_level_is_clamped_to_six :
  forall (suffix : string) (els : list ParagraphElement) (b : option Bullet),
    nonempty (trim (runs_markdown els)) = true ->
    (forall n, parseInt suffix = Some n -> (0 <= n)%Z ->
               convertParagraphToMarkdown (styled_paragraph ("HEADING_" ++ suffix) els b)
               = Ok (repeat "#" (Z.to_nat (Z.min n 6)) ++ " "
                       ++ trim (runs_markdown els) ++ nl ++ nl)
               /\ (String.length (repeat "#" (Z.to_nat (Z.min n 6))) <= 6)%nat)
    /\ (parseInt suffix = None ->
        convertParagraphToMarkdown (styled_paragraph ("HEADING_" ++ suffix) els b)
        = Ok (" " ++ trim (runs_markdown els) ++ nl ++ nl)).
Proof.
  intros suffix els b Htext.
  destruct (heading_style suffix) as (Hne & Hstart & Hrep).
  split.
  - intros n Hparse Hn.
    rewrite (convertParagraphToMarkdown_styled _ els b (Some n) Hne Hstart
               ltac:(now rewrite Hrep) Htext).
    unfold Math_min6, repeat_hash.
    destruct (Z.ltb_spec (Z.min n 6) 0) as [Hneg|_]; [lia|].
    split; [reflexivity|].
    assert (Hlen : forall k, String.length (repeat "#" k) = k)
      by (induction k as [|k IH]; simpl; [reflexivity | now rewrite IH]).
    rewrite Hlen. lia.
  - intros Hparse.
    now rewrite (convertParagraphToMarkdown_styled _ els b None Hne Hstart
                   ltac:(now rewrite Hrep) Htext).
Qed.

(** The theorem X10 at [HEADING_9]. *)
Lemma heading_level_is_clamped_to_six_witness :
  convertParagraphToMarkdown (styled_paragraph "HEADING_9" [Examples.run "Deep"] None)
  = Ok ("###### Deep" ++ nl ++ nl).
Proof.
  destruct (heading_level_is_clamped_to_six "9" [Examples.run "Deep"] None eq_refl)
    as [H _].
  exact (proj1 (H 9%Z eq_refl ltac:(lia))).
Defined.

(** What [convertParagraphToMarkdown] throws: the range error of a
    negative count of hashes. *)
Lemma convertParagraphToMarkdown_throws (p : Paragraph) (e : JsError) :
  convertParagraphToMarkdown p = Throw e ->
  exists n, (n < 0)%Z /\ e = RangeError ("Invalid count value: " ++ Number_toString n).
Proof.
  unfold convertParagraphToMarkdown.
  match goal with
  | |- context [let '(a, b) := ?x in _] => destruct x as [isHeading headingLevel]
  end.
  destruct (isHeading && _); [|destruct (_ && _); [|destruct (nonempty _)]];
    try discriminate.
  unfold Math_min6, repeat_hash.
  destruct headingLevel as [n|]; [|discriminate].
  destruct (Z.ltb_spec (Z.min n 6) 0) as [Hneg|_]; [|discriminate].
  cbn [bindR]. intros H. injection H as <-. now exists (Z.min n 6).
Qed.

(** The loop of [convertDocsJsonToMarkdown] stops at the first paragraph
    that throws. *)
Lemma markdown_loop_throws (content : list StructuralElement) :
  (exists el p e, In el content /\ paragraph el = Some p
                  /\ convertParagraphToMarkdown p = Throw e) ->
  forall acc, exists el p e,
      In el content /\ paragraph el = Some p
      /\ convertParagraphToMarkdown p = Throw e
      /\ forEachR
           (fun markdown element =>
              match paragraph element with
              | Some p =>
                  bindR (convertParagraphToMarkdown p) (fun s => Ok (markdown ++ s))
              | None =>
                  match table element with
                  | Some t => Ok (markdown ++ convertTableToMarkdown t)
                  | None =>
                      match sectionBreak element with
                      | Some _ => Ok (markdown ++ nl ++ "---" ++ nl ++ nl)
                      | None => Ok markdown
                      end
                  end
              end) content acc = Throw e.
Proof.
  induction content as [|x content IH]; intros (el & p & e & Hin & Hp & He) acc.
  - destruct Hin.
  - cbn [forEachR].
    destruct (paragraph x) as [px|] eqn:Epx.
    + destruct (convertParagraphToMarkdown px) as [s|ex] eqn:Ex.
      * cbn [bindR].
        destruct Hin as [-> | Hin]; [congruence|].
        destruct (IH (ex_intro _ el (ex_intro _ p (ex_intro _ e (conj Hin (conj Hp He)))))
                     (acc ++ s)) as (el' & p' & e' & Hin' & Hp' & He' & Hloop).
        exists el', p', e'. repeat split; try assumption. now right.
      * exists x, px, ex. repeat split; try assumption. now left.
    + destruct Hin as [-> | Hin]; [congruence|].
      assert (Hrest : exists el p e, In el content /\ paragraph el = Some p
                                     /\ convertParagraphToMarkdown p = Throw e)
        by (now exists el, p, e).
      destruct (table x) as [t|].
      * cbn [bindR].
        destruct (IH Hrest (acc ++ convertTableToMarkdown t))
          as (el' & p' & e' & Hin' & Hp' & He' & Hloop).
        exists el', p', e'. repeat split; try assumption. now right.
      * destruct (sectionBreak x); cbn [bindR];
          match goal with
          | |- context [forEachR _ content ?a] =>
              destruct (IH Hrest a) as (el' & p' & e' & Hin' & Hp' & He' & Hloop)
          end;
          exists el', p', e'; repeat split; try assumption; now right.
Qed.

(** X11. When a top-level paragraph of the snapshot cannot be rendered (its
    heading level is negative), reading the document as markdown fails as a
    whole: the handler throws the [UserError] that carries the range error
    of the first such paragraph.  The error names the level as the platform
    prints a number: in decimal digits above [-2^53]. *)
Theorem unrenderable_heading_fails_the_markdown_read :
  forall (w : ServerHttp.World) (id : string) (maxLength : option Z)
         (data : Document) (content : list StructuralElement),
    ServerHttp.documents_get w id "*" = Ok data ->
    body_content_of data = Some content ->
    (exists el p e, In el content /\ paragraph el = Some p
                    /\ convertParagraphToMarkdown p = Throw e) ->
    exists n,
      (n < 0)%Z
      /\ ServerHttp.readGoogleDoc_try w (ServerHttp.mkReadArgs id ServerHttp.markdown maxLength)
         = Throw (RangeError ("Invalid count value: " ++ Number_toString n))
      /\ ServerHttp.readGoogleDoc_catch
           (ServerHttp.mkReadArgs id ServerHttp.markdown maxLength)
           (RangeError ("Invalid count value: " ++ Number_toString n))
         = UserError ("Failed to read doc: Invalid count value: " ++ Number_toString n)
      /\ ((- 2 ^ 53 < n)%Z -> Number_toString n = string_of_Z n).
Proof.
  intros w id maxLength data content Hget Hcontent Hbad.
  destruct (markdown_loop_throws content Hbad EmptyString)
    as (el & p & e & _ & _ & He & Hloop).
  destruct (convertParagraphToMarkdown_throws p e He) as (n & Hn & ->).
  exists n. split; [exact Hn|]. split; [|split].
  - unfold ServerHttp.readGoogleDoc_try.
    cbn [ServerHttp.format ServerHttp.documentId ServerHttp.maxLength].
    rewrite Hget. cbn [bindR]. unfold convertDocsJsonToMarkdown.
    rewrite Hcontent, Hloop. reflexivity.
  - reflexivity.
  - intros Hsafe. unfold Number_toString.
    destruct (Z.ltb_spec (Z.abs n) (2 ^ 53)) as [_|Hge]; [reflexivity | lia].
Qed.

(** The theorem X11 at a snapshot with a heading of level -1. *)
Lemma unrenderable_heading_fails_the_markdown_read_witness :
  exists n,
    (n < 0)%Z
    /\ ServerHttp.readGoogleDoc_try negative_heading_server
         (ServerHttp.mkReadArgs "doc-1" ServerHttp.markdown None)
       = Throw (RangeError ("Invalid count value: " ++ Number_toString n))
    /\ ServerHttp.readGoogleDoc_catch
         (ServerHttp.mkReadArgs "doc-1" ServerHttp.markdown None)
         (RangeError ("Invalid count value: " ++ Number_toString n))
       = UserError ("Failed to read doc: Invalid count value: " ++ Number_toString n)
    /\ ((- 2 ^ 53 < n)%Z -> Number_toString n = string_of_Z n).
Proof.
  exact (unrenderable_heading_fails_the_markdown_read
           negative_heading_server "doc-1" None negative_heading_doc
           [ Examples.para "Intro";
             mkStructuralElement
               (Some (styled_paragraph "HEADING_-1" [Examples.run "Title"] None))
               None None ]
           eq_refl eq_refl
           (ex_intro _ _ (ex_intro _ _ (ex_intro _ _
              (conj (or_intror (or_introl eq_refl))
                    (conj eq_refl eq_refl)))))).
Defined.

End RendererExtras.

Section OutputExtras.
Import JsString Docs SpecServer.

Lemma starts_clean_trimStart (s : string) : starts_clean (trimStart s) = true.
Proof.
  induction s as [|c s IH]; [reflexivity|].
  simpl. destruct (is_whitespace c) eqn:E; [exact IH|].
  simpl. now rewrite E.
Qed.

Lemma trimStart_clean (s : string) : starts_clean s = true -> trimStart s = s.
Proof.
  destruct s as [|c s]; [reflexivity|]. simpl. intros H.
  apply negb_true_iff in H. now rewrite H.
Qed.

Lemma starts_clean_trimEnd (s : string) :
  starts_clean s = true -> starts_clean (trimEnd s) = true.
Proof.
  destruct s as [|c s]; [reflexivity|]. simpl. intros H.
  destruct (trimEnd s); [|exact H].
  apply negb_true_iff in H. rewrite H. simpl. now rewrite H.
Qed.

Lemma ends_clean_trimEnd (s : string) : ends_clean (trimEnd s) = true.
Proof.
  induction s as [|c s IH]; [reflexivity|].
  simpl. destruct (trimEnd s) as [|d u].
  - destruct (is_whitespace c) eqn:E; [reflexivity|]. simpl. now rewrite E.
  - exact IH.
Qed.

Lemma trimEnd_clean (s : string) : ends_clean s = true -> trimEnd s = s.
Proof.
  induction s as [|c s IH]; [reflexivity|].
  destruct s as [|d u].
  - simpl. intros H. apply negb_true_iff in H. now rewrite H.
  - intros H. change (ends_clean (String d u) = true) in H.
    specialize (IH H). cbn [trimEnd] in *. now rewrite IH.
Qed.

(** [trim] gives a string without white space at either end, and leaves
    such a string as it is. *)
Lemma trim_clean (s : string) :
  starts_clean (trim s) = true /\ ends_clean (trim s) = true.
Proof.
  unfold trim. split.
  - apply starts_clean_trimEnd, starts_clean_trimStart.
  - apply ends_clean_trimEnd.
Qed.

Lemma trim_idempotent (s : string) : trim (trim s) = trim s.
Proof.
  destruct (trim_clean s) as [Hs He].
  unfold trim at 1. now rewrite (trimStart_clean _ Hs), (trimEnd_clean _ He).
Qed.

(** X12. Whatever the snapshot, the markdown of a document that has content
    neither begins nor ends with white space, and trimming it again changes
    nothing. *)
Theorem markdown_output_is_trimmed :
  forall (d : Document) (content : list StructuralElement) (s : string),
    body_content_of d = Some content ->
    convertDocsJsonToMarkdown d = Ok s ->
    starts_clean s = true /\ ends_clean s = true /\ trim s = s.
Proof.
  intros d content s Hcontent H. unfold convertDocsJsonToMarkdown in H.
  rewrite Hcontent in H.
  match type of H with
  | bindR ?m _ = _ => destruct m as [markdown|e]
  end; [|discriminate H].
  cbn [bindR] in H. injection H as <-.
  destruct (trim_clean markdown) as [Hs He].
  repeat split; try assumption. apply trim_idempotent.
Qed.

Lemma markdown_output_is_trimmed_witness :
  trim ("Hello") = "Hello".
Proof.
  exact (proj2 (proj2 (markdown_output_is_trimmed
                         Examples.hello_doc [Examples.para "Hello"] "Hello"
                         eq_refl eq_refl))).
Defined.

(** A loop that appends to its accumulator. *)
Lemma fold_left_appending {A} (step : string -> A -> string) (l : list A) :
  (forall acc x, step acc x = acc ++ step EmptyString x) ->
  forall acc, fold_left step l acc = acc ++ fold_left step l EmptyString.
Proof.
  intros Hstep. induction l as [|x l IH]; intros acc.
  - simpl. now rewrite append_nil_r.
  - cbn [fold_left]. rewrite IH, (IH (step EmptyString x)), Hstep.
    now rewrite append_assoc.
Qed.

Lemma append_runs_appending (acc : string) (pes : list ParagraphElement) :
  append_runs acc pes = acc ++ append_runs EmptyString pes.
Proof.
  unfold append_runs. apply fold_left_appending.
  intros a pe. destruct (run_content pe) as [[|c s]|]; now rewrite ?append_nil_r.
Qed.

(** One pass of the loop of the text branch over the top-level elements. *)
Lemma text_step_appending (acc : string) (element : StructuralElement) :
  (let textContent :=
     match paragraph_elements element with
     | Some pes => append_runs acc pes
     | None => acc
     end in
   match table element with
   | Some t =>
       match tableRows t with
       | Some rows =>
           fold_left
             (fun textContent row =>
                match tableCells row with
                | Some cells =>
                    fold_left
                      (fun textContent cell =>
                         match cell_content cell with
                         | Some cc =>
                             fold_left
                               (fun textContent cellElement =>
                                  match paragraph_elements cellElement with
                                  | Some pes => append_runs textContent pes
                                  | None => textContent
                                  end) cc textContent
                         | None => textContent
                         end) cells textContent
                | None => textContent
                end) rows textContent
       | None => textContent
       end
   | None => textContent
   end)
  = acc ++ collect_textContent (doc_of [element]).
Proof.
  unfold collect_textContent, doc_of, body_content_of.
  cbn [body body_content fold_left]. cbv zeta.
  assert (Hcell : forall a (cellElement : StructuralElement),
             match paragraph_elements cellElement with
             | Some pes => append_runs a pes
             | None => a
             end
             = a ++ match paragraph_elements cellElement with
                    | Some pes => append_runs EmptyString pes
                    | None => EmptyString
                    end).
  { intros a ce. destruct (paragraph_elements ce);
      [apply append_runs_appending | now rewrite append_nil_r]. }
  rewrite (Hcell acc element).
  destruct (table element) as [t|]; [|reflexivity].
  destruct (tableRows t) as [rows|]; [|reflexivity].
  match goal with
  | |- fold_left ?step rows (acc ++ ?x) = _ =>
      assert (Hstep : forall a row, step a row = a ++ step EmptyString row)
  end.
  { intros a row.
    destruct (tableCells row) as [cells|]; [|now rewrite append_nil_r].
    apply fold_left_appending. intros a' cell.
    destruct (cell_content cell) as [cc|]; [|now rewrite append_nil_r].
    apply fold_left_appending. intros a'' ce. apply Hcell. }
  rewrite (fold_left_appending _ rows Hstep (acc ++ _)).
  rewrite (fold_left_appending _ rows Hstep
             (match paragraph_elements element with
              | Some pes => append_runs EmptyString pes
              | None => EmptyString
              end)).
  now rewrite append_assoc.
Qed.

(** X13. The text of a document is the text of its elements in document
    order: the text of a content in two parts is the text of the first part
    followed by the text of the second. *)
Theorem text_follows_document_order :
  forall content1 content2 : list StructuralElement,
    collect_textContent (doc_of (content1 ++ content2))
    = collect_textContent (doc_of content1) ++ collect_textContent (doc_of content2).
Proof.
  intros content1 content2.
  unfold collect_textContent, doc_of, body_content_of. cbn [body body_content].
  rewrite fold_left_app.
  match goal with
  | |- fold_left ?step content2 ?a = _ =>
      rewrite (fold_left_appending step content2)
  end; [reflexivity|].
  intros acc x.
  transitivity (acc ++ collect_textContent (doc_of [x]));
    [exact (text_step_appending acc x)|].
  exact (f_equal (append acc) (eq_sym (text_step_appending EmptyString x))).
Qed.

(** X14. The text branch reads the cells of a top-level table without
    entering the tables nested in them: whatever those are, the text is
    the same. *)
Theorem text_ignores_nested_tables :
  forall (g : StructuralElement -> option Table) (d : Document),
    collect_textContent (Spec.renest g d) = collect_textContent d.
Proof.
  intros g [[[[content|]]|]]; try reflexivity.
  unfold collect_textContent, Spec.renest, body_content_of.
  cbn [body body_content option_map].
  apply fold_left_map_ext. intros acc [p t s].
  cbn [paragraph table sectionBreak]. unfold paragraph_elements at 1 3.
  cbn [paragraph]. cbv zeta.
  destruct t as [[[rows|]]|]; try reflexivity.
  cbn [option_map Spec.renest_table tableRows].
  apply fold_left_map_ext. intros a [[cells|]]; [|reflexivity].
  cbn [Spec.renest_row tableCells option_map].
  apply fold_left_map_ext. intros a' [[cc|]]; [|reflexivity].
  cbn [Spec.renest_cell cell_content option_map].
  apply fold_left_map_ext. intros a'' ce. reflexivity.
Qed.

End OutputExtras.

(* ================================================================== *)
(** ** The REST facade: refusals, failures, what a tool reads *)

Section RestExtras.
Import JsString Json Auth Google Docs SpecCache SpecDispatch SpecServer.

Lemma get_prop_not_nullish (v : JSON) (k : string) :
  is_nullish v = false -> exists x, get_prop v k = Ok x.
Proof. destruct v; try discriminate; intros _; eexists; reflexivity. Qed.

(** X15. A call without a truthy tool name is answered with status 400, and
    a call whose tool name has a string that the registry does not know
    with status 404 and that string; either answer is given before any
    credential resolution, the process being left as it is. *)
Theorem calls_naming_no_tool_are_refused_before_resolution :
  forall (w : RestApi.World) (body toolName : JSON) (p : Proc),
    is_nullish body = false ->
    get_prop body "toolName" = Ok toolName ->
    (truthy toolName = false ->
     RestApi.dispatch w body p
     = (p, RestApi.Responded
             (RestApi.mkResponse 400
                (RestApi.FailureBody (Some "toolName is required") false))))
    /\ (forall key : string,
           truthy toolName = true ->
           RestApi.str w toolName = Ok key ->
           RestApi.tools_get key = RestApi.Missing ->
           RestApi.dispatch w body p
           = (p, RestApi.Responded
                   (RestApi.mkResponse 404
                      (RestApi.FailureBody (Some ("Tool '" ++ key ++ "' not found"))
                                           false)))).
Proof.
  intros w body toolName p Hbody Hname.
  destruct (get_prop_not_nullish body "arguments" Hbody) as [toolArgs Hargs].
  unfold RestApi.dispatch. rewrite Hname, Hargs.
  split; [intros Ht; rewrite Ht; reflexivity|].
  intros key Ht Hkey Hmissing. now rewrite Ht, Hkey, Hmissing.
Qed.

Lemma calls_naming_no_tool_are_refused_before_resolution_witness :
  RestApi.dispatch Examples.unresolved_rest (call_body "deleteEverything" (JObj [])) proc0
  = (proc0, RestApi.Responded
              (RestApi.mkResponse 404
                 (RestApi.FailureBody (Some "Tool 'deleteEverything' not found") false))).
Proof.
  exact (proj2 (calls_naming_no_tool_are_refused_before_resolution
                  Examples.unresolved_rest (call_body "deleteEverything" (JObj []))
                  (JStr "deleteEverything") proc0 eq_refl eq_refl)
               "deleteEverything" eq_refl eq_refl eq_refl).
Defined.

Lemma tools_get_inherited (name : string) :
  In name RestApi.Object_prototype_names ->
  RestApi.tools_get name = RestApi.Inherited.
Proof.
  unfold RestApi.Object_prototype_names. cbn [In].
  intros H. repeat (destruct H as [<- | H]; [reflexivity|]). destruct H.
Qed.

(** X16. A call whose tool name is a property that every object inherits
    ([toString], [constructor], ...) is not refused as unknown: the
    dispatcher initializes the clients and then answers with status 500,
    with the error of the initialization or with the type error of calling
    a missing [execute]. *)
Theorem inherited_names_pass_the_lookup :
  forall (w : RestApi.World) (body toolName : JSON) (key : string) (p : Proc),
    is_nullish body = false ->
    get_prop body "toolName" = Ok toolName ->
    truthy toolName = true ->
    RestApi.str w toolName = Ok key ->
    In key RestApi.Object_prototype_names ->
    RestApi.dispatch w body p
    = (fst (RestApi.initializeGoogleClient w p),
       RestApi.respond_500
         (match snd (RestApi.initializeGoogleClient w p) with
          | Ok _ => TypeError "tool.execute is not a function"
          | Throw e => e
          end) true).
Proof.
  intros w body toolName key p Hbody Hname Ht Hkey Hin.
  destruct (get_prop_not_nullish body "arguments" Hbody) as [toolArgs Hargs].
  unfold RestApi.dispatch. rewrite Hname, Hargs, Ht, Hkey, (tools_get_inherited _ Hin).
  cbn [negb]. destruct (RestApi.initializeGoogleClient w p) as [p' [c|e]]; reflexivity.
Qed.

Lemma inherited_names_pass_the_lookup_witness :
  snd (RestApi.dispatch Examples.quiet_upstream (call_body "toString" (JObj [])) proc0)
  = RestApi.Responded
      (RestApi.mkResponse 500
         (RestApi.FailureBody (Some "tool.execute is not a function") true)).
Proof.
  rewrite (inherited_names_pass_the_lookup
             Examples.quiet_upstream (call_body "toString" (JObj [])) (JStr "toString")
             "toString" proc0 eq_refl eq_refl eq_refl eq_refl
             (or_intror (or_intror (or_intror (or_intror (or_intror (or_intror
                (or_intror (or_intror (or_introl eq_refl)))))))))).
  vm_compute. reflexivity.
Defined.

(** X17. When the clients cannot be initialized, a call of a registered
    tool is answered with status 500 and the message of the failure; the
    tool is not executed, so the answer is the same whatever the upstream
    API would have done. *)
Theorem failed_initialization_answers_without_executing :
  forall (w : RestApi.World) (body toolName toolArgs : JSON) (key : string)
         (t : RestApi.ToolName) (p p' : Proc) (e : JsError),
    get_prop body "toolName" = Ok toolName ->
    get_prop body "arguments" = Ok toolArgs ->
    truthy toolName = true ->
    RestApi.str w toolName = Ok key ->
    RestApi.tools_get key = RestApi.Registered t ->
    RestApi.initializeGoogleClient w p = (p', Throw e) ->
    RestApi.dispatch w body p
    = (p', RestApi.Responded
             (RestApi.mkResponse 500 (RestApi.FailureBody (message e) true)))
    /\ clients p' = clients p.
Proof.
  intros w body toolName toolArgs key t p p' e Hname Hargs Ht Hkey Htool Hinit.
  split.
  - unfold RestApi.dispatch. rewrite Hname, Hargs, Ht, Hkey, Htool, Hinit. reflexivity.
  - rewrite rest_initialize_cases in Hinit.
    destruct (ready (clients p)); [discriminate Hinit|].
    destruct (authorize (RestApi.auth_world w) (io p)) as [st' [c|e']];
      [discriminate Hinit|]. now injection Hinit as <- _.
Qed.

Lemma failed_initialization_answers_without_executing_witness :
  snd (RestApi.dispatch Examples.unresolved_rest
         (call_body "createDocument" (JObj [("title", JStr "Notes")])) proc0)
  = RestApi.Responded
      (RestApi.mkResponse 500
         (RestApi.FailureBody
            (Some "No valid credentials found in Cloud Run environment. Please check Secret Manager configuration.")
            true)).
Proof.
  destruct (RestApi.initializeGoogleClient Examples.unresolved_rest proc0)
    as [p' [c|e]] eqn:E; [vm_compute in E; discriminate E|].
  rewrite (proj1 (failed_initialization_answers_without_executing
                    Examples.unresolved_rest
                    (call_body "createDocument" (JObj [("title", JStr "Notes")]))
                    (JStr "createDocument") (JObj [("title", JStr "Notes")])
                    "createDocument" RestApi.createDocument_tool proc0 p' e
                    eq_refl eq_refl eq_refl eq_refl eq_refl E)).
  vm_compute in E. injection E as _ <-. reflexivity.
Defined.

Lemma rest_dispatch_state (w : RestApi.World) (body : JSON) (p : Proc) :
  fst (RestApi.dispatch w body p) = p
  \/ fst (RestApi.dispatch w body p) = fst (RestApi.initializeGoogleClient w p).
Proof.
  unfold RestApi.dispatch.
  destruct (get_prop body "toolName") as [toolName|]; [|now left].
  destruct (get_prop body "arguments") as [toolArgs|]; [|now left].
  destruct (negb (truthy toolName)); [now left|].
  destruct (RestApi.str w toolName) as [key|]; [|now left].
  destruct (RestApi.tools_get key) as [t| |]; [| |now left];
    destruct (RestApi.initializeGoogleClient w p) as [p' [c|e]]; try (now right).
  destruct (RestApi.execute w t (or_else toolArgs (JObj []))); now right.
Qed.

(** X18. Once the clients are set, no request changes the process: neither
    the dispatcher nor a dedicated route resolves credentials again. *)
Theorem rest_requests_are_stateless_once_ready :
  forall (w : RestApi.World) (body : JSON) (handler : JSON -> Res string) (p : Proc),
    ready (clients p) = true ->
    fst (RestApi.dispatch w body p) = p
    /\ fst (RestApi.docs_route w handler body p) = p.
Proof.
  intros w body handler p Hready. split.
  - destruct (rest_dispatch_state w body p) as [H | H]; [exact H|].
    now rewrite H, (rest_ready_is_cached w p Hready).
  - unfold RestApi.docs_route. rewrite (rest_ready_is_cached w p Hready).
    destruct (handler body); reflexivity.
Qed.

Lemma rest_requests_are_stateless_once_ready_witness :
  fst (RestApi.dispatch Examples.unresolved_rest (call_body "readGoogleDoc" (JObj []))
         (fst (RestApi.dispatch Examples.quiet_upstream
                 (call_body "searchGoogleDocs" (JObj [])) proc0)))
  = fst (RestApi.dispatch Examples.quiet_upstream
           (call_body "searchGoogleDocs" (JObj [])) proc0).
Proof.
  exact (proj1 (rest_requests_are_stateless_once_ready
                  Examples.unresolved_rest (call_body "readGoogleDoc" (JObj []))
                  (fun _ => Ok EmptyString)
                  (fst (RestApi.dispatch Examples.quiet_upstream
                          (call_body "searchGoogleDocs" (JObj [])) proc0))
                  eq_refl)).
Defined.



End RestExtras.

Section RestReadExtras.
Import JsString Json Docs SpecServer.

(** X20. [readGoogleDoc] of the REST facade takes its text from the
    paragraphs at the top level of the document and from nothing else:
    tables and section breaks, whatever they hold, leave it unchanged. *)
Theorem rest_text_reads_top_level_paragraphs_only :
  forall (g : StructuralElement -> option Table)
         (h : StructuralElement -> option SectionBreak) (d : Document),
    RestApi.rest_textContent (keep_paragraphs g h d) = RestApi.rest_textContent d.
Proof.
  intros g h [[[[content|]]|]]; try reflexivity.
  unfold RestApi.rest_textContent, keep_paragraphs, body_content_of.
  cbn [body body_content option_map].
  apply fold_left_map_ext. intros acc e. reflexivity.
Qed.

(** The loop of the REST facade over the runs of a paragraph whose runs
    all have a content. *)
Lemma rest_runs_agree (pes : list ParagraphElement) (acc : string) :
  forallb (fun pe => match textRun pe with
                     | Some tr => is_some (content tr)
                     | None => true
                     end) pes = true ->
  fold_left
    (fun textContent pe =>
       match textRun pe with
       | Some tr =>
           textContent ++ match content tr with
                          | Some c => c
                          | None => "undefined"
                          end
       | None => textContent
       end) pes acc
  = append_runs acc pes.
Proof.
  unfold append_runs. revert acc.
  induction pes as [|pe pes IH]; intros acc H; [reflexivity|].
  cbn [forallb] in H. apply andb_true_iff in H as [Hpe Hrest].
  cbn [fold_left]. rewrite <- (IH _ Hrest). f_equal.
  unfold run_content. destruct (textRun pe) as [tr|]; [|reflexivity].
  destruct (content tr) as [[|c s]|]; try discriminate Hpe;
    now rewrite ?append_nil_r.
Qed.

(** X21. On a document whose top-level elements hold no table and whose
    text runs all have a content, the REST facade and the text branch of the
    streaming server read the same text. *)
Theorem both_servers_read_the_same_plain_text :
  forall content : list StructuralElement,
    forallb plain_element content = true ->
    RestApi.rest_textContent (doc_of content) = collect_textContent (doc_of content).
Proof.
  intros content.
  unfold RestApi.rest_textContent, collect_textContent, doc_of, body_content_of.
  cbn [body body_content].
  match goal with
  | |- _ -> fold_left ?f1 _ _ = fold_left ?f2 _ _ =>
      assert (Hloop : forall acc, forallb plain_element content = true ->
                                  fold_left f1 content acc = fold_left f2 content acc)
  end; [|apply Hloop].
  induction content as [|e content IH]; intros acc H; [reflexivity|].
  cbn [forallb] in H. apply andb_true_iff in H as [He Hrest].
  cbn [fold_left]. rewrite <- (IH _ Hrest). f_equal.
  unfold plain_element in He. cbv zeta.
  destruct (table e); [discriminate He|].
  unfold paragraph_elements in *.
  destruct (paragraph e) as [p|]; [|reflexivity].
  destruct (elements p) as [pes|]; [|reflexivity].
  now apply rest_runs_agree.
Qed.

Lemma both_servers_read_the_same_plain_text_witness :
  RestApi.rest_textContent Examples.hello_doc = collect_textContent Examples.hello_doc.
Proof.
  exact (both_servers_read_the_same_plain_text [Examples.para "Hello"] eq_refl).
Defined.

Lemma truthy_integer (n : Z) : truthy (JNum n 0) = negb (n =? 0)%Z.
Proof. unfold truthy, num_is_zero. cbn. now rewrite orb_false_r. Qed.

Lemma int_value_integer (n : Z) : int_value n 0 = Some n.
Proof. unfold int_value. cbn. f_equal. lia. Qed.

(** X22. [readGoogleDoc] of the REST facade with an integral [maxLength] n
    on a text of length L: when n is 0 or at least L the whole text follows
    the header; otherwise the first n characters and an ellipsis.  Without
    [maxLength] the whole text follows the header. *)
Theorem rest_read_truncates_to_maxLength :
  forall (w : RestApi.World) (args documentId : JSON) (data : Document),
    get_prop args "documentId" = Ok documentId ->
    RestApi.documents_get w documentId = Ok data ->
    let textContent := RestApi.rest_textContent data in
    let L := Z.of_nat (String.length textContent) in
    (forall n, get_prop args "maxLength" = Ok (JNum n 0) ->
               RestApi.readGoogleDoc w args
               = Ok ("Document Content:" ++ nl ++ "---" ++ nl
                     ++ (if (n =? 0)%Z || (L <=? n)%Z then textContent
                         else substring0 n textContent ++ "...")))
    /\ (get_prop args "maxLength" = Ok JUndefined ->
        RestApi.readGoogleDoc w args
        = Ok ("Document Content:" ++ nl ++ "---" ++ nl ++ textContent)).
Proof.
  intros w args documentId data Hid Hget textContent L.
  split.
  - intros n Hmax. unfold RestApi.readGoogleDoc.
    rewrite Hid, Hmax. cbn [bindR]. rewrite Hget. cbn [bindR].
    unfold RestApi.rest_truncate. rewrite truthy_integer, int_value_integer.
    fold textContent. fold L.
    destruct (n =? 0)%Z; cbn [negb orb]; [reflexivity|].
    destruct (Z.gtb_spec L n), (Z.leb_spec L n); try reflexivity; lia.
  - intros Hmax. unfold RestApi.readGoogleDoc.
    rewrite Hid, Hmax. cbn [bindR]. rewrite Hget. reflexivity.
Qed.

Lemma rest_read_truncates_to_maxLength_witness :
  RestApi.readGoogleDoc Examples.quiet_upstream
    (JObj [("documentId", JStr "doc-1"); ("maxLength", JNum 2 0)])
  = Ok ("Document Content:" ++ nl ++ "---" ++ nl ++ "He...").
Proof.
  exact (proj1 (rest_read_truncates_to_maxLength
                  Examples.quiet_upstream
                  (JObj [("documentId", JStr "doc-1"); ("maxLength", JNum 2 0)])
                  (JStr "doc-1") Examples.hello_doc eq_refl eq_refl)
               2%Z eq_refl).
Defined.

(** X23. The list of files of an answer of the Drive API: a missing, null
    or otherwise falsy [files], and an empty array, give the empty listing,
    so that the tool returns its header alone; a truthy [files] that is not
    an array makes the tool fail. *)
Theorem listing_of_no_files_is_empty :
  forall (w : RestApi.World) (data files : JSON),
    get_prop data "files" = Ok files ->
    (truthy files = false -> RestApi.formattedDocs_of w data = Ok EmptyString)
    /\ (files = JArr [] -> RestApi.formattedDocs_of w data = Ok EmptyString)
    /\ (truthy files = true -> (forall docs, files <> JArr docs) ->
        RestApi.formattedDocs_of w data = Throw (TypeError "docs.map is not a function")).
Proof.
  intros w data files Hfiles. unfold RestApi.formattedDocs_of.
  rewrite Hfiles. cbn [bindR]. unfold or_else.
  split; [|split].
  - intros Ht. now rewrite Ht.
  - intros ->. reflexivity.
  - intros Ht Hnot. rewrite Ht.
    destruct files; try reflexivity. now destruct (Hnot l).
Qed.

Lemma listing_of_no_files_is_empty_witness :
  RestApi.searchGoogleDocs Examples.quiet_upstream (JObj [("searchQuery", JStr "plan")])
  = Ok ("Search results for " ++ dq ++ "plan" ++ dq ++ ":" ++ nl ++ nl).
Proof.
  pose proof (proj1 (proj2 (listing_of_no_files_is_empty
                              Examples.quiet_upstream (JObj [("files", JArr [])])
                              (JArr []) eq_refl)) eq_refl) as H.
  unfold RestApi.searchGoogleDocs. cbn [get_prop lookup String.eqb Ascii.eqb Bool.eqb bindR
    RestApi.prop_default RestApi.str to_string].
  change (RestApi.files_list Examples.quiet_upstream ?x) with (@Ok JSON (JObj [("files", JArr [])])).
  cbn [bindR]. rewrite H. reflexivity.
Defined.




End RestReadExtras.

Section TableExtras.
Import JsString Docs SpecServer.

Lemma table_rows_skip_bare (rows : list TableRow) (st : string * bool) :
  fold_left table_row_step rows st
  = fold_left table_row_step (filter with_cells rows) st.
Proof.
  revert st. induction rows as [|r rows IH]; intros st; [reflexivity|].
  cbn [fold_left filter]. unfold with_cells at 1.
  destruct (tableCells r) as [cells|] eqn:E; cbn [is_some].
  - cbn [fold_left]. apply IH.
  - rewrite <- IH. f_equal. unfold table_row_step. destruct st. now rewrite E.
Qed.

(** X25. A row without [tableCells] is skipped altogether: the table renders
    as the table of its other rows, so that the separator follows the first
    row that has cells; when no row has cells the rendering is two line
    feeds. *)
Theorem rows_without_cells_are_skipped :
  forall rows : list TableRow,
    rows <> [] ->
    convertTableToMarkdown (mkTable (Some rows))
    = match filter with_cells rows with
      | [] => nl ++ nl
      | kept => convertTableToMarkdown (mkTable (Some kept))
      end.
Proof.
  intros rows Hne. unfold convertTableToMarkdown at 1. cbn [tableRows].
  destruct rows as [|r rows]; [congruence|].
  rewrite table_rows_skip_bare.
  destruct (filter with_cells (r :: rows)) as [|k ks]; reflexivity.
Qed.

Lemma rows_without_cells_are_skipped_witness :
  split_lines (convertTableToMarkdown table_with_bare_row)
  = [EmptyString; "| a |"; "| --- |"; "| b |"; EmptyString; EmptyString].
Proof.
  unfold table_with_bare_row.
  rewrite (rows_without_cells_are_skipped
             [ mkTableRow None; mkTableRow (Some [Examples.cell "a"]);
               mkTableRow (Some [Examples.cell "b"]) ]
             ltac:(discriminate)).
  reflexivity.
Defined.

(** X26. The markdown renderer does not throw on a snapshot whose
    top-level paragraphs carry named styles of the Docs API: it returns a
    string. *)
Theorem markdown_renders_every_well_formed_snapshot :
  forall d : Document,
    Spec.wf_snapshot d = true ->
    exists s, convertDocsJsonToMarkdown d = Ok s.
Proof. intros d H. exact (convertDocsJsonToMarkdown_total d H). Qed.

Lemma markdown_renders_every_well_formed_snapshot_witness :
  exists s, convertDocsJsonToMarkdown titled_doc = Ok s.
Proof.
  exact (markdown_renders_every_well_formed_snapshot titled_doc eq_refl).
Defined.

(** X27. The text branch of [readGoogleDoc] never returns the empty string:
    a text that is blank gives the sentinel, any other a header and the
    text, whatever the maximum length. *)
Theorem text_branch_never_returns_the_empty_string :
  forall (maxLength : option Z) (textContent : string),
    nonempty (ServerHttp.text_result maxLength textContent) = true
    /\ (trim textContent = EmptyString ->
        ServerHttp.text_result maxLength textContent
        = "Document found, but appears empty.").
Proof.
  intros maxLength textContent. split; [apply text_result_nonempty|].
  intros H. unfold ServerHttp.text_result. now rewrite H.
Qed.

Lemma text_branch_never_returns_the_empty_string_witness :
  ServerHttp.text_result (Some 3%Z) nl = "Document found, but appears empty.".
Proof.
  exact (proj2 (text_branch_never_returns_the_empty_string (Some 3%Z) nl) eq_refl).
Defined.

End TableExtras.
